(** * sdlc-engine: workflow state machine, phase scheduler and task executor

    A shallow embedding of the TypeScript sources
    - [StateMachine]   (implementations/StateMachine.ts)
    - [PhaseExecutor]  (implementations/PhaseExecutor.ts)
    - [TaskExecutor]   (implementations/TaskExecutor.ts)
    followed by the properties proved about them.

    Conventions.
    - JavaScript values that the code treats dynamically (task results,
      workflow metadata) are values of [JSVal]; truthiness, [&&], [||],
      [===] against a string literal and [Array.includes] are written out.
    - A [Map<string, T>] is a [gmap string T]; a [Set<string>] whose
      insertion order is observable through [Array.from] is a duplicate-free
      list extended at the end ([set_add]).
    - Objects that are shared by reference (workflow, phase and task
      instances) live in one store and are addressed by their key; a
      mutation through any alias is an update of the store.
    - [new Date()] reads a counter that advances at every read.
    - The injected collaborators are interfaces.  A call of the phase
      executor, of the task executor or of the persistence store resolves
      or rejects, and an awaited rejection is thrown at the [await].
    - Logger calls of the state machine are kept (they are its observable
      trace); the event bus decorators and the timers ([setTimeout]) are
      not modelled: they do not influence any value computed here. *)

From Stdlib Require Import ZArith Lia Bool.
From stdpp Require Import base strings pretty list option gmap.

Local Open Scope string_scope.

(** ** JavaScript values *)

Unset Elimination Schemes.
Inductive JSVal : Type :=
| JUndefined
| JNull
| JBool (b : bool)
| JNum (n : Z)
| JStr (s : string)
| JDate (t : nat)
| JArr (items : list JSVal)
| JObj (fields : list (string * JSVal)).
Set Elimination Schemes.

(** ToBoolean. *)
Definition truthy (v : JSVal) : bool :=
  match v with
  | JUndefined | JNull => false
  | JBool b => b
  | JNum n => negb (n =? 0)%Z
  | JStr s => negb (String.eqb s "")
  | JDate _ | JArr _ | JObj _ => true
  end.

(** [a && b] and [a || b] return one of their operands. *)
Definition js_and (a b : JSVal) : JSVal := if truthy a then b else a.
Definition js_or (a b : JSVal) : JSVal := if truthy a then a else b.

(** [v === 'lit'] *)
Definition is_str (v : JSVal) (lit : string) : bool :=
  match v with
  | JStr s => String.eqb s lit
  | _ => false
  end.

Fixpoint assoc (k : string) (fields : list (string * JSVal)) : JSVal :=
  match fields with
  | [] => JUndefined
  | (k', v) :: rest => if String.eqb k' k then v else assoc k rest
  end.

(** [o?.k]: property read that yields [undefined] on a missing receiver. *)
Definition get (o : JSVal) (k : string) : JSVal :=
  match o with
  | JObj fields => assoc k fields
  | _ => JUndefined
  end.

(** [arr?.includes(s)] for a string [s]. *)
Definition includes (arr : JSVal) (s : string) : bool :=
  match arr with
  | JArr items => existsb (fun v => is_str v s) items
  | _ => false
  end.

(** [s || dflt] on an optional string. *)
Definition str_or (s : option string) (dflt : string) : string :=
  match s with
  | Some x => if String.eqb x "" then dflt else x
  | None => dflt
  end.

(** [xs || []] rendered as a JavaScript array of strings. *)
Definition strs_or_empty (xs : option (list string)) : JSVal :=
  JArr (map JStr (default [] xs)).

(** ** Errors thrown by the engine (types/StateMachineTypes) *)

Inductive Err : Type :=
| Error (message : string)
| StateMachineError (message code : string)
| PhaseExecutionError (message phaseId : string)
                      (pendingTasks failedTasks : option (list string))
| TransitionError (message fromPhase toPhase : string).

(** ** Definitions supplied by the definition provider (sdlc-config) *)

Record Task := mkTask {
  t_id : string;
  t_type : string;
  t_required : bool;
  t_dependencies : option (list string);
  t_estimatedDuration : option string;
  t_tools : option (list string);
  t_outputs : option (list string);
  t_assignee : option string
}.

Record Phase := mkPhase {
  p_id : string;
  p_tasks : list Task;
  p_nextPhases : list string;
  p_exitConditions : list string;
  p_deliverables : list string
}.

Record Transition := mkTransition {
  tr_from : string;
  tr_to : string;
  tr_conditions : list string;
  tr_requiresApproval : bool
}.

Record Workflow := mkWorkflow {
  w_id : string;
  w_name : string;
  w_initialPhase : string;
  w_phases : list Phase;
  w_transitions : list Transition
}.

(** ** Run-time instances *)

Inductive TaskState := task_pending | task_running | task_completed | task_failed | task_skipped.
Inductive PhaseState :=
  phase_pending | phase_active | phase_completed | phase_failed | phase_skipped | phase_rolled_back.
Inductive MachineState := idle | running | paused | completed | failed.

Global Instance TaskState_eq_dec : EqDecision TaskState.
Proof. solve_decision. Defined.
Global Instance PhaseState_eq_dec : EqDecision PhaseState.
Proof. solve_decision. Defined.
Global Instance MachineState_eq_dec : EqDecision MachineState.
Proof. solve_decision. Defined.

Record TaskInstance := mkTaskInstance {
  ti_taskId : string;
  ti_state : TaskState;
  ti_startedAt : option nat;
  ti_completedAt : option nat;
  ti_result : JSVal;
  ti_error : option Err;
  ti_retryCount : nat
}.

Record PhaseInstance := mkPhaseInstance {
  pi_phaseId : string;
  pi_state : PhaseState;
  pi_taskStates : gmap string TaskInstance;
  pi_startedAt : option nat;
  pi_completedAt : option nat;
  pi_error : option Err;
  pi_retryCount : nat
}.

Record WorkflowInstance := mkWorkflowInstance {
  wi_id : string;
  wi_workflowId : string;
  wi_name : string;
  wi_state : MachineState;
  wi_currentPhaseId : option string;
  wi_phaseStates : gmap string PhaseInstance;
  wi_startedAt : nat;
  wi_completedAt : option nat;
  wi_error : option Err;
  wi_metadata : JSVal
}.

(** Field assignments. *)

Definition ti_set_state (s : TaskState) (ti : TaskInstance) : TaskInstance :=
  mkTaskInstance (ti_taskId ti) s (ti_startedAt ti) (ti_completedAt ti)
                 (ti_result ti) (ti_error ti) (ti_retryCount ti).
Definition ti_set_startedAt (d : nat) (ti : TaskInstance) : TaskInstance :=
  mkTaskInstance (ti_taskId ti) (ti_state ti) (Some d) (ti_completedAt ti)
                 (ti_result ti) (ti_error ti) (ti_retryCount ti).
Definition ti_set_completedAt (d : nat) (ti : TaskInstance) : TaskInstance :=
  mkTaskInstance (ti_taskId ti) (ti_state ti) (ti_startedAt ti) (Some d)
                 (ti_result ti) (ti_error ti) (ti_retryCount ti).
Definition ti_set_result (r : JSVal) (ti : TaskInstance) : TaskInstance :=
  mkTaskInstance (ti_taskId ti) (ti_state ti) (ti_startedAt ti) (ti_completedAt ti)
                 r (ti_error ti) (ti_retryCount ti).
Definition ti_set_error (e : option Err) (ti : TaskInstance) : TaskInstance :=
  mkTaskInstance (ti_taskId ti) (ti_state ti) (ti_startedAt ti) (ti_completedAt ti)
                 (ti_result ti) e (ti_retryCount ti).

Definition pi_set_state (s : PhaseState) (p : PhaseInstance) : PhaseInstance :=
  mkPhaseInstance (pi_phaseId p) s (pi_taskStates p) (pi_startedAt p)
                  (pi_completedAt p) (pi_error p) (pi_retryCount p).
Definition pi_set_taskStates (m : gmap string TaskInstance) (p : PhaseInstance) : PhaseInstance :=
  mkPhaseInstance (pi_phaseId p) (pi_state p) m (pi_startedAt p)
                  (pi_completedAt p) (pi_error p) (pi_retryCount p).
Definition pi_set_startedAt (d : nat) (p : PhaseInstance) : PhaseInstance :=
  mkPhaseInstance (pi_phaseId p) (pi_state p) (pi_taskStates p) (Some d)
                  (pi_completedAt p) (pi_error p) (pi_retryCount p).
Definition pi_set_completedAt (d : nat) (p : PhaseInstance) : PhaseInstance :=
  mkPhaseInstance (pi_phaseId p) (pi_state p) (pi_taskStates p) (pi_startedAt p)
                  (Some d) (pi_error p) (pi_retryCount p).
Definition pi_set_error (e : Err) (p : PhaseInstance) : PhaseInstance :=
  mkPhaseInstance (pi_phaseId p) (pi_state p) (pi_taskStates p) (pi_startedAt p)
                  (pi_completedAt p) (Some e) (pi_retryCount p).
Definition pi_incr_retryCount (p : PhaseInstance) : PhaseInstance :=
  mkPhaseInstance (pi_phaseId p) (pi_state p) (pi_taskStates p) (pi_startedAt p)
                  (pi_completedAt p) (pi_error p) (S (pi_retryCount p)).

Definition wi_set_state (s : MachineState) (w : WorkflowInstance) : WorkflowInstance :=
  mkWorkflowInstance (wi_id w) (wi_workflowId w) (wi_name w) s (wi_currentPhaseId w)
                     (wi_phaseStates w) (wi_startedAt w) (wi_completedAt w)
                     (wi_error w) (wi_metadata w).
Definition wi_set_currentPhaseId (p : string) (w : WorkflowInstance) : WorkflowInstance :=
  mkWorkflowInstance (wi_id w) (wi_workflowId w) (wi_name w) (wi_state w) (Some p)
                     (wi_phaseStates w) (wi_startedAt w) (wi_completedAt w)
                     (wi_error w) (wi_metadata w).
Definition wi_set_phaseStates (m : gmap string PhaseInstance) (w : WorkflowInstance)
  : WorkflowInstance :=
  mkWorkflowInstance (wi_id w) (wi_workflowId w) (wi_name w) (wi_state w)
                     (wi_currentPhaseId w) m (wi_startedAt w) (wi_completedAt w)
                     (wi_error w) (wi_metadata w).
Definition wi_set_completedAt (d : nat) (w : WorkflowInstance) : WorkflowInstance :=
  mkWorkflowInstance (wi_id w) (wi_workflowId w) (wi_name w) (wi_state w)
                     (wi_currentPhaseId w) (wi_phaseStates w) (wi_startedAt w) (Some d)
                     (wi_error w) (wi_metadata w).
Definition wi_set_error (e : Err) (w : WorkflowInstance) : WorkflowInstance :=
  mkWorkflowInstance (wi_id w) (wi_workflowId w) (wi_name w) (wi_state w)
                     (wi_currentPhaseId w) (wi_phaseStates w) (wi_startedAt w)
                     (wi_completedAt w) (Some e) (wi_metadata w).

(** ** Execution contexts handed to the collaborators *)

Record PhaseContext := mkPhaseContext {
  pc_workflowInstance : WorkflowInstance;
  pc_phase : Phase;
  pc_phaseInstance : PhaseInstance;
  pc_metadata : JSVal
}.

Record TaskContext := mkTaskContext {
  tc_phaseContext : option PhaseContext;
  tc_task : Task;
  tc_taskInstance : TaskInstance;
  tc_metadata : JSVal
}.

(** ** TaskExecutor *)

Module TaskExecutor.

(** [executeAutomatedTask] *)
Definition executeAutomatedTask (context : TaskContext) (now : nat) : JSVal :=
  JObj [ ("status", JStr "success");
         ("outputs", strs_or_empty (t_outputs (tc_task context)));
         ("executedAt", JDate now);
         ("metadata", JObj [ ("tools", strs_or_empty (t_tools (tc_task context)));
                             ("automated", JBool true) ]) ].

(** [executeManualTask] *)
Definition executeManualTask (context : TaskContext) (now : nat) : JSVal :=
  let completedTasks := get (tc_metadata context) "completedTasks" in
  if includes completedTasks (t_id (tc_task context)) then
    JObj [ ("status", JStr "success");
           ("completedBy", JStr (str_or (t_assignee (tc_task context)) "system"));
           ("completedAt", JDate now);
           ("outputs", strs_or_empty (t_outputs (tc_task context))) ]
  else
    JObj [ ("status", JStr "success");
           ("completedBy", JStr (str_or (t_assignee (tc_task context)) "unknown"));
           ("completedAt", JDate now);
           ("outputs", strs_or_empty (t_outputs (tc_task context)));
           ("notes", JStr "Simulated manual completion") ].

(** [executeReviewTask] *)
Definition executeReviewTask (context : TaskContext) (now : nat) : JSVal :=
  let approvedReviews := get (tc_metadata context) "approvedReviews" in
  if includes approvedReviews (t_id (tc_task context)) then
    JObj [ ("status", JStr "approved");
           ("reviewedBy", JStr (str_or (t_assignee (tc_task context)) "system"));
           ("reviewedAt", JDate now);
           ("feedback", JStr "Pre-approved via metadata") ]
  else
    JObj [ ("status", JStr "approved");
           ("reviewedBy", JStr (str_or (t_assignee (tc_task context)) "reviewer"));
           ("reviewedAt", JDate now);
           ("feedback", JStr "Review passed");
           ("findings", JArr []) ].

(** [approvalDecisions?.[id] !== false] *)
Definition not_false (v : JSVal) : bool :=
  match v with
  | JBool false => false
  | _ => true
  end.

(** [metadata?.autoApprove === true] *)
Definition is_true (v : JSVal) : bool :=
  match v with
  | JBool true => true
  | _ => false
  end.

(** [executeApprovalTask] *)
Definition executeApprovalTask (context : TaskContext) (now : nat) : JSVal :=
  let approvedTasks := get (tc_metadata context) "approvedTasks" in
  if is_true (get (tc_metadata context) "autoApprove")
     || includes approvedTasks (t_id (tc_task context)) then
    JObj [ ("status", JStr "approved");
           ("approvedBy", JStr "system");
           ("approvedAt", JDate now);
           ("autoApproved", JBool true) ]
  else
    let approvalDecisions := get (tc_metadata context) "approvalDecisions" in
    let approved := not_false (get approvalDecisions (t_id (tc_task context))) in
    JObj [ ("status", JStr (if approved then "approved" else "rejected"));
           ("approvedBy", JStr (str_or (t_assignee (tc_task context)) "approver"));
           ("approvedAt", JDate now);
           ("reason", JStr (if approved then "Criteria met"
                            else "Requirements not satisfied")) ].

(** [executeTask]: dispatch on the declared task type. *)
Definition executeTask (context : TaskContext) (now : nat) : JSVal :=
  let type := t_type (tc_task context) in
  if String.eqb type "automated" then executeAutomatedTask context now
  else if String.eqb type "manual" then executeManualTask context now
  else if String.eqb type "review" then executeReviewTask context now
  else if String.eqb type "approval" then executeApprovalTask context now
  else executeManualTask context now.

(** [validateTaskResult].  The value is the one the JavaScript expression
    produces: in the [manual] arm that is the right operand of [&&]. *)
Definition validateTaskResult (context : TaskContext) : JSVal :=
  let result := ti_result (tc_taskInstance context) in
  if negb (truthy result) then JBool false
  else
    let type := t_type (tc_task context) in
    let status := get result "status" in
    if String.eqb type "automated" then JBool (is_str status "success")
    else if String.eqb type "manual" then
      js_and (JBool (is_str status "success")) (get result "completedBy")
    else if String.eqb type "review" then
      JBool (is_str status "approved" || is_str status "passed")
    else if String.eqb type "approval" then JBool (is_str status "approved")
    else JBool (is_str status "success" || is_str status "completed").

End TaskExecutor.

(** ** Shared environment of the collaborators

    [clock] is the source of [new Date()]; [ext] is whatever private state
    the injected collaborators keep. *)

Record Env (X : Type) := mkEnv { clock : nat; ext : X }.
Arguments mkEnv {X} _ _.
Arguments clock {X} _.
Arguments ext {X} _.

Definition new_Date {X} (env : Env X) : nat * Env X :=
  (clock env, mkEnv (S (clock env)) (ext env)).

(** [Set<string>]: membership and insertion-ordered [add]. *)
Definition has (s : list string) (x : string) : bool := bool_decide (x ∈ s).
Definition set_add (x : string) (s : list string) : list string :=
  if has s x then s else s ++ [x].

(** ** The task executor as PhaseExecutor sees it (ITaskExecutor)

    [te_executeTask] is the awaited call: it receives the context and the
    time of the call, may update the executor's own state and settles with
    a result or a rejection. *)

Record ITaskExecutor (E : Type) := mkTaskExecutor {
  te_executeTask : TaskContext -> nat -> E -> (JSVal + Err) * E;
  te_validateTaskResult : TaskContext -> E -> JSVal * E
}.
Arguments mkTaskExecutor {E} _ _.
Arguments te_executeTask {E} _ _ _ _.
Arguments te_validateTaskResult {E} _ _ _.

(** The shipped implementation: it keeps no state and never rejects. *)
Definition theTaskExecutor : ITaskExecutor unit :=
  mkTaskExecutor
    (fun context now e => (inl (TaskExecutor.executeTask context now), e))
    (fun context e => (TaskExecutor.validateTaskResult context, e)).

(** ** PhaseExecutor *)

(** Interactions of the scheduler with the task executor, newest first.
    [Started] carries the task-state map at the moment the task is picked
    up, before it is marked running. *)
Inductive Event : Type :=
| Started (task : Task) (snapshot : gmap string TaskInstance)
| Resolved (task : Task) (result : JSVal)
| Rejected (task : Task) (reason : Err).

Record PX (E : Type) := mkPX { history : list Event; te_state : E }.
Arguments mkPX {E} _ _.
Arguments history {E} _.
Arguments te_state {E} _.

(** What [executeTask(context, task)] has become once its synchronous
    prefix has run. *)
Inductive Launched : Type :=
| InFlight (outcome : JSVal + Err)
| NoInstance (e : Err).

(** [PromiseSettledResult] *)
Inductive Settled : Type :=
| Fulfilled
| RejectedWith (reason : Err).

(** The variables of the scheduling loop. *)
Record Loop (E : Type) := mkLoop {
  l_taskStates : gmap string TaskInstance;
  l_env : Env (PX E);
  executedTasks : list string;
  failedTasks : list string
}.
Arguments mkLoop {E} _ _ _ _.
Arguments l_taskStates {E} _.
Arguments l_env {E} _.
Arguments executedTasks {E} _.
Arguments failedTasks {E} _.

(** [tasks.map(t => t.id)] *)
Definition ids (tasks : list Task) : list string := t_id <$> tasks.

Module PhaseExecutor.
Section PhaseExecutor.
Context {E : Type}.
Variable taskExecutor : ITaskExecutor E.

Definition dependencies (task : Task) : list string :=
  default [] (t_dependencies task).

(** Initialize task states: only ids that have no instance yet. *)
Definition init_task (ts : gmap string TaskInstance) (task : Task)
  : gmap string TaskInstance :=
  match ts !! t_id task with
  | Some _ => ts
  | None => <[t_id task := mkTaskInstance (t_id task) task_pending None None
                                          JUndefined None 0]> ts
  end.

Definition init_taskStates (tasks : list Task) (ts : gmap string TaskInstance)
  : gmap string TaskInstance :=
  foldl init_task ts tasks.

(** The filter that computes [tasksToExecute]. *)
Definition ready (executed failed : list string) (task : Task) : bool :=
  if has executed (t_id task) || has failed (t_id task) then false
  else forallb (has executed) (dependencies task).

Definition tasksToExecute (tasks : list Task) (executed failed : list string)
  : list Task :=
  filter (fun task => ready executed failed task) tasks.

Definition unresolved (executed failed : list string) (task : Task) : bool :=
  negb (has executed (t_id task)) && negb (has failed (t_id task)).

Definition pendingTasks (tasks : list Task) (executed failed : list string)
  : list Task :=
  filter (fun task => unresolved executed failed task) tasks.

Definition with_taskStates (context : PhaseContext) (ts : gmap string TaskInstance)
  : PhaseContext :=
  mkPhaseContext (pc_workflowInstance context) (pc_phase context)
                 (pi_set_taskStates ts (pc_phaseInstance context))
                 (pc_metadata context).

(** [executeTask(context, task)] up to and including the call of
    [taskExecutor.executeTask]. *)
Definition start_task (context : PhaseContext) (task : Task)
           (st : gmap string TaskInstance * Env (PX E))
  : (gmap string TaskInstance * Env (PX E)) * Launched :=
  let '(ts, env) := st in
  match ts !! t_id task with
  | None => (st, NoInstance (Error ("Task instance not found: " +:+ t_id task)))
  | Some taskInstance =>
      let '(now, env1) := new_Date env in
      let taskInstance' := ti_set_startedAt now (ti_set_state task_running taskInstance) in
      let ts' := <[t_id task := taskInstance']> ts in
      let '(outcome, e') :=
        te_executeTask taskExecutor
          (mkTaskContext (Some (with_taskStates context ts')) task taskInstance'
                         (pc_metadata context))
          (clock env1) (te_state (ext env1)) in
      ((ts', mkEnv (clock env1) (mkPX (Started task ts :: history (ext env1)) e')),
       InFlight outcome)
  end.

(** [executeTask(context, task)] after the await: the [try] body's tail
    or the [catch] block. *)
Definition settle_task (task : Task) (launched : Launched)
           (st : gmap string TaskInstance * Env (PX E))
  : (gmap string TaskInstance * Env (PX E)) * Settled :=
  let '(ts, env) := st in
  match launched with
  | NoInstance e => (st, RejectedWith e)
  | InFlight (inl result) =>
      let '(now, env1) := new_Date env in
      let ts' := alter (fun ti => ti_set_result result
                                    (ti_set_completedAt now
                                       (ti_set_state task_completed ti)))
                       (t_id task) ts in
      ((ts', mkEnv (clock env1)
                   (mkPX (Resolved task result :: history (ext env1))
                         (te_state (ext env1)))),
       Fulfilled)
  | InFlight (inr error) =>
      let '(now, env1) := new_Date env in
      let ts' := alter (fun ti => ti_set_error (Some error)
                                    (ti_set_completedAt now
                                       (ti_set_state task_failed ti)))
                       (t_id task) ts in
      ((ts', mkEnv (clock env1)
                   (mkPX (Rejected task error :: history (ext env1))
                         (te_state (ext env1)))),
       RejectedWith error)
  end.

(** [tasksToExecute.map(task => this.executeTask(context, task))] *)
Fixpoint start_all (context : PhaseContext) (tasks : list Task)
         (st : gmap string TaskInstance * Env (PX E))
  : (gmap string TaskInstance * Env (PX E)) * list Launched :=
  match tasks with
  | [] => (st, [])
  | task :: rest =>
      let '(st1, l) := start_task context task st in
      let '(st2, ls) := start_all context rest st1 in
      (st2, l :: ls)
  end.

(** [await Promise.allSettled(executions)], the promises settling in the
    order in which they were created. *)
Fixpoint settle_all (tasks : list Task) (launched : list Launched)
         (st : gmap string TaskInstance * Env (PX E))
  : (gmap string TaskInstance * Env (PX E)) * list Settled :=
  match tasks, launched with
  | task :: rest, l :: ls =>
      let '(st1, r) := settle_task task l st in
      let '(st2, rs) := settle_all rest ls st1 in
      (st2, r :: rs)
  | _, _ => (st, [])
  end.

(** One step of [results.forEach((result, index) => ...)]. *)
Definition classify (task : Task) (result : Settled) (L : Loop E) : Loop E :=
  match result with
  | Fulfilled =>
      mkLoop (l_taskStates L) (l_env L)
             (set_add (t_id task) (executedTasks L)) (failedTasks L)
  | RejectedWith _ =>
      if t_required task then
        mkLoop (l_taskStates L) (l_env L)
               (executedTasks L) (set_add (t_id task) (failedTasks L))
      else
        mkLoop (alter (ti_set_state task_skipped) (t_id task) (l_taskStates L))
               (l_env L)
               (set_add (t_id task) (executedTasks L)) (failedTasks L)
  end.

Fixpoint classify_all (tasks : list Task) (results : list Settled) (L : Loop E)
  : Loop E :=
  match tasks, results with
  | task :: rest, r :: rs => classify_all rest rs (classify task r L)
  | _, _ => L
  end.

(** The body of the [while] loop once a non-empty frontier is known. *)
Definition round (context : PhaseContext) (frontier : list Task) (L : Loop E)
  : Loop E :=
  let '(st1, launched) := start_all context frontier (l_taskStates L, l_env L) in
  let '(st2, results) := settle_all frontier launched st1 in
  classify_all frontier results
               (mkLoop st2.1 st2.2 (executedTasks L) (failedTasks L)).

(** The [while] loop.  [None] is an exhausted iteration budget; the loop
    leaves normally ([inl]) or by the scheduling error ([inr]). *)
Fixpoint schedule (fuel : nat) (context : PhaseContext) (L : Loop E)
  : option (Loop E * option Err) :=
  match fuel with
  | 0 => None
  | S fuel' =>
      let tasks := p_tasks (pc_phase context) in
      if (List.length (executedTasks L) + List.length (failedTasks L) <? List.length tasks)%nat then
        let frontier := tasksToExecute tasks (executedTasks L) (failedTasks L) in
        if (List.length frontier =? 0)%nat then
          let pending := pendingTasks tasks (executedTasks L) (failedTasks L) in
          if (0 <? List.length pending)%nat then
            Some (L, Some (PhaseExecutionError
                             "Cannot execute remaining tasks due to unsatisfied dependencies"
                             (p_id (pc_phase context))
                             (Some (ids pending))
                             (Some (failedTasks L))))
          else Some (L, None)
        else schedule fuel' context (round context frontier L)
      else Some (L, None)
  end.

(** [validatePhaseCompletion] *)
Definition validatePhaseCompletion (phase : Phase) (ts : gmap string TaskInstance)
  : bool :=
  forallb (fun task =>
             match ts !! t_id task with
             | Some taskInstance => bool_decide (ti_state taskInstance = task_completed)
             | None => false
             end)
          (filter (fun task => t_required task) (p_tasks phase)).

(** [executePhase]: the new task states of the phase instance, the
    environment, and the error thrown, if any. *)
Definition executePhase (context : PhaseContext) (env : Env (PX E))
  : option (gmap string TaskInstance * Env (PX E) * option Err) :=
  let tasks := p_tasks (pc_phase context) in
  let ts0 := init_taskStates tasks (pi_taskStates (pc_phaseInstance context)) in
  match schedule (S (List.length tasks)) context (mkLoop ts0 env [] []) with
  | None => None
  | Some (L, Some e) => Some (l_taskStates L, l_env L, Some e)
  | Some (L, None) =>
      if (0 <? List.length (failedTasks L))%nat then
        Some (l_taskStates L, l_env L,
              Some (PhaseExecutionError
                      "Phase execution failed due to required task failures"
                      (p_id (pc_phase context)) None (Some (failedTasks L))))
      else if validatePhaseCompletion (pc_phase context) (l_taskStates L) then
        Some (l_taskStates L, l_env L, None)
      else
        Some (l_taskStates L, l_env L,
              Some (PhaseExecutionError "Phase completion validation failed"
                                        (p_id (pc_phase context)) None None))
  end.

(** [rollbackPhase] *)
Definition rollback_task (taskInstance : TaskInstance) : TaskInstance :=
  if decide (ti_state taskInstance = task_completed) then
    ti_set_error None (ti_set_result JUndefined (ti_set_state task_pending taskInstance))
  else taskInstance.

Definition rollbackPhase (context : PhaseContext) : PhaseInstance :=
  let phaseInstance := pi_set_state phase_rolled_back (pc_phaseInstance context) in
  pi_set_taskStates (rollback_task <$> pi_taskStates phaseInstance) phaseInstance.

End PhaseExecutor.
End PhaseExecutor.

(** ** StateMachine *)

(** One call of the logger: level, message, the bindings of the child
    logger together with the fields of the call, and the error if any. *)
Record LogEntry := mkLog {
  level : string;
  message : string;
  bindings : list (string * JSVal);
  logged_error : option Err
}.

(** The definition provider (IPhaseManager): read-only. *)
Record IPhaseManager := mkPhaseManager {
  getWorkflow : string -> option Workflow;
  getPhase : string -> string -> option Phase;
  getAvailableTransitions : string -> string -> list Transition
}.

Record TransitionContext := mkTransitionContext {
  xc_workflowInstance : WorkflowInstance;
  xc_fromPhase : Phase;
  xc_toPhase : Phase;
  xc_transition : Transition;
  xc_metadata : JSVal
}.

(** The injected collaborators.  They share the environment [Env X].  The
    validator answers true or false; the phase executor mutates the task
    states of the phase instance it is handed and resolves ([None]) or
    rejects ([Some e]). *)
Record ITransitionValidator (X : Type) := mkTransitionValidator {
  canTransition : TransitionContext -> Env X -> bool * Env X
}.
Arguments mkTransitionValidator {X} _.
Arguments canTransition {X} _ _ _.

Record IPhaseExecutor (X : Type) := mkPhaseExecutor {
  pe_executePhase : PhaseContext -> Env X -> gmap string TaskInstance * Env X * option Err
}.
Arguments mkPhaseExecutor {X} _.
Arguments pe_executePhase {X} _ _ _.

(** The store (IWorkflowPersistence): each operation resolves ([None]) or
    rejects ([Some e]). *)
Record IWorkflowPersistence (X : Type) := mkPersistence {
  saveWorkflowInstance : WorkflowInstance -> Env X -> Env X * option Err;
  updateWorkflowInstance : string -> WorkflowInstance -> Env X -> Env X * option Err
}.
Arguments mkPersistence {X} _ _.
Arguments saveWorkflowInstance {X} _ _ _.
Arguments updateWorkflowInstance {X} _ _ _ _.

Record IStateMachineConfig := mkConfig {
  enablePersistence : bool;
  enableRetries : bool;
  maxRetries : option nat;
  retryDelay : option nat
}.

(** The state of a [StateMachine] object and of its surroundings:
    [instances] is the private map and at the same time the store of the
    workflow instance objects; [uuids] counts the calls of [randomUUID]. *)
Record SM (X : Type) := mkSM {
  instances : gmap string WorkflowInstance;
  log : list LogEntry;
  uuids : nat;
  env : Env X
}.
Arguments mkSM {X} _ _ _ _.
Arguments instances {X} _.
Arguments log {X} _.
Arguments uuids {X} _.
Arguments env {X} _.

Inductive Outcome (A : Type) : Type :=
| Returned (a : A)
| Threw (e : Err)
| OutOfFuel.
Arguments Returned {A} _.
Arguments Threw {A} _.
Arguments OutOfFuel {A}.

Module StateMachine.
Section StateMachine.
Context {X : Type}.
Variable randomUUID : nat -> string.
Variable phaseManager : IPhaseManager.
Variable transitionValidator : ITransitionValidator X.
Variable phaseExecutor : IPhaseExecutor X.
Variable persistence : option (IWorkflowPersistence X).
Variable config : IStateMachineConfig.

(** Computations over the state that return, throw, or exhaust the
    recursion budget. *)
Definition M (A : Type) : Type := SM X -> Outcome A * SM X.

Definition ret {A} (a : A) : M A := fun s => (Returned a, s).
Definition throw {A} (e : Err) : M A := fun s => (Threw e, s).
Definition out_of_fuel {A} : M A := fun s => (OutOfFuel, s).
Definition bind {A B} (m : M A) (f : A -> M B) : M B :=
  fun s => match m s with
           | (Returned a, s') => f a s'
           | (Threw e, s') => (Threw e, s')
           | (OutOfFuel, s') => (OutOfFuel, s')
           end.
Definition try_catch {A} (m : M A) (handler : Err -> M A) : M A :=
  fun s => match m s with
           | (Threw e, s') => handler e s'
           | r => r
           end.

Notation "x <- m ;; k" := (bind m (fun x => k))
  (at level 62, m at next level, right associativity, only parsing).
Notation "m ;;; k" := (bind m (fun _ => k))
  (at level 62, right associativity, only parsing).

Definition gets {A} (f : SM X -> A) : M A := fun s => (Returned (f s), s).
Definition modify (f : SM X -> SM X) : M unit := fun s => (Returned tt, f s).

Definition required {A} (o : option A) (e : Err) : M A :=
  match o with
  | Some a => ret a
  | None => throw e
  end.

Definition log_info (msg : string) (fields : list (string * JSVal)) : M unit :=
  modify (fun s => mkSM (instances s) (mkLog "info" msg fields None :: log s)
                        (uuids s) (env s)).
Definition log_error (msg : string) (fields : list (string * JSVal)) (e : Err) : M unit :=
  modify (fun s => mkSM (instances s) (mkLog "error" msg fields (Some e) :: log s)
                        (uuids s) (env s)).

Definition now : M nat :=
  fun s => let '(d, env') := new_Date (env s) in
           (Returned d, mkSM (instances s) (log s) (uuids s) env').

(** Mutation of a workflow instance, and of one of its phase instances,
    through a reference. *)
Definition set_instances (m : gmap string WorkflowInstance) (s : SM X) : SM X :=
  mkSM m (log s) (uuids s) (env s).
Definition update_instance (instanceId : string)
           (f : WorkflowInstance -> WorkflowInstance) : M unit :=
  modify (fun s => set_instances (alter f instanceId (instances s)) s).
Definition update_phase (instanceId phaseId : string)
           (f : PhaseInstance -> PhaseInstance) : M unit :=
  update_instance instanceId
    (fun inst => wi_set_phaseStates (alter f phaseId (wi_phaseStates inst)) inst).

(** [getWorkflowInstance] *)
Definition getWorkflowInstance (instanceId : string) (s : SM X)
  : option WorkflowInstance :=
  instances s !! instanceId.

(** [await] of a call of the store: its rejection is thrown. *)
Definition await_store (call : Env X -> Env X * option Err) : M unit :=
  fun s =>
    let '(env', r) := call (env s) in
    let s' := mkSM (instances s) (log s) (uuids s) env' in
    match r with
    | None => (Returned tt, s')
    | Some e => (Threw e, s')
    end.

(** [updateInstance(instance)]: persists the object as it is now. *)
Definition updateInstance (instanceId : string) : M unit :=
  fun s =>
    match enablePersistence config, persistence, instances s !! instanceId with
    | true, Some p, Some inst =>
        await_store (updateWorkflowInstance p (wi_id inst) inst) s
    | _, _, _ => (Returned tt, s)
    end.

(** [completeWorkflow] *)
Definition completeWorkflow (instanceId : string) : M unit :=
  log_info "Completing workflow" [("instanceId", JStr instanceId)] ;;;
  o <- gets (getWorkflowInstance instanceId) ;;
  match o with
  | None => ret tt
  | Some _ =>
      d <- now ;;
      update_instance instanceId
        (fun inst => wi_set_completedAt d (wi_set_state completed inst)) ;;;
      updateInstance instanceId
  end.

(** [failWorkflow] *)
Definition failWorkflow (instanceId : string) (error : Err) : M unit :=
  log_error "Workflow failed" [("instanceId", JStr instanceId)] error ;;;
  o <- gets (getWorkflowInstance instanceId) ;;
  match o with
  | None => ret tt
  | Some _ =>
      d <- now ;;
      update_instance instanceId
        (fun inst => wi_set_error error
                       (wi_set_completedAt d (wi_set_state failed inst))) ;;;
      updateInstance instanceId
  end.

(** [await this.phaseExecutor.executePhase({...})] *)
Definition run_phaseExecutor (instanceId phaseId : string) (phase : Phase)
           (instance0 : WorkflowInstance) (phaseInstance0 : PhaseInstance) : M unit :=
  fun s =>
    let instance := default instance0 (instances s !! instanceId) in
    let phaseInstance :=
      default phaseInstance0 (wi_phaseStates instance !! phaseId) in
    let '(ts, env', r) :=
      pe_executePhase phaseExecutor
        (mkPhaseContext instance phase phaseInstance (wi_metadata instance)) (env s) in
    let s' :=
      mkSM (alter (fun inst =>
                     wi_set_phaseStates
                       (alter (pi_set_taskStates ts) phaseId (wi_phaseStates inst))
                       inst)
                  instanceId (instances s))
           (log s) (uuids s) env' in
    match r with
    | None => (Returned tt, s')
    | Some e => (Threw e, s')
    end.

(** [await this.transitionValidator.canTransition(transitionContext)] *)
Definition call_canTransition (transitionContext : TransitionContext) : M bool :=
  fun s =>
    let '(b, env') := canTransition transitionValidator transitionContext (env s) in
    (Returned b, mkSM (instances s) (log s) (uuids s) env').

(** [randomUUID()] *)
Definition call_randomUUID : M string :=
  fun s => (Returned (randomUUID (uuids s)),
            mkSM (instances s) (log s) (S (uuids s)) (env s)).

(** [if (enablePersistence && persistence) await persistence.saveWorkflowInstance(instance)] *)
Definition save_if_enabled (instance : WorkflowInstance) : M unit :=
  match enablePersistence config, persistence with
  | true, Some p => await_store (saveWorkflowInstance p instance)
  | _, _ => ret tt
  end.

(** [this.config.maxRetries || 3] *)
Definition maxRetries_or_3 : nat :=
  match maxRetries config with
  | Some 0 | None => 3
  | Some n => n
  end.

(** Is the next-phase id usable ([if (nextPhaseId)])? *)
Definition nonempty (s : string) : bool := negb (String.eqb s "").

(** [transitionToPhase] after its opening log call, with the private
    [executePhase] it ends in passed as [exec]. *)
Definition transition_steps (exec : string -> string -> M unit)
           (instanceId targetPhaseId : string) (context : JSVal) : M unit :=
  o <- gets (getWorkflowInstance instanceId) ;;
  instance <- required o (StateMachineError "Workflow instance not found"
                                            "INSTANCE_NOT_FOUND") ;;
  match wi_currentPhaseId instance with
  | None => throw (StateMachineError "No current phase" "NO_CURRENT_PHASE")
  | Some currentPhaseId =>
    if negb (nonempty currentPhaseId)
    then throw (StateMachineError "No current phase" "NO_CURRENT_PHASE")
    else
      workflow <- required (getWorkflow phaseManager (wi_workflowId instance))
                           (StateMachineError "Workflow not found" "WORKFLOW_NOT_FOUND") ;;
      match getPhase phaseManager (wi_workflowId instance) currentPhaseId,
            getPhase phaseManager (wi_workflowId instance) targetPhaseId with
      | Some fromPhase, Some toPhase =>
          let transitions :=
            getAvailableTransitions phaseManager (wi_workflowId instance) currentPhaseId in
          transition <-
            required (List.find (fun t => String.eqb (tr_to t) targetPhaseId) transitions)
                     (TransitionError "No valid transition found"
                                      currentPhaseId targetPhaseId) ;;
          ok <- call_canTransition
                  (mkTransitionContext instance fromPhase toPhase transition context) ;;
          if negb ok
          then throw (TransitionError "Transition validation failed"
                                      currentPhaseId targetPhaseId)
          else
            (match wi_phaseStates instance !! currentPhaseId with
             | Some _ =>
                 d <- now ;;
                 update_phase instanceId currentPhaseId
                   (fun p => pi_set_completedAt d (pi_set_state phase_completed p))
             | None => ret tt
             end) ;;;
            update_instance instanceId (wi_set_currentPhaseId targetPhaseId) ;;;
            updateInstance instanceId ;;;
            exec instanceId targetPhaseId
      | _, _ => throw (TransitionError "Invalid phase reference"
                                       currentPhaseId targetPhaseId)
      end
  end.

Definition transitionToPhase_with (exec : string -> string -> M unit)
           (instanceId targetPhaseId : string) (context : JSVal) : M unit :=
  log_info "Transitioning to phase"
           [("instanceId", JStr instanceId); ("targetPhaseId", JStr targetPhaseId)] ;;;
  transition_steps exec instanceId targetPhaseId context.

(** The rest of the [try] block of [executePhase], after the phase
    executor has resolved; [exec] is [executePhase] itself. *)
Definition on_phase_success (exec : string -> string -> M unit)
           (instanceId phaseId : string) (phase : Phase) (instance : WorkflowInstance)
  : M unit :=
  d <- now ;;
  update_phase instanceId phaseId
    (fun p => pi_set_completedAt d (pi_set_state phase_completed p)) ;;;
  updateInstance instanceId ;;;
  match p_nextPhases phase with
  | nextPhaseId :: _ =>
      if nonempty nextPhaseId then
        metadata <- gets (fun s => wi_metadata
                                     (default instance (instances s !! instanceId))) ;;
        transitionToPhase_with exec instanceId nextPhaseId (js_or metadata (JObj []))
      else ret tt
  | [] => completeWorkflow instanceId
  end.

(** The [catch] block of [executePhase]. *)
Definition on_phase_failure (exec : string -> string -> M unit)
           (instanceId phaseId : string) (instance : WorkflowInstance)
           (phaseInstance : PhaseInstance) (error : Err) : M unit :=
  log_error "Phase execution failed"
            [("instanceId", JStr instanceId); ("phaseId", JStr phaseId)] error ;;;
  d <- now ;;
  update_phase instanceId phaseId
    (fun p => pi_set_completedAt d (pi_set_error error (pi_set_state phase_failed p))) ;;;
  retryCount <- gets (fun s =>
    pi_retryCount
      (default phaseInstance
         (wi_phaseStates (default instance (instances s !! instanceId)) !! phaseId))) ;;
  if enableRetries config && (retryCount <? maxRetries_or_3)%nat then
    update_phase instanceId phaseId pi_incr_retryCount ;;;
    log_info "Retrying phase"
             [("instanceId", JStr instanceId); ("phaseId", JStr phaseId);
              ("retryCount", JNum (Z.of_nat (S retryCount)))] ;;;
    exec instanceId phaseId
  else
    updateInstance instanceId ;;;
    failWorkflow instanceId error.

(** The private [executePhase].  Every call consumes one unit of [fuel]. *)
Fixpoint executePhase (fuel : nat) (instanceId phaseId : string) : M unit :=
  match fuel with
  | 0 => out_of_fuel
  | S fuel' =>
    log_info "Executing phase"
             [("instanceId", JStr instanceId); ("phaseId", JStr phaseId)] ;;;
    o <- gets (getWorkflowInstance instanceId) ;;
    instance <- required o (StateMachineError "Workflow instance not found"
                                              "INSTANCE_NOT_FOUND") ;;
    phase <- required (getPhase phaseManager (wi_workflowId instance) phaseId)
                      (StateMachineError "Phase not found" "PHASE_NOT_FOUND") ;;
    phaseInstance <- required (wi_phaseStates instance !! phaseId)
                              (StateMachineError "Phase instance not found"
                                                 "PHASE_INSTANCE_NOT_FOUND") ;;
    d <- now ;;
    update_phase instanceId phaseId
      (fun p => pi_set_startedAt d (pi_set_state phase_active p)) ;;;
    updateInstance instanceId ;;;
    try_catch
      (run_phaseExecutor instanceId phaseId phase instance phaseInstance ;;;
       on_phase_success (executePhase fuel') instanceId phaseId phase instance)
      (on_phase_failure (executePhase fuel') instanceId phaseId instance phaseInstance)
  end.

(** [transitionToPhase] *)
Definition transitionToPhase (fuel : nat) (instanceId targetPhaseId : string)
           (context : JSVal) : M unit :=
  transitionToPhase_with (executePhase fuel) instanceId targetPhaseId context.

(** The phase instances created by [startWorkflow]. *)
Definition initial_phaseStates (phases : list Phase) : gmap string PhaseInstance :=
  foldl (fun m phase =>
           <[p_id phase := mkPhaseInstance (p_id phase) phase_pending ∅ None None None 0]> m)
        ∅ phases.

(** [startWorkflow]: the returned reference is the key of the instance. *)
Definition startWorkflow (fuel : nat) (workflowId : string) (initialData : JSVal)
  : M string :=
  log_info "Starting workflow" [("workflowId", JStr workflowId)] ;;;
  workflow <- required (getWorkflow phaseManager workflowId)
                       (StateMachineError "Workflow not found" "WORKFLOW_NOT_FOUND") ;;
  instanceId <- call_randomUUID ;;
  d <- now ;;
  let instance :=
    mkWorkflowInstance instanceId workflowId (w_name workflow) running
                       (Some (w_initialPhase workflow))
                       (initial_phaseStates (w_phases workflow))
                       d None None initialData in
  modify (fun s => set_instances (<[instanceId := instance]> (instances s)) s) ;;;
  save_if_enabled instance ;;;
  executePhase fuel instanceId (w_initialPhase workflow) ;;;
  ret instanceId.

(** [pauseWorkflow] *)
Definition pauseWorkflow (instanceId : string) : M unit :=
  log_info "Pausing workflow" [("instanceId", JStr instanceId)] ;;;
  o <- gets (getWorkflowInstance instanceId) ;;
  instance <- required o (StateMachineError "Workflow instance not found"
                                            "INSTANCE_NOT_FOUND") ;;
  if decide (wi_state instance = running) then
    update_instance instanceId (wi_set_state paused) ;;;
    updateInstance instanceId
  else throw (StateMachineError "Cannot pause workflow in current state" "INVALID_STATE").

(** [resumeWorkflow] *)
Definition resumeWorkflow (fuel : nat) (instanceId : string) : M unit :=
  log_info "Resuming workflow" [("instanceId", JStr instanceId)] ;;;
  o <- gets (getWorkflowInstance instanceId) ;;
  instance <- required o (StateMachineError "Workflow instance not found"
                                            "INSTANCE_NOT_FOUND") ;;
  if decide (wi_state instance = paused) then
    update_instance instanceId (wi_set_state running) ;;;
    updateInstance instanceId ;;;
    match wi_currentPhaseId instance with
    | Some currentPhaseId =>
        if nonempty currentPhaseId then executePhase fuel instanceId currentPhaseId
        else ret tt
    | None => ret tt
    end
  else throw (StateMachineError "Cannot resume workflow in current state" "INVALID_STATE").

(** [cancelWorkflow] *)
Definition cancelWorkflow (instanceId : string) (reason : option string) : M unit :=
  log_info "Cancelling workflow"
           [("instanceId", JStr instanceId);
            ("reason", match reason with Some r => JStr r | None => JUndefined end)] ;;;
  o <- gets (getWorkflowInstance instanceId) ;;
  _ <- required o (StateMachineError "Workflow instance not found"
                                     "INSTANCE_NOT_FOUND") ;;
  d <- now ;;
  update_instance instanceId
    (fun inst => wi_set_error (Error (str_or reason "Workflow cancelled"))
                   (wi_set_completedAt d (wi_set_state failed inst))) ;;;
  updateInstance instanceId.

End StateMachine.
End StateMachine.

(** ** The wiring of the container: PhaseExecutor as the machine's
    phase executor.  The scheduling loop always ends within its budget
    ([executePhase_returns] below), so the last arm is never taken. *)
Definition thePhaseExecutor {E : Type} (taskExecutor : ITaskExecutor E)
  : IPhaseExecutor (PX E) :=
  mkPhaseExecutor (fun context env =>
    match PhaseExecutor.executePhase taskExecutor context env with
    | Some r => r
    | None => (pi_taskStates (pc_phaseInstance context), env,
               Some (Error "scheduling budget exhausted"))
    end).

(** Test fixtures (tests/unit/PhaseExecutor.test.ts). *)
Module Fixtures.
Definition task (id type : string) (required : bool) (deps : option (list string)) : Task :=
  mkTask id type required deps None None None None.

Definition test_phase : Phase :=
  mkPhase "test-phase"
          [ task "task1" "manual" true None;
            task "task2" "automated" false (Some ["task1"]);
            task "task3" "review" true (Some ["task2"]) ]
          ["next-phase"] ["All tasks complete"] ["Test deliverable"].

Definition test_phaseInstance : PhaseInstance :=
  mkPhaseInstance "test-phase" phase_active ∅ None None None 0.

Definition test_instance : WorkflowInstance :=
  mkWorkflowInstance "test-instance" "test-workflow" "Test Workflow" running
                     (Some "test-phase") {[ "test-phase" := test_phaseInstance ]}
                     0 None None JUndefined.

Definition test_context (phase : Phase) : PhaseContext :=
  mkPhaseContext test_instance phase test_phaseInstance JUndefined.

Definition env0 {E} (e : E) : Env (PX E) := mkEnv 1 (mkPX [] e).
End Fixtures.


Module PEFixtures.
Import Fixtures.

(** A task executor that rejects the task with the given id and
    resolves every other task like the mock of the unit tests. *)
Definition rejecting (id : string) : ITaskExecutor unit :=
  mkTaskExecutor
    (fun context _ e =>
       if String.eqb (t_id (tc_task context)) id
       then (inr (Error "Task failed"), e)
       else (inl (JObj [("status", JStr "success")]), e))
    (fun _ e => (JBool true, e)).

(** Two tasks waiting for each other next to a task without
    dependencies. *)
Definition partly_cyclic_phase : Phase :=
  mkPhase "test-phase"
          [ task "x" "automated" true None;
            task "a" "manual" true (Some ["b"]);
            task "b" "manual" true (Some ["a"]) ]
          [] [] [].

(** The circular phase of the unit test. *)
Definition cyclic_phase : Phase :=
  mkPhase "test-phase"
          [ task "task1" "manual" true (Some ["task2"]);
            task "task2" "manual" true (Some ["task1"]) ]
          ["next-phase"] ["All tasks complete"] ["Test deliverable"].

(** One required approval task, and metadata that rejects it. *)
Definition approval_phase : Phase :=
  mkPhase "release" [ task "sign-off" "approval" true None ] [] [] [].

Definition rejecting_metadata : JSVal :=
  JObj [("approvalDecisions", JObj [("sign-off", JBool false)])].

Definition approval_context : PhaseContext :=
  mkPhaseContext test_instance approval_phase test_phaseInstance rejecting_metadata.

Definition rank (id : string) : nat :=
  if String.eqb id "task1" then 0
  else if String.eqb id "task2" then 1
  else 2.
End PEFixtures.

(** Test fixtures (tests/unit/StateMachine.test.ts). *)
Module SMFixtures.
Definition phase (id : string) (next : list string) : Phase :=
  mkPhase id [] next [] [].

Definition provider (workflow : Workflow) : IPhaseManager :=
  mkPhaseManager
    (fun _ => Some workflow)
    (fun _ phaseId => List.find (fun p => String.eqb (p_id p) phaseId) (w_phases workflow))
    (fun _ _ => w_transitions workflow).

Definition mockWorkflow : Workflow :=
  mkWorkflow "test-workflow" "Test Workflow" "phase1"
             [ phase "phase1" ["phase2"]; phase "phase2" [] ]
             [ mkTransition "phase1" "phase2" [] false ].


(** A workflow of one phase without successors. *)
Definition singleWorkflow : Workflow :=
  mkWorkflow "single" "Single" "only" [ phase "only" [] ] [].

(** A definition whose initial phase does not exist. *)
Definition danglingWorkflow : Workflow :=
  mkWorkflow "dangling" "Dangling" "missing" [ phase "present" [] ] [].

(** The mocks: the collaborators' state counts the calls of
    [phaseExecutor.executePhase]. *)
Definition validator (answer : bool) : ITransitionValidator nat :=
  mkTransitionValidator (fun _ env => (answer, env)).

Definition succeeding : IPhaseExecutor nat :=
  mkPhaseExecutor (fun context env =>
    (pi_taskStates (pc_phaseInstance context), mkEnv (clock env) (S (ext env)), None)).

Definition rejecting (e : Err) : IPhaseExecutor nat :=
  mkPhaseExecutor (fun context env =>
    (pi_taskStates (pc_phaseInstance context), mkEnv (clock env) (S (ext env)), Some e)).

(** The store of the unit tests, which resolves every call, and a store
    that rejects every call. *)
Definition mockPersistence : IWorkflowPersistence nat :=
  mkPersistence (fun _ env => (env, None)) (fun _ _ env => (env, None)).

Definition rejectingPersistence (e : Err) : IWorkflowPersistence nat :=
  mkPersistence (fun _ env => (env, Some e)) (fun _ _ env => (env, Some e)).

Definition uuid (n : nat) : string := "instance-" +:+ pretty n.

Definition config (retries : bool) (max : option nat) : IStateMachineConfig :=
  mkConfig false retries max (Some 10).

(** The configuration of the unit tests: persistence enabled. *)
Definition persisting (retries : bool) (max : option nat) : IStateMachineConfig :=
  mkConfig true retries max (Some 10).

Definition fresh : SM nat := mkSM ∅ [] 0 (mkEnv 0 0).

(** An instance of the mock workflow standing in its first phase. *)
Definition at_phase1 : WorkflowInstance :=
  mkWorkflowInstance "instance-0" "test-workflow" "Test Workflow" running
    (Some "phase1")
    {[ "phase1" := mkPhaseInstance "phase1" phase_active ∅ (Some 1) None None 0;
       "phase2" := mkPhaseInstance "phase2" phase_pending ∅ None None None 0 ]}
    0 None None JUndefined.

Definition started : SM nat := mkSM {[ "instance-0" := at_phase1 ]} [] 1 (mkEnv 2 0).

(** An instance of the one-phase workflow, before its phase runs. *)
Definition at_only : WorkflowInstance :=
  mkWorkflowInstance "instance-0" "single" "Single" running (Some "only")
    {[ "only" := mkPhaseInstance "only" phase_pending ∅ None None None 0 ]}
    0 None None JUndefined.

Definition single_started : SM nat := mkSM {[ "instance-0" := at_only ]} [] 1 (mkEnv 1 0).
End SMFixtures.



(** ** Vocabulary of the properties *)

(** How a launched execution settles. *)
Definition settled_of (l : Launched) : Settled :=
  match l with
  | InFlight (inl _) => Fulfilled
  | InFlight (inr e) => RejectedWith e
  | NoInstance e => RejectedWith e
  end.

Definition fulfilled (l : Launched) : bool :=
  match l with
  | InFlight (inl _) => true
  | _ => false
  end.

(** The event a settlement leaves in the history. *)
Definition settle_event (task : Task) (l : Launched) : option Event :=
  match l with
  | InFlight (inl r) => Some (Resolved task r)
  | InFlight (inr e) => Some (Rejected task e)
  | NoInstance _ => None
  end.

(** The mark a settlement leaves on the task instance. *)
Definition settled_as (l : Launched) (ti : TaskInstance) : Prop :=
  match l with
  | InFlight (inl r) => ti_state ti = task_completed /\ ti_result ti = r
  | InFlight (inr e) => ti_state ti = task_failed
  | NoInstance _ => True
  end.

(** A task instance is resolved for dependency purposes. *)
Definition terminal (ts : gmap string TaskInstance) (id : string) : Prop :=
  exists ti, ts !! id = Some ti /\
             (ti_state ti = task_completed \/ ti_state ti = task_skipped).

Definition started_in (evs : list Event) (id : string) : Prop :=
  exists task snapshot, Started task snapshot ∈ evs /\ t_id task = id.

(** Every start in the history (newest first) happened when each declared
    dependency was terminal and had itself been started earlier. *)
Definition start_ok (ev : Event) (earlier : list Event) : Prop :=
  match ev with
  | Started task snapshot =>
      forall d, d ∈ PhaseExecutor.dependencies task ->
                terminal snapshot d /\ started_in earlier d
  | _ => True
  end.

Fixpoint ordered (evs : list Event) : Prop :=
  match evs with
  | [] => True
  | ev :: earlier => start_ok ev earlier /\ ordered earlier
  end.

(** A set of task ids none of which can ever become ready: it contains a
    task of the phase, and every task in it waits for another one in it.
    The ids on a dependency cycle form such a set. *)
Definition blocked (tasks : list Task) (S : list string) : bool :=
  existsb (fun task => has S (t_id task)) tasks
  && forallb (fun task => implb (has S (t_id task))
                                (existsb (has S) (PhaseExecutor.dependencies task)))
             tasks.

(** The dependency graph is acyclic and closed: [rank] decreases along
    every dependency, and every dependency names a task of the phase. *)
Definition acyclic (rank : string -> nat) (tasks : list Task) : bool :=
  forallb (fun task =>
             forallb (fun d => (rank d <? rank (t_id task))%nat && has (ids tasks) d)
                     (PhaseExecutor.dependencies task))
          tasks.

(** The invariant of the scheduling loop: [evs] is what the loop has added
    to the history [h0] it started from. *)
Record Inv {E : Type} (tasks : list Task) (h0 evs : list Event) (L : Loop E) : Prop :=
  mkInv {
    inv_hist : history (ext (l_env L)) = (evs ++ h0)%list;
    inv_ids : forall x, x ∈ (executedTasks L ++ failedTasks L)%list -> x ∈ ids tasks;
    inv_nodup : NoDup (executedTasks L ++ failedTasks L)%list;
    inv_inst : forall t, t ∈ tasks -> is_Some (l_taskStates L !! t_id t);
    inv_resolved :
      forall t r, Resolved t r ∈ evs ->
        t ∈ tasks /\ t_id t ∈ executedTasks L /\
        exists ti, l_taskStates L !! t_id t = Some ti /\
                   ti_state ti = task_completed /\ ti_result ti = r;
    inv_rejected :
      forall t e, Rejected t e ∈ evs ->
        t ∈ tasks /\
        if t_required t then t_id t ∈ failedTasks L
        else t_id t ∈ executedTasks L /\
             exists ti, l_taskStates L !! t_id t = Some ti /\
                        ti_state ti = task_skipped;
    inv_started :
      forall t snap, Started t snap ∈ evs ->
        t ∈ tasks /\ t_id t ∈ (executedTasks L ++ failedTasks L)%list;
    inv_executed :
      forall t, t ∈ tasks -> t_id t ∈ executedTasks L ->
        (exists snap, Started t snap ∈ evs) /\
        ((exists r, Resolved t r ∈ evs) \/
         (exists e, Rejected t e ∈ evs /\ t_required t = false));
    inv_failed :
      forall t, t ∈ tasks -> t_id t ∈ failedTasks L ->
        (exists snap, Started t snap ∈ evs) /\ t_required t = true /\
        exists e, Rejected t e ∈ evs;
    inv_order : ordered evs
  }.

(** How the [while] loop of [executePhase] is left: by the scheduling error
    (empty frontier, unresolved tasks remain) or with every task resolved. *)
Definition loop_exit {E : Type} (context : PhaseContext) (L : Loop E)
           (thrown : option Err) : Prop :=
  let tasks := p_tasks (pc_phase context) in
  match thrown with
  | Some err =>
      PhaseExecutor.tasksToExecute tasks (executedTasks L) (failedTasks L) = [] /\
      PhaseExecutor.pendingTasks tasks (executedTasks L) (failedTasks L) <> [] /\
      err = PhaseExecutionError
              "Cannot execute remaining tasks due to unsatisfied dependencies"
              (p_id (pc_phase context))
              (Some (ids (PhaseExecutor.pendingTasks tasks (executedTasks L) (failedTasks L))))
              (Some (failedTasks L))
  | None =>
      forall t, t ∈ tasks -> t_id t ∈ executedTasks L \/ t_id t ∈ failedTasks L
  end.

(** What [executePhase] does after the loop. *)
Definition after_loop {E : Type} (context : PhaseContext) (L : Loop E)
           (thrown : option Err) : option Err :=
  match thrown with
  | Some err => Some err
  | None =>
      if (0 <? List.length (failedTasks L))%nat then
        Some (PhaseExecutionError "Phase execution failed due to required task failures"
                                  (p_id (pc_phase context)) None (Some (failedTasks L)))
      else if PhaseExecutor.validatePhaseCompletion (pc_phase context) (l_taskStates L)
      then None
      else Some (PhaseExecutionError "Phase completion validation failed"
                                     (p_id (pc_phase context)) None None)
  end.


Definition scheduling_error (context : PhaseContext) (pending failed : list string) : Err :=
  PhaseExecutionError "Cannot execute remaining tasks due to unsatisfied dependencies"
                      (p_id (pc_phase context)) (Some pending) (Some failed).

(** [executePhase] returns, and what it added to the history is [evs]. *)
Definition runs {E : Type} (te : ITaskExecutor E) (context : PhaseContext)
           (env : Env (PX E)) (ts' : gmap string TaskInstance) (env' : Env (PX E))
           (r : option Err) (evs : list Event) : Prop :=
  PhaseExecutor.executePhase te context env = Some (ts', env', r) /\
  history (ext env') = (evs ++ history (ext env))%list.

(** Statement of C2. *)
Definition starts_after_dependencies {E : Type} (te : ITaskExecutor E)
           (context : PhaseContext) (env : Env (PX E)) : Prop :=
  exists ts' env' r evs,
    runs te context env ts' env' r evs /\
    forall later task snapshot earlier,
      evs = (later ++ Started task snapshot :: earlier)%list ->
      forall d, d ∈ PhaseExecutor.dependencies task ->
                terminal snapshot d /\ started_in earlier d.


(** Statement of C4, as amended. *)
Definition deadlock_reported {E : Type} (te : ITaskExecutor E)
           (context : PhaseContext) (env : Env (PX E)) : Prop :=
  let tasks := p_tasks (pc_phase context) in
  (forall (L : Loop E) fuel,
     NoDup (executedTasks L ++ failedTasks L)%list ->
     (forall x, x ∈ (executedTasks L ++ failedTasks L)%list -> x ∈ ids tasks) ->
     PhaseExecutor.tasksToExecute tasks (executedTasks L) (failedTasks L) = [] ->
     PhaseExecutor.pendingTasks tasks (executedTasks L) (failedTasks L) <> [] ->
     PhaseExecutor.schedule te (S fuel) context L
     = Some (L, Some (scheduling_error context
                        (ids (PhaseExecutor.pendingTasks tasks (executedTasks L)
                                                         (failedTasks L)))
                        (failedTasks L)))) /\
  exists ts' env' r evs,
    runs te context env ts' env' r evs /\
    ((exists t, t ∈ tasks /\ forall snapshot, Started t snapshot ∉ evs) ->
     exists pending failed,
       r = Some (scheduling_error context pending failed) /\
       (forall x, x ∈ pending <->
                  exists t, t ∈ tasks /\ t_id t = x /\
                            forall snapshot, Started t snapshot ∉ evs) /\
       (forall x, x ∈ failed <->
                  exists t e, Rejected t e ∈ evs /\ t_required t = true /\ t_id t = x)) /\
    (forall S, blocked tasks S = true ->
       (forall t snapshot, Started t snapshot ∈ evs -> t_id t ∉ S) /\
       (exists pending failed,
          r = Some (scheduling_error context pending failed) /\
          forall t, t ∈ tasks -> t_id t ∈ S -> t_id t ∈ pending) /\
       ((forall t, t ∈ tasks -> t_id t ∈ S) -> evs = [])).


(** The shape check as the specification words it: [automated] and the
    default arm accept [success] and [completed]. *)
Definition spec_validateTaskResult (type : string) (result : JSVal) : bool :=
  if negb (truthy result) then false
  else
    let status := get result "status" in
    if String.eqb type "manual" then
      is_str status "success" && truthy (get result "completedBy")
    else if String.eqb type "review" then
      is_str status "approved" || is_str status "passed"
    else if String.eqb type "approval" then is_str status "approved"
    else is_str status "success" || is_str status "completed".

(** The shape check as amended, for the task types other than [manual]:
    [automated] accepts [success] only. *)
Definition amended_validateTaskResult (type : string) (result : JSVal) : bool :=
  if negb (truthy result) then false
  else
    let status := get result "status" in
    if String.eqb type "automated" then is_str status "success"
    else if String.eqb type "review" then
      is_str status "approved" || is_str status "passed"
    else if String.eqb type "approval" then is_str status "approved"
    else is_str status "success" || is_str status "completed".

(** The store accepts every write of the machine: persistence is switched
    off, there is no store, or no call of the store rejects. *)
Definition store_resolves {X : Type} (persistence : option (IWorkflowPersistence X))
           (config : IStateMachineConfig) : Prop :=
  enablePersistence config = true ->
  forall p, persistence = Some p ->
    (forall instance env, (saveWorkflowInstance p instance env).2 = None) /\
    (forall id instance env, (updateWorkflowInstance p id instance env).2 = None).

(** The store, in use, rejects some write with the error [e]. *)
Definition store_rejects_with {X : Type} (persistence : option (IWorkflowPersistence X))
           (config : IStateMachineConfig) (e : Err) : Prop :=
  enablePersistence config = true /\
  exists p, persistence = Some p /\
    ((exists instance env, (saveWorkflowInstance p instance env).2 = Some e) \/
     (exists id instance env, (updateWorkflowInstance p id instance env).2 = Some e)).

(** What [updateInstance] and [startWorkflow] ask of the store for
    [instance]: the environment afterwards and the rejection, if any. *)
Definition store_update {X : Type} (persistence : option (IWorkflowPersistence X))
           (config : IStateMachineConfig) (instance : WorkflowInstance) (env : Env X)
  : Env X * option Err :=
  match enablePersistence config, persistence with
  | true, Some p => updateWorkflowInstance p (wi_id instance) instance env
  | _, _ => (env, None)
  end.

Definition store_save {X : Type} (persistence : option (IWorkflowPersistence X))
           (config : IStateMachineConfig) (instance : WorkflowInstance) (env : Env X)
  : Env X * option Err :=
  match enablePersistence config, persistence with
  | true, Some p => saveWorkflowInstance p instance env
  | _, _ => (env, None)
  end.

(** How an awaited call of the store ends. *)
Definition settled (r : option Err) : Outcome unit :=
  match r with
  | None => Returned tt
  | Some e => Threw e
  end.

(** An update of a workflow instance that keeps its identity, its
    definition and the set of its phase instances. *)
Definition frame_safe (f : WorkflowInstance -> WorkflowInstance) : Prop :=
  forall i, wi_id (f i) = wi_id i /\
            wi_workflowId (f i) = wi_workflowId i /\
            dom (wi_phaseStates (f i)) = dom (wi_phaseStates i).

(** [m] relates the state it starts in to the state it ends in by [R],
    however it ends. *)
Definition preserves {X A : Type} (R : SM X -> SM X -> Prop) (m : SM X -> Outcome A * SM X)
  : Prop :=
  forall s r s', m s = (r, s') -> R s s'.


(** Every workflow instance that exists stays, with its definition and
    with the same phase ids. *)
Definition instances_kept {X : Type} (s s' : SM X) : Prop :=
  forall iid i, instances s !! iid = Some i ->
    exists i', instances s' !! iid = Some i' /\
               wi_workflowId i' = wi_workflowId i /\
               dom (wi_phaseStates i') = dom (wi_phaseStates i).

(** Statement of C7: both failures of [transitionToPhase] that concern the
    transition itself throw a [TransitionError] and leave the store of
    workflow instances as it was. *)
Definition failed_transition_frame {X : Type}
           (phaseManager : IPhaseManager) (transitionValidator : ITransitionValidator X)
           (phaseExecutor : IPhaseExecutor X)
           (persistence : option (IWorkflowPersistence X)) (config : IStateMachineConfig)
           (fuel : nat) (s : SM X) (instanceId targetPhaseId : string) (context : JSVal)
           (instance : WorkflowInstance) (currentPhaseId : string)
           (fromPhase toPhase : Phase) : Prop :=
  let run :=
    StateMachine.transitionToPhase phaseManager transitionValidator phaseExecutor
      persistence config fuel instanceId targetPhaseId context s in
  let found :=
    List.find (fun t => String.eqb (tr_to t) targetPhaseId)
              (getAvailableTransitions phaseManager (wi_workflowId instance)
                                       currentPhaseId) in
  (found = None ->
   run.1 = Threw (TransitionError "No valid transition found" currentPhaseId targetPhaseId) /\
   instances run.2 = instances s) /\
  (forall transition,
     found = Some transition ->
     (canTransition transitionValidator
        (mkTransitionContext instance fromPhase toPhase transition context) (env s)).1
     = false ->
     run.1 = Threw (TransitionError "Transition validation failed"
                                    currentPhaseId targetPhaseId) /\
     instances run.2 = instances s).

(** Number of times the private [executePhase] was entered, read off the
    log. *)
Definition is_execution (entry : LogEntry) : bool :=
  String.eqb (message entry) "Executing phase".

Definition executions (l : list LogEntry) : nat :=
  List.length (List.filter is_execution l).

(** [Q] holds of the outcome and the final state of [m] started in [s]. *)
Definition wp {X A : Type} (m : SM X -> Outcome A * SM X)
           (Q : Outcome A -> SM X -> Prop) (s : SM X) : Prop :=
  Q (m s).1 (m s).2.

Definition executing_entry (instanceId phaseId : string) : LogEntry :=
  mkLog "info" "Executing phase"
        [("instanceId", JStr instanceId); ("phaseId", JStr phaseId)] None.

Definition transitioning_entry (instanceId targetPhaseId : string) : LogEntry :=
  mkLog "info" "Transitioning to phase"
        [("instanceId", JStr instanceId); ("targetPhaseId", JStr targetPhaseId)] None.



(** The phase instance [startWorkflow] creates for a phase id. *)
Definition pending_phase (phaseId : string) : PhaseInstance :=
  mkPhaseInstance phaseId phase_pending ∅ None None None 0.

Definition starting_entry (workflowId : string) : LogEntry :=
  mkLog "info" "Starting workflow" [("workflowId", JStr workflowId)] None.

(** Statement of C1, as amended. *)
Definition startWorkflow_behaviour {X : Type} (randomUUID : nat -> string)
           (phaseManager : IPhaseManager) (transitionValidator : ITransitionValidator X)
           (phaseExecutor : IPhaseExecutor X)
           (persistence : option (IWorkflowPersistence X)) (config : IStateMachineConfig)
           (fuel : nat) (workflowId : string) (initialData : JSVal) (s : SM X) : Prop :=
  let run :=
    StateMachine.startWorkflow randomUUID phaseManager transitionValidator phaseExecutor
      persistence config fuel workflowId initialData s in
  match getWorkflow phaseManager workflowId with
  | None =>
      run.1 = Threw (StateMachineError "Workflow not found" "WORKFLOW_NOT_FOUND") /\
      instances run.2 = instances s
  | Some workflow =>
      let instanceId := randomUUID (uuids s) in
      let initial := w_initialPhase workflow in
      let phaseIds := p_id <$> w_phases workflow in
      let created :=
        mkWorkflowInstance instanceId workflowId (w_name workflow) running (Some initial)
          (StateMachine.initial_phaseStates (w_phases workflow))
          (clock (env s)) None None initialData in
      (* the store is asked to save the created instance *)
      let saved :=
        store_save persistence config created
                   (mkEnv (S (clock (env s))) (ext (env s))) in
      let s0 :=
        mkSM (<[instanceId := created]> (instances s))
             (starting_entry workflowId :: log s) (S (uuids s)) saved.1 in
      (* one pending phase instance per phase of the definition *)
      (forall pid,
         wi_phaseStates created !! pid
         = if bool_decide (pid ∈ phaseIds) then Some (pending_phase pid) else None) /\
      (* a rejection of the store fails the call before the phase runs *)
      (forall e, saved.2 = Some e -> run = (Threw e, s0)) /\
      (* otherwise the initial phase is executed on the created instance
         before the return *)
      (saved.2 = None ->
       let exec :=
         StateMachine.executePhase phaseManager transitionValidator phaseExecutor
           persistence config fuel instanceId initial s0 in
       run = (match exec.1 with
              | Returned _ => Returned instanceId
              | Threw e => Threw e
              | OutOfFuel => OutOfFuel
              end, exec.2)) /\
      (* what is returned is the instance as the execution left it *)
      (forall returned,
         run.1 = Returned returned ->
         returned = instanceId /\
         exists instance,
           instances run.2 !! instanceId = Some instance /\
           wi_workflowId instance = workflowId /\
           forall pid, is_Some (wi_phaseStates instance !! pid) <-> pid ∈ phaseIds) /\
      (* an initial phase that cannot be resolved *)
      ((0 < fuel)%nat -> saved.2 = None ->
       getPhase phaseManager workflowId initial = None ->
       run.1 = Threw (StateMachineError "Phase not found" "PHASE_NOT_FOUND")) /\
      ((0 < fuel)%nat -> saved.2 = None ->
       is_Some (getPhase phaseManager workflowId initial) ->
       initial ∉ phaseIds ->
       run.1 = Threw (StateMachineError "Phase instance not found"
                                        "PHASE_INSTANCE_NOT_FOUND")) /\
      (* an initial phase without next phases: the call returns *)
      (forall phase,
         store_resolves persistence config ->
         getPhase phaseManager workflowId initial = Some phase ->
         initial ∈ phaseIds -> p_nextPhases phase = [] ->
         (StateMachine.maxRetries_or_3 config < fuel)%nat ->
         run.1 = Returned instanceId /\
         exists instance phaseInstance,
           instances run.2 !! instanceId = Some instance /\
           wi_phaseStates instance !! initial = Some phaseInstance /\
           ((pi_state phaseInstance = phase_completed /\ wi_state instance = completed) \/
            (pi_state phaseInstance = phase_failed /\ wi_state instance = failed)))
  end.

(** The number of retries still to come for a phase instance. *)
Definition retries_left (config : IStateMachineConfig) (pinst : PhaseInstance) : nat :=
  if enableRetries config
  then StateMachine.maxRetries_or_3 config - pi_retryCount pinst
  else 0.
(** ** Vocabulary of the further properties *)

(** The task context [validateTaskResult] sees once the result of
    [executeTask] has been stored in the task instance. *)
Definition with_result (context : TaskContext) (result : JSVal) : TaskContext :=
  mkTaskContext (tc_phaseContext context) (tc_task context)
                (ti_set_result result (tc_taskInstance context))
                (tc_metadata context).

(** The metadata fields that [TaskExecutor] reads have their declared
    types: the three id lists are arrays when present
    ([string[] | undefined]) and [approvalDecisions] is a record, not an
    array. *)
Definition array_or_absent (v : JSVal) : bool :=
  match v with
  | JUndefined | JNull | JArr _ => true
  | _ => false
  end.

Definition not_array (v : JSVal) : bool :=
  match v with
  | JArr _ => false
  | _ => true
  end.

Definition typed_metadata (metadata : JSVal) : bool :=
  array_or_absent (get metadata "completedTasks")
  && array_or_absent (get metadata "approvedReviews")
  && array_or_absent (get metadata "approvedTasks")
  && not_array (get metadata "approvalDecisions").

(** The approval of the task is refused: the task is an approval, nothing
    pre-approves it, and the decision recorded for it is [false]. *)
Definition approval_refused (context : TaskContext) : bool :=
  let metadata := tc_metadata context in
  let id := t_id (tc_task context) in
  String.eqb (t_type (tc_task context)) "approval"
  && negb (TaskExecutor.is_true (get metadata "autoApprove"))
  && negb (includes (get metadata "approvedTasks") id)
  && negb (TaskExecutor.not_false (get (get metadata "approvalDecisions") id)).

(** The loop variables [executePhase] starts from. *)
Definition initial_loop {E : Type} (context : PhaseContext) (env : Env (PX E)) : Loop E :=
  mkLoop (PhaseExecutor.init_taskStates (p_tasks (pc_phase context))
                                        (pi_taskStates (pc_phaseInstance context)))
         env [] [].






(** What no step of [executePhase] changes in a task instance. *)
Definition same_identity (a b : TaskInstance) : Prop :=
  ti_taskId b = ti_taskId a /\ ti_retryCount b = ti_retryCount a.

(** The task-state map [ts'] has the keys of [ts]; its instances have the
    identity of those of [ts], and are those of [ts] outside of [S]. *)
Definition evolves (S : list string) (ts ts' : gmap string TaskInstance) : Prop :=
  forall k,
    match ts !! k, ts' !! k with
    | Some a, Some b => same_identity a b /\ (k ∉ S -> b = a)
    | None, None => True
    | _, _ => False
    end.

(** The task instance created for a task that has none. *)
Definition fresh_task (id : string) : TaskInstance :=
  mkTaskInstance id task_pending None None JUndefined None 0.

(** How the task states that [executePhase] leaves behind relate to the
    ones it found. *)
Definition task_states_frame {E : Type} (te : ITaskExecutor E)
           (context : PhaseContext) (env : Env (PX E)) : Prop :=
  let tasks := p_tasks (pc_phase context) in
  let ts := pi_taskStates (pc_phaseInstance context) in
  exists ts' env' r,
    PhaseExecutor.executePhase te context env = Some (ts', env', r) /\
    forall k,
      match ts !! k with
      | Some a =>
          exists b, ts' !! k = Some b /\ same_identity a b /\ (k ∉ ids tasks -> b = a)
      | None =>
          if bool_decide (k ∈ ids tasks)
          then exists b, ts' !! k = Some b /\ same_identity (fresh_task k) b
          else ts' !! k = None
      end.

(** The ids of the tasks handed to the task executor, and of the tasks
    whose execution settled, in a history. *)
Definition started_id (ev : Event) : option string :=
  match ev with
  | Started t _ => Some (t_id t)
  | _ => None
  end.

Definition settled_id (ev : Event) : option string :=
  match ev with
  | Started _ _ => None
  | Resolved t _ | Rejected t _ => Some (t_id t)
  end.

Definition started_ids (evs : list Event) : list string := omap started_id evs.
Definition settled_ids (evs : list Event) : list string := omap settled_id evs.

(** A second invariant of the scheduling loop, on top of [Inv]: [ts0] is
    the task-state map the loop started from. *)
Record Inv2 {E : Type} (ts0 : gmap string TaskInstance) (evs : list Event) (L : Loop E)
  : Prop := mkInv2 {
    inv_untouched :
      forall k, k ∉ (executedTasks L ++ failedTasks L)%list ->
                l_taskStates L !! k = ts0 !! k;
    inv_rejected_mark :
      forall t e, Rejected t e ∈ evs ->
        exists ti, l_taskStates L !! t_id t = Some ti /\
                   ti_error ti = Some e /\
                   ti_state ti = (if t_required t then task_failed else task_skipped);
    inv_started_once : NoDup (started_ids evs);
    inv_settled_once : NoDup (settled_ids evs)
  }.


(** No task is executed twice. *)
Definition executed_once {E : Type} (te : ITaskExecutor E)
           (context : PhaseContext) (env : Env (PX E)) : Prop :=
  let tasks := p_tasks (pc_phase context) in
  exists ts' env' r evs,
    runs te context env ts' env' r evs /\
    NoDup (started_ids evs) /\ NoDup (settled_ids evs) /\
    (forall x, x ∈ started_ids evs -> x ∈ ids tasks) /\
    (forall x, x ∈ settled_ids evs <-> x ∈ started_ids evs).

(** Where a settlement in the history comes from: the call of
    [taskExecutor.executeTask] for that task, with the metadata of the
    phase context, that produced it. *)
Definition from_executor {E : Type} (te : ITaskExecutor E) (context : PhaseContext)
           (ev : Event) : Prop :=
  match ev with
  | Started _ _ => True
  | Resolved t result =>
      exists tc now st, tc_task tc = t /\ tc_metadata tc = pc_metadata context /\
                        (te_executeTask te tc now st).1 = inl result
  | Rejected t e =>
      exists tc now st, tc_task tc = t /\ tc_metadata tc = pc_metadata context /\
                        (te_executeTask te tc now st).1 = inr e
  end.

Definition launched_by {E : Type} (te : ITaskExecutor E) (context : PhaseContext)
           (t : Task) (l : Launched) : Prop :=
  match l with
  | InFlight o =>
      exists tc now st, tc_task tc = t /\ tc_metadata tc = pc_metadata context /\
                        (te_executeTask te tc now st).1 = o
  | NoInstance _ => True
  end.

(** With the shipped task executor every task of the phase ends completed
    and the phase succeeds. *)
Definition shipped_phase_succeeds (context : PhaseContext) (env : Env (PX unit)) : Prop :=
  exists ts' env',
    PhaseExecutor.executePhase theTaskExecutor context env = Some (ts', env', None) /\
    forall t, t ∈ p_tasks (pc_phase context) ->
      exists ti tc now,
        ts' !! t_id t = Some ti /\ ti_state ti = task_completed /\
        tc_task tc = t /\ tc_metadata tc = pc_metadata context /\
        ti_result ti = TaskExecutor.executeTask tc now.

(** ** StateMachine: vocabulary of the further properties *)

(** The workflow instance has reached an end state. *)
Definition terminal_workflow {X : Type} (s : SM X) (instanceId : string) : Prop :=
  exists instance,
    instances s !! instanceId = Some instance /\
    (wi_state instance = completed \/ wi_state instance = failed).

(** No phase of the provider lists the empty string as its first next
    phase (the one next-phase id that the machine does not follow). *)
Definition usable_next_phases (phaseManager : IPhaseManager) : Prop :=
  forall workflowId phaseId phase next rest,
    getPhase phaseManager workflowId phaseId = Some phase ->
    p_nextPhases phase = next :: rest ->
    StateMachine.nonempty next = true.

(** The three checks the private [executePhase] starts with all pass. *)
Definition guards_pass {X : Type} (phaseManager : IPhaseManager) (s : SM X)
           (instanceId phaseId : string) : Prop :=
  exists instance phase phaseInstance,
    instances s !! instanceId = Some instance /\
    getPhase phaseManager (wi_workflowId instance) phaseId = Some phase /\
    wi_phaseStates instance !! phaseId = Some phaseInstance.

(** The error of the first of these checks that fails. *)
Definition guard_error {X : Type} (phaseManager : IPhaseManager) (s : SM X)
           (instanceId phaseId : string) : option Err :=
  match instances s !! instanceId with
  | None => Some (StateMachineError "Workflow instance not found" "INSTANCE_NOT_FOUND")
  | Some instance =>
      match getPhase phaseManager (wi_workflowId instance) phaseId with
      | None => Some (StateMachineError "Phase not found" "PHASE_NOT_FOUND")
      | Some _ =>
          match wi_phaseStates instance !! phaseId with
          | None => Some (StateMachineError "Phase instance not found"
                                            "PHASE_INSTANCE_NOT_FOUND")
          | Some _ => None
          end
      end
  end.

Definition invalid_state (message : string) : Err :=
  StateMachineError message "INVALID_STATE".

Definition instance_not_found : Err :=
  StateMachineError "Workflow instance not found" "INSTANCE_NOT_FOUND".

Definition pausing_entry (instanceId : string) : LogEntry :=
  mkLog "info" "Pausing workflow" [("instanceId", JStr instanceId)] None.

Definition resuming_entry (instanceId : string) : LogEntry :=
  mkLog "info" "Resuming workflow" [("instanceId", JStr instanceId)] None.

(** The error [cancelWorkflow] records: [new Error(reason || 'Workflow cancelled')]. *)
Definition cancellation (reason : option string) : Err :=
  Error (str_or reason "Workflow cancelled").

(** What [pauseWorkflow] does.  A running instance is paused and the store
    is asked to update it: the call ends as that call of the store does,
    with the instance paused either way. *)
Definition pause_behaviour {X : Type} (persistence : option (IWorkflowPersistence X))
           (config : IStateMachineConfig) (instanceId : string) (s : SM X) : Prop :=
  let run := StateMachine.pauseWorkflow persistence config instanceId s in
  log run.2 = pausing_entry instanceId :: log s /\
  uuids run.2 = uuids s /\
  (forall k, k <> instanceId -> instances run.2 !! k = instances s !! k) /\
  match instances s !! instanceId with
  | None =>
      run.1 = Threw instance_not_found /\ instances run.2 = instances s /\ env run.2 = env s
  | Some instance =>
      if decide (wi_state instance = running)
      then
        let stored :=
          store_update persistence config (wi_set_state paused instance) (env s) in
        run.1 = settled stored.2 /\
        instances run.2 !! instanceId = Some (wi_set_state paused instance) /\
        env run.2 = stored.1
      else run.1 = Threw (invalid_state "Cannot pause workflow in current state") /\
           instances run.2 = instances s /\ env run.2 = env s
  end.

(** What [resumeWorkflow] does.  A paused instance is set running and the
    store is asked to update it; when the store rejects, the call throws
    its error and the phase is not executed; otherwise the call goes on as
    the execution of the current phase. *)
Definition resume_behaviour {X : Type}
           (phaseManager : IPhaseManager) (transitionValidator : ITransitionValidator X)
           (phaseExecutor : IPhaseExecutor X)
           (persistence : option (IWorkflowPersistence X)) (config : IStateMachineConfig)
           (fuel : nat) (instanceId : string) (s : SM X) : Prop :=
  let run :=
    StateMachine.resumeWorkflow phaseManager transitionValidator phaseExecutor persistence
      config fuel instanceId s in
  match instances s !! instanceId with
  | None =>
      run.1 = Threw instance_not_found /\ instances run.2 = instances s /\ env run.2 = env s
  | Some instance =>
      if decide (wi_state instance = paused)
      then
        let stored :=
          store_update persistence config (wi_set_state running instance) (env s) in
        let resumed :=
          mkSM (<[instanceId := wi_set_state running instance]> (instances s))
               (resuming_entry instanceId :: log s) (uuids s) stored.1 in
        match stored.2 with
        | Some e => run = (Threw e, resumed)
        | None =>
            match wi_currentPhaseId instance with
            | Some currentPhaseId =>
                if StateMachine.nonempty currentPhaseId
                then run = StateMachine.executePhase phaseManager transitionValidator
                             phaseExecutor persistence config fuel instanceId
                             currentPhaseId resumed
                else run = (Returned tt, resumed)
            | None => run = (Returned tt, resumed)
            end
        end
      else run.1 = Threw (invalid_state "Cannot resume workflow in current state") /\
           instances run.2 = instances s /\ env run.2 = env s
  end.

(** What [cancelWorkflow] does.  Every known instance is failed, whatever
    its state, and the store is asked to update it: the call ends as that
    call of the store does, with the instance cancelled either way. *)
Definition cancel_behaviour {X : Type} (persistence : option (IWorkflowPersistence X))
           (config : IStateMachineConfig) (fuel : nat)
           (phaseManager : IPhaseManager) (transitionValidator : ITransitionValidator X)
           (phaseExecutor : IPhaseExecutor X)
           (instanceId : string) (reason : option string) (s : SM X) : Prop :=
  let run := StateMachine.cancelWorkflow persistence config instanceId reason s in
  (forall k, k <> instanceId -> instances run.2 !! k = instances s !! k) /\
  match instances s !! instanceId with
  | None =>
      run.1 = Threw instance_not_found /\ instances run.2 = instances s /\ env run.2 = env s
  | Some instance =>
      let cancelled :=
        mkWorkflowInstance (wi_id instance) (wi_workflowId instance)
          (wi_name instance) failed (wi_currentPhaseId instance)
          (wi_phaseStates instance) (wi_startedAt instance)
          (Some (clock (env s))) (Some (cancellation reason))
          (wi_metadata instance) in
      let stored :=
        store_update persistence config cancelled
                     (mkEnv (S (clock (env s))) (ext (env s))) in
      run.1 = settled stored.2 /\
      instances run.2 !! instanceId = Some cancelled /\
      (StateMachine.pauseWorkflow persistence config instanceId run.2).1
      = Threw (invalid_state "Cannot pause workflow in current state") /\
      (StateMachine.resumeWorkflow phaseManager transitionValidator phaseExecutor
         persistence config fuel instanceId run.2).1
      = Threw (invalid_state "Cannot resume workflow in current state")
  end.

(** How a phase that cannot succeed ends: [left] executions after the
    first one, then the workflow fails with [error]. *)
Definition exhausts_retries {X : Type} (config : IStateMachineConfig)
           (instanceId phaseId : string) (phaseInstance : PhaseInstance) (error : Err)
           (s : SM X) (run : Outcome unit * SM X) : Prop :=
  let left := retries_left config phaseInstance in
  run.1 = Returned tt /\
  executions (log run.2) = (executions (log s) + 1 + left)%nat /\
  exists instance' phaseInstance',
    instances run.2 !! instanceId = Some instance' /\
    wi_state instance' = failed /\ wi_error instance' = Some error /\
    wi_phaseStates instance' !! phaseId = Some phaseInstance' /\
    pi_state phaseInstance' = phase_failed /\ pi_error phaseInstance' = Some error /\
    pi_retryCount phaseInstance' = (pi_retryCount phaseInstance + left)%nat.

Definition validation_failed (fromPhase toPhase : string) : Err :=
  TransitionError "Transition validation failed" fromPhase toPhase.

(** ** The machine as its callers drive it *)

(** The public operations, each awaited before the next is issued. *)
Inductive Call : Type :=
| StartWorkflow (workflowId : string) (initialData : JSVal)
| PauseWorkflow (instanceId : string)
| ResumeWorkflow (instanceId : string)
| CancelWorkflow (instanceId : string) (reason : option string)
| TransitionToPhase (instanceId targetPhaseId : string) (context : JSVal).

Section Calls.
Context {X : Type}.
Variable randomUUID : nat -> string.
Variable phaseManager : IPhaseManager.
Variable transitionValidator : ITransitionValidator X.
Variable phaseExecutor : IPhaseExecutor X.
Variable persistence : option (IWorkflowPersistence X).
Variable config : IStateMachineConfig.

(** The state one call leaves behind, whether it returns or throws;
    [fuel] bounds the recursion of the private [executePhase]. *)
Definition perform (fuel : nat) (call : Call) (s : SM X) : SM X :=
  match call with
  | StartWorkflow workflowId initialData =>
      (StateMachine.startWorkflow randomUUID phaseManager transitionValidator
         phaseExecutor persistence config fuel workflowId initialData s).2
  | PauseWorkflow instanceId =>
      (StateMachine.pauseWorkflow persistence config instanceId s).2
  | ResumeWorkflow instanceId =>
      (StateMachine.resumeWorkflow phaseManager transitionValidator phaseExecutor
         persistence config fuel instanceId s).2
  | CancelWorkflow instanceId reason =>
      (StateMachine.cancelWorkflow persistence config instanceId reason s).2
  | TransitionToPhase instanceId targetPhaseId context =>
      (StateMachine.transitionToPhase phaseManager transitionValidator phaseExecutor
         persistence config fuel instanceId targetPhaseId context s).2
  end.

(** A fresh machine driven through a series of calls. *)
Definition drive (env0 : Env X) (calls : list (nat * Call)) : SM X :=
  foldl (fun s fc => perform fc.1 fc.2 s) (mkSM ∅ [] 0 env0) calls.

(** What holds of every workflow instance the machine stores. *)
Definition well_kept (s : SM X) : Prop :=
  forall instanceId instance,
    instances s !! instanceId = Some instance ->
    wi_id instance = instanceId /\
    (exists n, (n < uuids s)%nat /\ instanceId = randomUUID n) /\
    exists workflow,
      getWorkflow phaseManager (wi_workflowId instance) = Some workflow /\
      forall phaseId,
        is_Some (wi_phaseStates instance !! phaseId) <->
        phaseId ∈ p_id <$> w_phases workflow.
End Calls.

(** Two states of the machine hold the same workflow instances, each with
    its identity, its definition and its set of phase instances. *)
Definition same_shape {X : Type} (s s' : SM X) : Prop :=
  uuids s' = uuids s /\
  (forall k, is_Some (instances s' !! k) <-> is_Some (instances s !! k)) /\
  forall k i i',
    instances s !! k = Some i -> instances s' !! k = Some i' ->
    wi_id i' = wi_id i /\ wi_workflowId i' = wi_workflowId i /\
    dom (wi_phaseStates i') = dom (wi_phaseStates i).

(** The workflow instance once a transition out of [current] to [target]
    has been accepted: the outgoing phase instance, if there is one, is
    completed at time [d], and the target is the current phase. *)
Definition committed (instance : WorkflowInstance) (current target : string) (d : nat)
  : WorkflowInstance :=
  wi_set_currentPhaseId target
    (wi_set_phaseStates
       (alter (fun p => pi_set_completedAt d (pi_set_state phase_completed p))
              current (wi_phaseStates instance))
       instance).

Definition phase_instance_not_found : Err :=
  StateMachineError "Phase instance not found" "PHASE_INSTANCE_NOT_FOUND".

(** The phases of workflow [workflowId] form chains that end: [rank]
    decreases from a phase to its first next phase, which the provider
    knows and to which it offers a transition. *)
Definition chains_end (phaseManager : IPhaseManager) (workflowId : string)
           (rank : string -> nat) : Prop :=
  forall phaseId phase,
    getPhase phaseManager workflowId phaseId = Some phase ->
    match p_nextPhases phase with
    | [] => True
    | next :: _ =>
        StateMachine.nonempty next = true /\
        (rank next < rank phaseId)%nat /\
        is_Some (getPhase phaseManager workflowId next) /\
        is_Some (List.find (fun t => String.eqb (tr_to t) next)
                           (getAvailableTransitions phaseManager workflowId phaseId))
    end.

(** The workflow has run to the end of its chain of phases. *)
Definition completed_at_last_phase {X : Type} (phaseManager : IPhaseManager)
           (instanceId : string) (run : Outcome unit * SM X) : Prop :=
  run.1 = Returned tt /\
  exists instance last lastPhase lastInstance,
    instances run.2 !! instanceId = Some instance /\
    wi_state instance = completed /\
    wi_currentPhaseId instance = Some last /\
    getPhase phaseManager (wi_workflowId instance) last = Some lastPhase /\
    p_nextPhases lastPhase = [] /\
    wi_phaseStates instance !! last = Some lastInstance /\
    pi_state lastInstance = phase_completed.


(** How a run of the private [executePhase] ends: returned with the
    workflow ended; thrown by one of the opening checks with nothing
    changed; or thrown, the checks having passed, with an error of the
    store. *)
Definition ends_well {X : Type} (phaseManager : IPhaseManager)
           (persistence : option (IWorkflowPersistence X)) (config : IStateMachineConfig)
           (iid pid : string) (s : SM X) (r : Outcome unit) (s' : SM X) : Prop :=
  match r with
  | Returned _ => usable_next_phases phaseManager -> terminal_workflow s' iid
  | Threw e =>
      (guard_error phaseManager s iid pid = Some e /\
       instances s' = instances s /\ env s' = env s /\ uuids s' = uuids s) \/
      (guards_pass phaseManager s iid pid /\ store_rejects_with persistence config e)
  | OutOfFuel => True
  end.

(** ** Rejections of the store *)

(** The workflow instance once [executePhase] has marked the phase active
    at time [d]. *)
Definition activated (instance : WorkflowInstance) (phaseId : string) (d : nat)
  : WorkflowInstance :=
  wi_set_phaseStates
    (alter (fun p => pi_set_startedAt d (pi_set_state phase_active p))
           phaseId (wi_phaseStates instance))
    instance.

(** The phase instance of [phaseId] is completed in [instance]. *)
Definition phase_completed_in (instance : WorkflowInstance) (phaseId : string) : bool :=
  match wi_phaseStates instance !! phaseId with
  | Some p => bool_decide (pi_state p = phase_completed)
  | None => false
  end.

(** A store, in use, whose updates reject with [e] exactly the instances
    in which phase [phaseId] is completed. *)
Definition rejects_completed {X : Type} (persistence : option (IWorkflowPersistence X))
           (config : IStateMachineConfig) (phaseId : string) (e : Err) : Prop :=
  enablePersistence config = true /\
  exists p, persistence = Some p /\
    forall id instance env,
      (updateWorkflowInstance p id instance env).2
      = if phase_completed_in instance phaseId then Some e else None.

(** Such a store for the fixtures. *)
Definition store_rejecting_completed (phaseId : string) (e : Err)
  : IWorkflowPersistence nat :=
  mkPersistence
    (fun _ env => (env, None))
    (fun _ instance env =>
       (env, if phase_completed_in instance phaseId then Some e else None)).

(** * Properties *)

Local Close Scope string_scope.

(** ** Sets as insertion-ordered lists *)

Lemma has_true (s : list string) (x : string) : has s x = true <-> x ∈ s.
Proof. unfold has. apply bool_decide_eq_true. Qed.

Lemma has_false (s : list string) (x : string) : has s x = false <-> x ∉ s.
Proof. unfold has. apply bool_decide_eq_false. Qed.

Lemma elem_of_set_add (x y : string) (s : list string) :
  y ∈ set_add x s <-> y = x \/ y ∈ s.
Proof.
  unfold set_add. destruct (has s x) eqn:Hx.
  - apply has_true in Hx. split; [auto|]. intros [->|]; auto.
  - rewrite elem_of_app, list_elem_of_singleton. tauto.
Qed.

Lemma NoDup_set_add (x : string) (s : list string) : NoDup s -> NoDup (set_add x s).
Proof.
  intros Hs. unfold set_add. destruct (has s x) eqn:Hx; [done|].
  apply has_false in Hx. apply NoDup_app. split; [done|]. split.
  - intros y Hy Hy'. apply list_elem_of_singleton in Hy'. by subst.
  - apply NoDup_singleton.
Qed.

Lemma forallb_has (s l : list string) :
  forallb (has s) l = true <-> forall d, d ∈ l -> d ∈ s.
Proof.
  rewrite forallb_forall. split; intros H d Hd.
  - apply has_true, H. by apply list_elem_of_In.
  - apply has_true, H. by apply list_elem_of_In.
Qed.

(** ** The three passes of a scheduling round *)

Section Passes.
Context {E : Type} (te : ITaskExecutor E) (context : PhaseContext).

Lemma start_all_spec (fr : list Task) :
  forall ts env ts1 env1 ls,
    PhaseExecutor.start_all te context fr (ts, env) = ((ts1, env1), ls) ->
    List.length ls = List.length fr /\
    (forall k, k ∉ ids fr -> ts1 !! k = ts !! k) /\
    (forall k, is_Some (ts1 !! k) <-> is_Some (ts !! k)) /\
    exists evs,
      history (ext env1) = evs ++ history (ext env) /\
      (forall ev, ev ∈ evs ->
                  exists t snap, ev = Started t snap /\ t ∈ fr /\
                                 forall k, k ∉ ids fr -> snap !! k = ts !! k) /\
      (forall t, t ∈ fr -> is_Some (ts !! t_id t) -> exists snap, Started t snap ∈ evs) /\
      ((forall t, t ∈ fr -> is_Some (ts !! t_id t)) ->
       Forall (fun l => exists o, l = InFlight o) ls).
Proof.
  induction fr as [|t rest IH]; intros ts env ts1 env1 ls Hrun.
  - simpl in Hrun. simplify_eq. repeat split; auto.
    exists []. repeat split; auto.
    + intros ev Hev. by apply elem_of_nil in Hev.
    + intros t Ht. by apply elem_of_nil in Ht.
  - cbn [PhaseExecutor.start_all] in Hrun.
    destruct (PhaseExecutor.start_task te context t (ts, env)) as [[tsa enva] l] eqn:Hst.
    destruct (PhaseExecutor.start_all te context rest (tsa, enva)) as [[tsb envb] ls'] eqn:Hrest.
    simplify_eq.
    destruct (IH _ _ _ _ _ Hrest) as (Hlen & Hout & Hsome & evs & Hhist & Hevs & Hall & Hfl).
    assert (Hstep :
      (forall k, k ≠ t_id t -> tsa !! k = ts !! k) /\
      (forall k, is_Some (tsa !! k) <-> is_Some (ts !! k)) /\
      exists evs0, history (ext enva) = evs0 ++ history (ext env) /\
        (forall ev, ev ∈ evs0 -> ev = Started t ts) /\
        (is_Some (ts !! t_id t) -> Started t ts ∈ evs0 /\ exists o, l = InFlight o)).
    { unfold PhaseExecutor.start_task in Hst.
      destruct (ts !! t_id t) as [ti|] eqn:Hti.
      - simpl in Hst.
        destruct (te_executeTask te _ _ _) as [o e'] eqn:Ho.
        simplify_eq. split; [|split].
        + intros k Hk. by rewrite lookup_insert_ne.
        + intros k. destruct (decide (t_id t = k)) as [<-|Hk].
          * rewrite lookup_insert_eq, Hti. split; eauto.
          * by rewrite lookup_insert_ne.
        + exists [Started t ts]. simpl. split; [done|]. split.
          * intros ev Hev. by apply list_elem_of_singleton in Hev.
          * intros _. split; [apply list_elem_of_singleton; done | eauto].
      - simplify_eq. split; [done|]. split; [done|].
        exists []. split; [done|]. split.
        + intros ev Hev. by apply elem_of_nil in Hev.
        + intros [? ?]. congruence. }
    destruct Hstep as (Hne & Hsome0 & evs0 & Hhist0 & Hevs0 & Hhere).
    split; [simpl; by rewrite Hlen|]. split; [|split].
    + intros k Hk. unfold ids in Hk. simpl in Hk.
      apply not_elem_of_cons in Hk as [Hk1 Hk2].
      rewrite Hout by done. by apply Hne.
    + intros k. by rewrite Hsome, Hsome0.
    + exists (evs ++ evs0). split; [|split; [|split]].
      * rewrite Hhist, Hhist0. by rewrite app_assoc.
      * intros ev Hev. apply elem_of_app in Hev as [Hev|Hev].
        -- destruct (Hevs _ Hev) as (t' & snap & -> & Ht' & Hsnap).
           exists t', snap. split; [done|]. split; [by right|].
           intros k Hk. unfold ids in Hk. simpl in Hk.
           apply not_elem_of_cons in Hk as [Hk1 Hk2].
           rewrite Hsnap by done. by apply Hne.
        -- rewrite (Hevs0 _ Hev). exists t, ts. split; [done|]. split; [by left|done].
      * intros t' Ht' Hinst. apply elem_of_cons in Ht' as [->|Ht'].
        -- exists ts. apply elem_of_app. right. by apply Hhere.
        -- destruct (Hall t' Ht') as [snap Hsnap]; [by apply Hsome0|].
           exists snap. apply elem_of_app. by left.
      * intros Hinst. constructor.
        -- apply Hhere, Hinst. by left.
        -- apply Hfl. intros t' Ht'. apply Hsome0, Hinst. by right.
Qed.


Lemma settle_task_spec t l ts (env : Env (PX E)) ts' env' r :
  PhaseExecutor.settle_task t l (ts, env) = ((ts', env'), r) ->
  r = settled_of l /\
  (forall k, k ≠ t_id t -> ts' !! k = ts !! k) /\
  (forall k, is_Some (ts' !! k) <-> is_Some (ts !! k)) /\
  te_state (ext env') = te_state (ext env) /\
  history (ext env') = option_list (settle_event t l) ++ history (ext env) /\
  (is_Some (ts !! t_id t) -> exists ti', ts' !! t_id t = Some ti' /\ settled_as l ti').
Proof.
  unfold PhaseExecutor.settle_task.
  destruct l as [[result|error]|e]; simpl; intros Hrun; simplify_eq.
  - repeat split; auto.
    + intros k Hk. by rewrite lookup_alter_ne.
    + intros [x Hx]. destruct (decide (t_id t = k)) as [<-|Hk].
      * rewrite lookup_alter_eq in Hx. destruct (ts !! t_id t); simplify_eq/=; eauto.
      * rewrite lookup_alter_ne in Hx by done. eauto.
    + intros [x Hx]. destruct (decide (t_id t = k)) as [<-|Hk].
      * rewrite lookup_alter_eq, Hx. simpl. eauto.
      * rewrite lookup_alter_ne by done. eauto.
    + intros [ti Hti]. rewrite lookup_alter_eq, Hti. simpl. eauto.
  - repeat split; auto.
    + intros k Hk. by rewrite lookup_alter_ne.
    + intros [x Hx]. destruct (decide (t_id t = k)) as [<-|Hk].
      * rewrite lookup_alter_eq in Hx. destruct (ts !! t_id t); simplify_eq/=; eauto.
      * rewrite lookup_alter_ne in Hx by done. eauto.
    + intros [x Hx]. destruct (decide (t_id t = k)) as [<-|Hk].
      * rewrite lookup_alter_eq, Hx. simpl. eauto.
      * rewrite lookup_alter_ne by done. eauto.
    + intros [ti Hti]. rewrite lookup_alter_eq, Hti. simpl. eauto.
  - repeat split; auto. intros [ti Hti]. eauto.
Qed.

Lemma zip_unique (fr : list Task) (ls : list Launched) t l t2 l2 :
  NoDup (ids fr) -> (t, l) ∈ zip fr ls -> (t2, l2) ∈ zip fr ls ->
  t_id t = t_id t2 -> t = t2 /\ l = l2.
Proof.
  revert ls. induction fr as [|t0 rest IH]; intros ls Hnd H1 H2 Hid.
  - simpl in H1. by apply elem_of_nil in H1.
  - destruct ls as [|l0 ls]; [simpl in H1; by apply elem_of_nil in H1|].
    simpl in H1, H2. unfold ids in Hnd. simpl in Hnd.
    apply NoDup_cons in Hnd as [Hnot Hnd].
    assert (Hin : forall t' l', (t', l') ∈ zip rest ls -> t_id t' ∈ t_id <$> rest).
    { intros t' l' H. apply list_elem_of_fmap. exists t'. split; [done|].
      by apply elem_of_zip_l in H. }
    apply elem_of_cons in H1 as [H1|H1]; apply elem_of_cons in H2 as [H2|H2];
      simplify_eq.
    + done.
    + exfalso. apply Hnot. rewrite Hid. eauto.
    + exfalso. apply Hnot. rewrite <- Hid. eauto.
    + eapply IH; eauto.
Qed.

Lemma settle_all_spec (fr : list Task) :
  forall ls ts (env : Env (PX E)) ts' env' rs,
    List.length ls = List.length fr ->
    PhaseExecutor.settle_all fr ls (ts, env) = ((ts', env'), rs) ->
    rs = map settled_of ls /\
    (forall k, k ∉ ids fr -> ts' !! k = ts !! k) /\
    (forall k, is_Some (ts' !! k) <-> is_Some (ts !! k)) /\
    te_state (ext env') = te_state (ext env) /\
    (exists evs,
        history (ext env') = evs ++ history (ext env) /\
        forall ev, ev ∈ evs <->
                   exists t l, (t, l) ∈ zip fr ls /\ settle_event t l = Some ev) /\
    (NoDup (ids fr) ->
     forall t l, (t, l) ∈ zip fr ls -> is_Some (ts !! t_id t) ->
                 exists ti', ts' !! t_id t = Some ti' /\ settled_as l ti').
Proof.
  induction fr as [|t rest IH]; intros ls ts env ts' env' rs Hlen Hrun.
  - destruct ls; [|done]. simpl in Hrun. simplify_eq.
    repeat split; auto.
    + exists []. split; [done|]. intros ev. split.
      * intros Hev. by apply elem_of_nil in Hev.
      * intros (t & l & H & _). simpl in H. by apply elem_of_nil in H.
    + intros _ t l H. simpl in H. by apply elem_of_nil in H.
  - destruct ls as [|l ls]; [done|]. simpl in Hlen.
    cbn [PhaseExecutor.settle_all] in Hrun.
    destruct (PhaseExecutor.settle_task t l (ts, env)) as [[tsa enva] r] eqn:Hst.
    destruct (PhaseExecutor.settle_all rest ls (tsa, enva)) as [[tsb envb] rs'] eqn:Hrest.
    simplify_eq.
    destruct (settle_task_spec _ _ _ _ _ _ _ Hst)
      as (Hr & Hne & Hsome0 & Hte0 & Hhist0 & Hmark).
    destruct (IH _ _ _ _ _ _ Hlen Hrest)
      as (Hrs & Hout & Hsome & Hte & (evs & Hhist & Hevs) & Huniq).
    split; [simpl; by rewrite Hrs, Hr|]. split; [|split; [|split; [|split]]].
    + intros k Hk. unfold ids in Hk. simpl in Hk.
      apply not_elem_of_cons in Hk as [Hk1 Hk2].
      rewrite Hout by done. by apply Hne.
    + intros k. by rewrite Hsome, Hsome0.
    + by rewrite Hte, Hte0.
    + exists (evs ++ option_list (settle_event t l)). split.
      * rewrite Hhist, Hhist0. by rewrite app_assoc.
      * intros ev. rewrite elem_of_app, Hevs. simpl. split.
        -- intros [(t' & l' & Hin & Hev)|Hev].
           ++ exists t', l'. split; [by right|done].
           ++ exists t, l. split; [by left|].
              destruct (settle_event t l); simpl in Hev;
                [by apply list_elem_of_singleton in Hev; subst
                |by apply elem_of_nil in Hev].
        -- intros (t' & l' & Hin & Hev).
           apply elem_of_cons in Hin as [Hin|Hin].
           ++ simplify_eq. right. rewrite Hev. simpl. by apply list_elem_of_singleton.
           ++ left. eauto.
    + intros Hnd t' l' Hin Hinst. simpl in Hin.
      unfold ids in Hnd. simpl in Hnd. apply NoDup_cons in Hnd as [Hnot Hnd].
      apply elem_of_cons in Hin as [Hin|Hin].
      * simplify_eq. rewrite Hout by done. by apply Hmark.
      * apply (Huniq Hnd _ _ Hin). by apply Hsome0.
Qed.

End Passes.

Section Classification.
Context {E : Type}.

Lemma classify_spec (t : Task) (l : Launched) (L : Loop E) :
  let L' := PhaseExecutor.classify t (settled_of l) L in
  l_env L' = l_env L /\
  (forall x, x ∈ executedTasks L' <->
             x ∈ executedTasks L \/
             (t_id t = x /\ (fulfilled l = true \/ t_required t = false))) /\
  (forall x, x ∈ failedTasks L' <->
             x ∈ failedTasks L \/
             (t_id t = x /\ fulfilled l = false /\ t_required t = true)) /\
  (NoDup (executedTasks L) -> NoDup (executedTasks L')) /\
  (NoDup (failedTasks L) -> NoDup (failedTasks L')) /\
  (forall k, k ≠ t_id t -> l_taskStates L' !! k = l_taskStates L !! k) /\
  (forall k, is_Some (l_taskStates L' !! k) <-> is_Some (l_taskStates L !! k)) /\
  l_taskStates L' !! t_id t =
    (if fulfilled l || t_required t then id else ti_set_state task_skipped)
      <$> l_taskStates L !! t_id t.
Proof.
  unfold PhaseExecutor.classify.
  destruct l as [[r|e]|e]; simpl.
  - repeat split; auto using NoDup_set_add.
    + rewrite elem_of_set_add. intros [->|]; auto.
    + rewrite elem_of_set_add. intros [|[<- _]]; auto.
    + intros [|(_ & ? & _)]; [done|done].
    + by rewrite option_fmap_id.
  - destruct (t_required t) eqn:Hreq; simpl.
    + repeat split; auto using NoDup_set_add.
      * intros [|[_ [|]]]; [done|done|done].
      * rewrite elem_of_set_add. intros [->|]; auto.
      * rewrite elem_of_set_add. intros [|(<- & _)]; auto.
      * by rewrite option_fmap_id.
    + repeat split; auto using NoDup_set_add.
      * rewrite elem_of_set_add. intros [->|]; auto.
      * rewrite elem_of_set_add. intros [|[<- _]]; auto.
      * intros [|(_ & _ & ?)]; [done|done].
      * intros k Hk. by rewrite lookup_alter_ne.
      * intros [x Hx]. destruct (decide (t_id t = k)) as [<-|Hk].
        -- rewrite lookup_alter_eq in Hx.
           destruct (l_taskStates L !! t_id t); simplify_eq/=; eauto.
        -- rewrite lookup_alter_ne in Hx by done. eauto.
      * intros [x Hx]. destruct (decide (t_id t = k)) as [<-|Hk].
        -- rewrite lookup_alter_eq, Hx. simpl. eauto.
        -- rewrite lookup_alter_ne by done. eauto.
      * by rewrite lookup_alter_eq.
  - destruct (t_required t) eqn:Hreq; simpl.
    + repeat split; auto using NoDup_set_add.
      * intros [|[_ [|]]]; [done|done|done].
      * rewrite elem_of_set_add. intros [->|]; auto.
      * rewrite elem_of_set_add. intros [|(<- & _)]; auto.
      * by rewrite option_fmap_id.
    + repeat split; auto using NoDup_set_add.
      * rewrite elem_of_set_add. intros [->|]; auto.
      * rewrite elem_of_set_add. intros [|[<- _]]; auto.
      * intros [|(_ & _ & ?)]; [done|done].
      * intros k Hk. by rewrite lookup_alter_ne.
      * intros [x Hx]. destruct (decide (t_id t = k)) as [<-|Hk].
        -- rewrite lookup_alter_eq in Hx.
           destruct (l_taskStates L !! t_id t); simplify_eq/=; eauto.
        -- rewrite lookup_alter_ne in Hx by done. eauto.
      * intros [x Hx]. destruct (decide (t_id t = k)) as [<-|Hk].
        -- rewrite lookup_alter_eq, Hx. simpl. eauto.
        -- rewrite lookup_alter_ne by done. eauto.
      * by rewrite lookup_alter_eq.
Qed.

Lemma classify_all_spec (fr : list Task) :
  forall (ls : list Launched) (L : Loop E),
    List.length ls = List.length fr ->
    let L' := PhaseExecutor.classify_all fr (map settled_of ls) L in
    l_env L' = l_env L /\
    (forall x, x ∈ executedTasks L' <->
               x ∈ executedTasks L \/
               exists t l, (t, l) ∈ zip fr ls /\ t_id t = x /\
                           (fulfilled l = true \/ t_required t = false)) /\
    (forall x, x ∈ failedTasks L' <->
               x ∈ failedTasks L \/
               exists t l, (t, l) ∈ zip fr ls /\ t_id t = x /\
                           fulfilled l = false /\ t_required t = true) /\
    (NoDup (executedTasks L) -> NoDup (executedTasks L')) /\
    (NoDup (failedTasks L) -> NoDup (failedTasks L')) /\
    (forall k, k ∉ ids fr -> l_taskStates L' !! k = l_taskStates L !! k) /\
    (forall k, is_Some (l_taskStates L' !! k) <-> is_Some (l_taskStates L !! k)) /\
    (NoDup (ids fr) ->
     forall t l, (t, l) ∈ zip fr ls ->
                 l_taskStates L' !! t_id t =
                   (if fulfilled l || t_required t then id
                    else ti_set_state task_skipped)
                     <$> l_taskStates L !! t_id t).
Proof.
  induction fr as [|t rest IH]; intros ls L Hlen.
  - destruct ls; [|done]. simpl. repeat split; auto.
    + intros [|(t & l & H & _)]; [done|]. by apply elem_of_nil in H.
    + intros [|(t & l & H & _)]; [done|]. by apply elem_of_nil in H.
    + intros _ t l H. by apply elem_of_nil in H.
  - destruct ls as [|l ls]; [done|]. simpl in Hlen.
    cbn [PhaseExecutor.classify_all map zip zip_with].
    destruct (classify_spec t l L) as (He0 & Hex0 & Hfa0 & Hnd0 & Hnf0 & Hne0 & Hsome0 & Hat0).
    specialize (IH ls (PhaseExecutor.classify t (settled_of l) L)).
    destruct IH as (He & Hex & Hfa & Hnd & Hnf & Hout & Hsome & Huniq); [lia|].
    split; [by rewrite He, He0|]. split; [|split; [|split; [|split; [|split; [|split]]]]].
    + intros x. rewrite Hex, Hex0. split.
      * intros [[|[<- H]]|(t' & l' & Hin & Hid & H)]; auto.
        -- right. exists t, l. split; [by left|done].
        -- right. exists t', l'. split; [by right|done].
      * intros [|(t' & l' & Hin & Hid & H)]; auto.
        apply elem_of_cons in Hin as [Hin|Hin]; [simplify_eq; auto|].
        right. eauto.
    + intros x. rewrite Hfa, Hfa0. split.
      * intros [[|[<- H]]|(t' & l' & Hin & Hid & H)]; auto.
        -- right. exists t, l. split; [by left|done].
        -- right. exists t', l'. split; [by right|done].
      * intros [|(t' & l' & Hin & Hid & H)]; auto.
        apply elem_of_cons in Hin as [Hin|Hin]; [simplify_eq; auto|].
        right. eauto.
    + auto.
    + auto.
    + intros k Hk. unfold ids in Hk. simpl in Hk.
      apply not_elem_of_cons in Hk as [Hk1 Hk2].
      rewrite Hout by done. by apply Hne0.
    + intros k. by rewrite Hsome, Hsome0.
    + intros Hndup t' l' Hin.
      unfold ids in Hndup. simpl in Hndup. apply NoDup_cons in Hndup as [Hnot Hndup].
      apply elem_of_cons in Hin as [Hin|Hin].
      * simplify_eq. rewrite Hout by done. done.
      * rewrite (Huniq Hndup _ _ Hin). rewrite Hne0; [done|].
        intros Heq. apply Hnot. rewrite <- Heq.
        apply list_elem_of_fmap. exists t'. split; [done|].
        by apply elem_of_zip_l in Hin.
Qed.

End Classification.

(** ** One scheduling round preserves the invariant *)

Lemma tasks_unique (tasks : list Task) (t t' : Task) :
  NoDup (ids tasks) -> t ∈ tasks -> t' ∈ tasks -> t_id t = t_id t' -> t = t'.
Proof.
  induction tasks as [|t0 rest IH]; intros Hnd Ht Ht' Hid.
  - by apply elem_of_nil in Ht.
  - unfold ids in Hnd. rewrite fmap_cons in Hnd. apply NoDup_cons in Hnd as [Hnot Hnd].
    apply elem_of_cons in Ht as [->|Ht]; apply elem_of_cons in Ht' as [->|Ht'].
    + done.
    + exfalso. apply Hnot. rewrite Hid. apply list_elem_of_fmap. eauto.
    + exfalso. apply Hnot. rewrite <- Hid. apply list_elem_of_fmap. eauto.
    + by apply IH.
Qed.

Lemma elem_of_ids (tasks : list Task) (x : string) :
  x ∈ ids tasks <-> exists t, t ∈ tasks /\ t_id t = x.
Proof.
  unfold ids. rewrite list_elem_of_fmap. split; intros (t & H1 & H2); eauto.
Qed.

Lemma ready_true (executed failed : list string) (t : Task) :
  PhaseExecutor.ready executed failed t = true <->
  (t_id t ∉ executed) /\ (t_id t ∉ failed) /\
  forall d, d ∈ PhaseExecutor.dependencies t -> d ∈ executed.
Proof.
  unfold PhaseExecutor.ready.
  destruct (has executed (t_id t)) eqn:He; simpl.
  { apply has_true in He. split; [done|]. intros (? & _); done. }
  destruct (has failed (t_id t)) eqn:Hf; simpl.
  { apply has_true in Hf. split; [done|]. intros (_ & ? & _); done. }
  apply has_false in He, Hf. rewrite forallb_has. tauto.
Qed.

Lemma elem_of_tasksToExecute (tasks : list Task) (executed failed : list string) t :
  t ∈ PhaseExecutor.tasksToExecute tasks executed failed <->
  t ∈ tasks /\ PhaseExecutor.ready executed failed t = true.
Proof.
  unfold PhaseExecutor.tasksToExecute. rewrite list_elem_of_filter.
  rewrite Is_true_true. tauto.
Qed.

Lemma unresolved_true (executed failed : list string) (t : Task) :
  PhaseExecutor.unresolved executed failed t = true <->
  (t_id t ∉ executed) /\ (t_id t ∉ failed).
Proof.
  unfold PhaseExecutor.unresolved.
  rewrite andb_true_iff, !negb_true_iff, !has_false. tauto.
Qed.

Lemma elem_of_pendingTasks (tasks : list Task) (executed failed : list string) t :
  t ∈ PhaseExecutor.pendingTasks tasks executed failed <->
  t ∈ tasks /\ (t_id t ∉ executed) /\ (t_id t ∉ failed).
Proof.
  unfold PhaseExecutor.pendingTasks. rewrite list_elem_of_filter.
  rewrite Is_true_true, unresolved_true. tauto.
Qed.

Lemma NoDup_ids_tasksToExecute (tasks : list Task) (executed failed : list string) :
  NoDup (ids tasks) -> NoDup (ids (PhaseExecutor.tasksToExecute tasks executed failed)).
Proof.
  intros Hnd. eapply sublist_NoDup; [exact Hnd|].
  unfold ids. apply fmap_sublist. apply sublist_filter.
Qed.

Lemma zip_exists {A B} (l : list A) (k : list B) (x : A) :
  x ∈ l -> List.length k = List.length l -> exists y, (x, y) ∈ zip l k.
Proof.
  revert k. induction l as [|a l IH]; intros k Hx Hlen.
  - by apply elem_of_nil in Hx.
  - destruct k as [|b k]; [done|]. simpl in Hlen.
    apply elem_of_cons in Hx as [->|Hx].
    + exists b. by left.
    + destruct (IH k Hx) as [y Hy]; [lia|]. exists y. by right.
Qed.

Lemma started_in_app (l1 l2 : list Event) (d : string) :
  started_in l2 d -> started_in (l1 ++ l2) d.
Proof.
  intros (t & snap & Hin & Hid). exists t, snap. split; [|done].
  apply elem_of_app. by right.
Qed.

Lemma ordered_app (l1 l2 : list Event) :
  ordered l2 -> (forall ev, ev ∈ l1 -> start_ok ev l2) -> ordered (l1 ++ l2).
Proof.
  intros Hl2. induction l1 as [|ev l1 IH]; intros Hok; [done|].
  simpl. split.
  - assert (Hev : start_ok ev l2) by (apply Hok; by left).
    destruct ev as [t snap| |]; simpl in *; auto.
    intros d Hd. destruct (Hev d Hd) as [H1 H2]. split; [done|].
    by apply started_in_app.
  - apply IH. intros ev' Hev'. apply Hok. by right.
Qed.

Lemma ordered_split (evs later earlier : list Event) (t : Task) snap :
  ordered evs -> evs = later ++ Started t snap :: earlier ->
  forall d, d ∈ PhaseExecutor.dependencies t -> terminal snap d /\ started_in earlier d.
Proof.
  revert evs. induction later as [|ev later IH]; intros evs Hord ->.
  - simpl in Hord. by destruct Hord as [Hok _].
  - simpl in Hord. destruct Hord as [_ Hord]. by eapply IH.
Qed.

Section Round.
Context {E : Type} (te : ITaskExecutor E) (context : PhaseContext).

Lemma round_unfold (fr : list Task) (L : Loop E) :
  exists ts1 env1 ls ts2 env2,
    PhaseExecutor.start_all te context fr (l_taskStates L, l_env L) = ((ts1, env1), ls) /\
    PhaseExecutor.settle_all fr ls (ts1, env1) = ((ts2, env2), map settled_of ls) /\
    List.length ls = List.length fr /\
    PhaseExecutor.round te context fr L =
      PhaseExecutor.classify_all fr (map settled_of ls)
        (mkLoop ts2 env2 (executedTasks L) (failedTasks L)).
Proof.
  unfold PhaseExecutor.round.
  destruct (PhaseExecutor.start_all te context fr (l_taskStates L, l_env L))
    as [[ts1 env1] ls] eqn:H1.
  destruct (PhaseExecutor.settle_all fr ls (ts1, env1)) as [[ts2 env2] rs] eqn:H2.
  destruct (start_all_spec te context fr _ _ _ _ _ H1) as (Hlen & _).
  destruct (settle_all_spec fr _ _ _ _ _ _ Hlen H2) as (-> & _).
  exists ts1, env1, ls, ts2, env2. simpl. done.
Qed.

(** The sets only grow, and every task of the frontier is resolved. *)
Lemma round_sets (fr : list Task) (L : Loop E) :
  let L' := PhaseExecutor.round te context fr L in
  (forall x, x ∈ executedTasks L -> x ∈ executedTasks L') /\
  (forall x, x ∈ failedTasks L -> x ∈ failedTasks L') /\
  (forall t, t ∈ fr -> t_id t ∈ executedTasks L' \/ t_id t ∈ failedTasks L').
Proof.
  destruct (round_unfold fr L) as (ts1 & env1 & ls & ts2 & env2 & H1 & H2 & Hlen & ->).
  destruct (classify_all_spec fr ls (mkLoop ts2 env2 (executedTasks L) (failedTasks L)) Hlen)
    as (_ & Hex & Hfa & _).
  simpl in Hex, Hfa. split; [|split].
  - intros x Hx. apply Hex. by left.
  - intros x Hx. apply Hfa. by left.
  - intros t Ht. destruct (zip_exists fr ls t Ht Hlen) as [l Hl].
    destruct (fulfilled l) eqn:Hful.
    + left. apply Hex. right. exists t, l. auto.
    + destruct (t_required t) eqn:Hreq.
      * right. apply Hfa. right. exists t, l. auto.
      * left. apply Hex. right. exists t, l. auto.
Qed.

End Round.

Section RoundInvariant.
Context {E : Type} (te : ITaskExecutor E) (context : PhaseContext).
Variable tasks : list Task.
Hypothesis tasks_nodup : NoDup (ids tasks).

Lemma terminal_of_executed h0 evs (L : Loop E) d :
  Inv tasks h0 evs L -> d ∈ executedTasks L ->
  terminal (l_taskStates L) d /\ started_in evs d.
Proof.
  intros HI Hd.
  assert (Hid : d ∈ ids tasks).
  { apply (inv_ids _ _ _ _ HI). apply elem_of_app. by left. }
  apply elem_of_ids in Hid as (t & Ht & <-).
  destruct (inv_executed _ _ _ _ HI t Ht Hd) as [[snap Hsnap] Hsettled]. split.
  - destruct Hsettled as [[r Hr]|(e & He & Hreq)].
    + destruct (inv_resolved _ _ _ _ HI _ _ Hr) as (_ & _ & ti & Hti & Hst & _).
      exists ti. auto.
    + destruct (inv_rejected _ _ _ _ HI _ _ He) as (_ & Hrej). rewrite Hreq in Hrej.
      destruct Hrej as (_ & ti & Hti & Hst). exists ti. auto.
  - exists t, snap. done.
Qed.

Lemma round_inv h0 evs (L : Loop E) :
  Inv tasks h0 evs L ->
  let fr := PhaseExecutor.tasksToExecute tasks (executedTasks L) (failedTasks L) in
  exists new, Inv tasks h0 (new ++ evs) (PhaseExecutor.round te context fr L).
Proof.
  intros HI fr.
  destruct (round_unfold te context fr L)
    as (ts1 & env1 & ls & ts2 & env2 & H1 & H2 & Hlen & ->).
  destruct (start_all_spec te context fr _ _ _ _ _ H1)
    as (_ & Hout1 & Hsome1 & evs1 & Hh1 & Hevs1 & Hall1 & Hfl1).
  destruct (settle_all_spec fr _ _ _ _ _ _ Hlen H2)
    as (_ & Hout2 & Hsome2 & Hte2 & (evs2 & Hh2 & Hevs2) & Hmark2).
  destruct (classify_all_spec fr ls (mkLoop ts2 env2 (executedTasks L) (failedTasks L)) Hlen)
    as (He3 & Hex & Hfa & Hnd3 & Hnf3 & Hout3 & Hsome3 & Hat3).
  set (L' := PhaseExecutor.classify_all fr (map settled_of ls)
               (mkLoop ts2 env2 (executedTasks L) (failedTasks L))) in *.
  simpl in He3, Hex, Hfa, Hnd3, Hnf3, Hout3, Hsome3, Hat3.
  assert (Hfr : forall t, t ∈ fr ->
            t ∈ tasks /\ (t_id t ∉ executedTasks L) /\ (t_id t ∉ failedTasks L) /\
            forall d, d ∈ PhaseExecutor.dependencies t -> d ∈ executedTasks L).
  { intros t Ht. apply elem_of_tasksToExecute in Ht as [Ht Hr].
    apply ready_true in Hr. tauto. }
  assert (Hndfr : NoDup (ids fr)) by by apply NoDup_ids_tasksToExecute.
  assert (Hinst : forall t, t ∈ fr -> is_Some (l_taskStates L !! t_id t)).
  { intros t Ht. apply (inv_inst _ _ _ _ HI). by apply Hfr. }
  specialize (Hfl1 Hinst).
  assert (Hold : forall k, k ∈ executedTasks L ++ failedTasks L -> k ∉ ids fr).
  { intros k Hk Hin. apply elem_of_ids in Hin as (t & Ht & <-).
    destruct (Hfr t Ht) as (_ & Hne & Hnf & _).
    apply elem_of_app in Hk as [|]; done. }
  assert (Hsame : forall k, k ∉ ids fr -> l_taskStates L' !! k = l_taskStates L !! k).
  { intros k Hk. rewrite Hout3, Hout2, Hout1; done. }
  assert (Hzip : forall t l, (t, l) ∈ zip fr ls -> t ∈ fr /\ exists o, l = InFlight o).
  { intros t l Hin. split; [by apply elem_of_zip_l in Hin|].
    apply elem_of_zip_r in Hin. rewrite Forall_forall in Hfl1. by apply Hfl1. }
  assert (Hfinal : forall t l, (t, l) ∈ zip fr ls ->
            exists ti2, settled_as l ti2 /\
              l_taskStates L' !! t_id t =
                Some ((if fulfilled l || t_required t then id
                       else ti_set_state task_skipped) ti2)).
  { intros t l Hin. destruct (Hzip t l Hin) as [Ht _].
    destruct (Hmark2 Hndfr t l Hin) as (ti2 & Hti2 & Hs); [by apply Hsome1, Hinst|].
    exists ti2. split; [done|]. rewrite (Hat3 Hndfr t l Hin), Hti2. done. }
  assert (Hstarted1 : forall ev, ev ∈ evs1 -> exists t snap, ev = Started t snap).
  { intros ev Hev. destruct (Hevs1 ev Hev) as (t & snap & -> & _). eauto. }
  exists (evs2 ++ evs1). constructor.
  - (* history *)
    rewrite He3, Hh2, Hh1, (inv_hist _ _ _ _ HI). by rewrite !app_assoc.
  - (* ids *)
    intros x Hx. apply elem_of_app in Hx as [Hx|Hx].
    + apply Hex in Hx as [Hx|(t & l & Hin & <- & _)].
      * apply (inv_ids _ _ _ _ HI). apply elem_of_app. by left.
      * apply elem_of_ids. exists t. split; [|done]. apply Hfr. by destruct (Hzip _ _ Hin).
    + apply Hfa in Hx as [Hx|(t & l & Hin & <- & _)].
      * apply (inv_ids _ _ _ _ HI). apply elem_of_app. by right.
      * apply elem_of_ids. exists t. split; [|done]. apply Hfr. by destruct (Hzip _ _ Hin).
  - (* no duplicates *)
    pose proof (inv_nodup _ _ _ _ HI) as Hnd0.
    apply NoDup_app in Hnd0 as (Hnde & Hdisj & Hndf).
    apply NoDup_app. split; [auto|]. split; [|auto].
    intros x Hxe Hxf.
    apply Hex in Hxe. apply Hfa in Hxf.
    destruct Hxe as [Hxe|(t & l & Hin & <- & Hc)];
      destruct Hxf as [Hxf|(t2 & l2 & Hin2 & Hid2 & Hful2 & Hreq2)].
    + by apply (Hdisj x).
    + subst x. destruct (Hzip _ _ Hin2) as [Ht2 _].
      by destruct (Hfr t2 Ht2) as (_ & ? & _).
    + destruct (Hzip _ _ Hin) as [Ht _].
      by destruct (Hfr t Ht) as (_ & _ & ? & _).
    + destruct (zip_unique fr ls _ _ _ _ Hndfr Hin Hin2) as [-> ->]; [done|].
      destruct Hc; congruence.
  - (* instances *)
    intros t Ht. apply Hsome3, Hsome2, Hsome1. by apply (inv_inst _ _ _ _ HI).
  - (* resolved *)
    intros t r Hev. rewrite !elem_of_app in Hev. destruct Hev as [[Hev|Hev]|Hev].
    + apply Hevs2 in Hev as (t' & l & Hin & Hse).
      destruct (Hzip _ _ Hin) as [Ht' [o ->]].
      destruct o as [r'|e']; simpl in Hse; simplify_eq.
      split; [by apply Hfr|]. split.
      * apply Hex. right. exists t, (InFlight (inl r)). auto.
      * destruct (Hfinal _ _ Hin) as (ti2 & [Hs Hr] & Hlk). simpl in Hlk.
        exists ti2. done.
    + apply Hstarted1 in Hev as (? & ? & ?). done.
    + destruct (inv_resolved _ _ _ _ HI _ _ Hev) as (Ht & Hin & ti & Hti & Hs).
      split; [done|]. split; [apply Hex; by left|].
      exists ti. split; [|done]. rewrite Hsame; [done|].
      apply Hold. apply elem_of_app. by left.
  - (* rejected *)
    intros t e Hev. rewrite !elem_of_app in Hev. destruct Hev as [[Hev|Hev]|Hev].
    + apply Hevs2 in Hev as (t' & l & Hin & Hse).
      destruct (Hzip _ _ Hin) as [Ht' [o ->]].
      destruct o as [r'|e']; simpl in Hse; simplify_eq.
      split; [by apply Hfr|].
      destruct (Hfinal _ _ Hin) as (ti2 & Hs & Hlk). simpl in Hlk, Hs.
      destruct (t_required t) eqn:Hreq.
      * apply Hfa. right. exists t, (InFlight (inr e)). auto.
      * split.
        -- apply Hex. right. exists t, (InFlight (inr e)). auto.
        -- eexists. split; [exact Hlk|done].
    + apply Hstarted1 in Hev as (? & ? & ?). done.
    + destruct (inv_rejected _ _ _ _ HI _ _ Hev) as (Ht & Hrej).
      split; [done|]. destruct (t_required t).
      * apply Hfa. by left.
      * destruct Hrej as (Hin & ti & Hti & Hs). split; [apply Hex; by left|].
        exists ti. split; [|done]. rewrite Hsame; [done|].
        apply Hold. apply elem_of_app. by left.
  - (* started *)
    intros t snap Hev. rewrite !elem_of_app in Hev. destruct Hev as [[Hev|Hev]|Hev].
    + apply Hevs2 in Hev as (t' & l & Hin & Hse).
      destruct l as [[?|?]|?]; simpl in Hse; simplify_eq.
    + destruct (Hevs1 _ Hev) as (t' & snap' & Heq & Ht' & _). simplify_eq.
      split; [by apply Hfr|].
      destruct (round_sets te context fr L) as (_ & _ & Hres).
      destruct (round_unfold te context fr L)
        as (ts1' & env1' & ls' & ts2' & env2' & H1' & H2' & Hlen' & Hround).
      rewrite H1 in H1'. simplify_eq. rewrite H2 in H2'. simplify_eq.
      rewrite Hround in Hres. apply elem_of_app. by apply Hres.
    + destruct (inv_started _ _ _ _ HI _ _ Hev) as (Ht & Hin). split; [done|].
      apply elem_of_app. apply elem_of_app in Hin as [Hin|Hin].
      * left. apply Hex. by left.
      * right. apply Hfa. by left.
  - (* executed *)
    intros t Ht Hin. apply Hex in Hin as [Hin|(t' & l & Hzl & Hid & Hc)].
    + destruct (inv_executed _ _ _ _ HI t Ht Hin) as [[snap Hs] Hset]. split.
      * exists snap. rewrite !elem_of_app. auto.
      * destruct Hset as [[r Hr]|(e & He & Hreq)].
        -- left. exists r. rewrite !elem_of_app. auto.
        -- right. exists e. rewrite !elem_of_app. auto.
    + destruct (Hzip _ _ Hzl) as [Ht' [o ->]].
      assert (t' = t) as ->.
      { apply (tasks_unique tasks); auto. by apply Hfr. }
      split.
      * destruct (Hall1 t Ht') as [snap Hs]; [by apply Hinst|].
        exists snap. rewrite !elem_of_app. auto.
      * destruct o as [r|e].
        -- left. exists r. rewrite !elem_of_app. left. left.
           apply Hevs2. exists t, (InFlight (inl r)). done.
        -- right. exists e. destruct Hc as [Hc|Hc]; [done|]. split; [|done].
           rewrite !elem_of_app. left. left.
           apply Hevs2. exists t, (InFlight (inr e)). done.
  - (* failed *)
    intros t Ht Hin. apply Hfa in Hin as [Hin|(t' & l & Hzl & Hid & Hful & Hreq)].
    + destruct (inv_failed _ _ _ _ HI t Ht Hin) as ([snap Hs] & Hreq & e & He).
      split; [exists snap; rewrite !elem_of_app; auto|]. split; [done|].
      exists e. rewrite !elem_of_app. auto.
    + destruct (Hzip _ _ Hzl) as [Ht' [o ->]].
      assert (t' = t) as ->.
      { apply (tasks_unique tasks); auto. by apply Hfr. }
      split.
      * destruct (Hall1 t Ht') as [snap Hs]; [by apply Hinst|].
        exists snap. rewrite !elem_of_app. auto.
      * split; [done|]. destruct o as [r|e]; [done|].
        exists e. rewrite !elem_of_app. left. left.
        apply Hevs2. exists t, (InFlight (inr e)). done.
  - (* order *)
    rewrite <- app_assoc. apply ordered_app.
    + apply ordered_app; [by apply (inv_order _ _ _ _ HI)|].
      intros ev Hev. destruct (Hevs1 _ Hev) as (t & snap & -> & Ht & Hsnap).
      simpl. intros d Hd.
      destruct (Hfr t Ht) as (_ & _ & _ & Hdeps).
      destruct (terminal_of_executed _ _ _ d HI (Hdeps d Hd)) as [(ti & Hti & Hs) Hst].
      split; [|done]. exists ti. split; [|done].
      rewrite Hsnap; [done|]. apply Hold. apply elem_of_app. left. by apply Hdeps.
    + intros ev Hev. apply Hevs2 in Hev as (t & l & _ & Hse).
      destruct l as [[?|?]|?]; simpl in Hse; simplify_eq; done.
Qed.

End RoundInvariant.

(** ** The scheduling loop *)

Lemma init_taskStates_keeps (tasks : list Task) :
  forall (ts : gmap string TaskInstance) k,
    is_Some (ts !! k) -> is_Some (PhaseExecutor.init_taskStates tasks ts !! k).
Proof.
  unfold PhaseExecutor.init_taskStates.
  induction tasks as [|t rest IH]; intros ts k Hk; [done|].
  simpl. apply IH. unfold PhaseExecutor.init_task.
  destruct (ts !! t_id t) eqn:Ht; [done|].
  destruct (decide (t_id t = k)) as [<-|Hne].
  - rewrite lookup_insert_eq. eauto.
  - by rewrite lookup_insert_ne.
Qed.

Lemma init_taskStates_inst (tasks : list Task) :
  forall (ts : gmap string TaskInstance) t,
    t ∈ tasks -> is_Some (PhaseExecutor.init_taskStates tasks ts !! t_id t).
Proof.
  induction tasks as [|t0 rest IH]; intros ts t Ht.
  - by apply elem_of_nil in Ht.
  - apply elem_of_cons in Ht as [->|Ht].
    + unfold PhaseExecutor.init_taskStates. simpl.
      apply (init_taskStates_keeps rest). unfold PhaseExecutor.init_task.
      destruct (ts !! t_id t0) eqn:H0; [rewrite H0; eauto|].
      rewrite lookup_insert_eq. eauto.
    + unfold PhaseExecutor.init_taskStates. simpl. by apply IH.
Qed.

Lemma length_filter_strict {A} (P Q : A -> Prop)
      `{!forall x, Decision (P x)} `{!forall x, Decision (Q x)} (l : list A) (x : A) :
  (forall y, Q y -> P y) -> x ∈ l -> P x -> ~ Q x ->
  (List.length (filter Q l) < List.length (filter P l))%nat.
Proof.
  intros HQP Hx HP HQ.
  assert (Hle : forall k : list A, (List.length (filter Q k) <= List.length (filter P k))%nat).
  { induction k as [|a k IH]; [done|]. rewrite !filter_cons.
    destruct (decide (Q a)) as [Hq|Hq].
    - destruct (decide (P a)) as [Hp|Hp]; [simpl; lia|]. exfalso. auto.
    - destruct (decide (P a)); simpl; lia. }
  induction l as [|a l IH]; [by apply elem_of_nil in Hx|].
  rewrite !filter_cons. apply elem_of_cons in Hx as [<-|Hx].
  - destruct (decide (Q x)); [done|]. destruct (decide (P x)); [|done].
    simpl. specialize (Hle l). lia.
  - specialize (IH Hx). destruct (decide (Q a)) as [Hq|Hq].
    + destruct (decide (P a)) as [Hp|Hp]; [simpl; lia|]. exfalso. auto.
    + destruct (decide (P a)); simpl; lia.
Qed.

Section Schedule.
Context {E : Type} (te : ITaskExecutor E) (context : PhaseContext).
Local Abbreviation tasks := (p_tasks (pc_phase context)).

Lemma round_pending (L : Loop E) :
  let fr := PhaseExecutor.tasksToExecute tasks (executedTasks L) (failedTasks L) in
  let L' := PhaseExecutor.round te context fr L in
  fr <> [] ->
  (List.length (PhaseExecutor.pendingTasks tasks (executedTasks L') (failedTasks L'))
   < List.length (PhaseExecutor.pendingTasks tasks (executedTasks L) (failedTasks L)))%nat.
Proof.
  intros fr L' Hne.
  destruct (round_sets te context fr L) as (Hex & Hfa & Hres). fold L' in Hex, Hfa, Hres.
  destruct fr as [|t fr'] eqn:Hfr; [done|].
  assert (Ht : t ∈ PhaseExecutor.tasksToExecute tasks (executedTasks L) (failedTasks L)).
  { fold fr. rewrite Hfr. by left. }
  apply elem_of_tasksToExecute in Ht as [Ht Hready]. apply ready_true in Hready.
  unfold PhaseExecutor.pendingTasks.
  apply (length_filter_strict _ _ _ t); auto.
  - intros y. rewrite !Is_true_true, !unresolved_true. intros [H1 H2]. split.
    + intros H. apply H1. by apply Hex.
    + intros H. apply H2. by apply Hfa.
  - rewrite Is_true_true, unresolved_true. tauto.
  - rewrite Is_true_true, unresolved_true. intros [H1 H2].
    destruct (Hres t) as [|]; [by left|done|done].
Qed.

(** The loop terminates: enough fuel always gives a result. *)
Lemma schedule_total (fuel : nat) :
  forall L : Loop E,
    (List.length (PhaseExecutor.pendingTasks tasks (executedTasks L) (failedTasks L))
     < fuel)%nat ->
    is_Some (PhaseExecutor.schedule te fuel context L).
Proof.
  induction fuel as [|fuel IH]; intros L Hlt; [lia|].
  cbn [PhaseExecutor.schedule].
  destruct (_ <? _)%nat; [|eauto].
  destruct (List.length _ =? 0)%nat eqn:Hfr.
  - destruct (0 <? _)%nat; eauto.
  - apply IH. apply Nat.eqb_neq in Hfr.
    pose proof (round_pending L) as Hdec. simpl in Hdec.
    assert (PhaseExecutor.tasksToExecute tasks (executedTasks L) (failedTasks L) <> []).
    { intros Heq. rewrite Heq in Hfr. done. }
    specialize (Hdec H). lia.
Qed.

Hypothesis tasks_nodup : NoDup (ids tasks).

Lemma schedule_inv (fuel : nat) h0 :
  forall (L : Loop E) evs L' thrown,
    Inv tasks h0 evs L ->
    PhaseExecutor.schedule te fuel context L = Some (L', thrown) ->
    exists new, Inv tasks h0 (new ++ evs) L' /\ loop_exit context L' thrown.
Proof.
  induction fuel as [|fuel IH]; intros L evs L' thrown HI Hrun; [done|].
  cbn [PhaseExecutor.schedule] in Hrun.
  destruct (_ <? _)%nat eqn:Hcond.
  - destruct (List.length _ =? 0)%nat eqn:Hfr.
    + apply Nat.eqb_eq in Hfr. apply nil_length_inv in Hfr.
      destruct (0 <? _)%nat eqn:Hpend; simplify_eq.
      * exists []. split; [done|]. simpl. split; [done|]. split; [|done].
        apply Nat.ltb_lt in Hpend. intros Heq. rewrite Heq in Hpend. simpl in Hpend. lia.
      * exists []. split; [done|]. simpl. intros t Ht.
        apply Nat.ltb_ge in Hpend.
        assert (Hnil : PhaseExecutor.pendingTasks tasks (executedTasks L') (failedTasks L') = []).
        { apply nil_length_inv. lia. }
        destruct (decide (t_id t ∈ executedTasks L')) as [|Hne]; [by left|].
        destruct (decide (t_id t ∈ failedTasks L')) as [|Hnf]; [by right|].
        exfalso. assert (Hin : t ∈ PhaseExecutor.pendingTasks tasks (executedTasks L') (failedTasks L')).
        { apply elem_of_pendingTasks. done. }
        rewrite Hnil in Hin. by apply elem_of_nil in Hin.
    + destruct (round_inv te context tasks tasks_nodup h0 evs L HI) as [new1 HI1].
      destruct (IH _ _ _ _ HI1 Hrun) as (new2 & HI2 & Hexit).
      exists (new2 ++ new1). rewrite <- app_assoc. done.
  - simplify_eq. exists []. split; [done|]. simpl.
    apply Nat.ltb_ge in Hcond.
    pose proof (inv_nodup _ _ _ _ HI) as Hnd.
    pose proof (inv_ids _ _ _ _ HI) as Hids.
    assert (Hperm : executedTasks L' ++ failedTasks L' ≡ₚ ids tasks).
    { apply submseteq_length_Permutation.
      - by apply NoDup_submseteq.
      - rewrite length_app. unfold ids. rewrite length_fmap. done. }
    intros t Ht. apply elem_of_app. rewrite Hperm. apply elem_of_ids. eauto.
Qed.

(** [executePhase] always returns; its result is the loop's final state
    passed through the checks that follow the loop. *)
Lemma executePhase_run (env : Env (PX E)) :
  exists L thrown evs,
    PhaseExecutor.executePhase te context env
    = Some (l_taskStates L, l_env L, after_loop context L thrown) /\
    Inv tasks (history (ext env)) evs L /\
    loop_exit context L thrown.
Proof.
  set (L0 := mkLoop (PhaseExecutor.init_taskStates tasks
                       (pi_taskStates (pc_phaseInstance context))) env [] []).
  destruct (schedule_total (S (List.length tasks)) L0) as [[L thrown] Hrun].
  { apply Nat.lt_succ_r. unfold PhaseExecutor.pendingTasks. apply length_filter. }
  assert (HI0 : Inv tasks (history (ext env)) [] L0).
  { constructor; simpl; try done.
    - intros x Hx. by apply elem_of_nil in Hx.
    - apply NoDup_nil_2.
    - intros t Ht. by apply init_taskStates_inst.
    - intros t r H. by apply elem_of_nil in H.
    - intros t e H. by apply elem_of_nil in H.
    - intros t s H. by apply elem_of_nil in H.
    - intros t _ H. by apply elem_of_nil in H.
    - intros t _ H. by apply elem_of_nil in H. }
  destruct (schedule_inv _ _ _ _ _ _ HI0 Hrun) as (new & HI & Hexit).
  rewrite app_nil_r in HI.
  exists L, thrown, new. split; [|done].
  unfold PhaseExecutor.executePhase. fold L0. rewrite Hrun.
  unfold after_loop. destruct thrown; [done|].
  destruct (0 <? _)%nat; [done|]. by destruct (PhaseExecutor.validatePhaseCompletion _ _).
Qed.

End Schedule.

Lemma executePhase_returns {E : Type} (te : ITaskExecutor E) (context : PhaseContext)
      (env : Env (PX E)) :
  is_Some (PhaseExecutor.executePhase te context env).
Proof.
  unfold PhaseExecutor.executePhase.
  destruct (schedule_total te context (S (List.length (p_tasks (pc_phase context))))
              (mkLoop (PhaseExecutor.init_taskStates (p_tasks (pc_phase context))
                         (pi_taskStates (pc_phaseInstance context))) env [] []))
    as [[L thrown] ->].
  { apply Nat.lt_succ_r. unfold PhaseExecutor.pendingTasks. apply length_filter. }
  destruct thrown; [eauto|]. destruct (0 <? _)%nat; [eauto|].
  destruct (PhaseExecutor.validatePhaseCompletion _ _); eauto.
Qed.

(** ** Consequences of the invariant *)

Lemma acyclic_spec (rank : string -> nat) (tasks : list Task) :
  acyclic rank tasks = true ->
  forall t, t ∈ tasks -> forall d, d ∈ PhaseExecutor.dependencies t ->
    (rank d < rank (t_id t))%nat /\ d ∈ ids tasks.
Proof.
  unfold acyclic. rewrite forallb_forall. intros H t Ht d Hd.
  apply list_elem_of_In in Ht. specialize (H t Ht).
  rewrite forallb_forall in H. apply list_elem_of_In in Hd. specialize (H d Hd).
  apply andb_true_iff in H as [H1 H2]. apply Nat.ltb_lt in H1. apply has_true in H2. done.
Qed.

Lemma blocked_spec (tasks : list Task) (S : list string) :
  blocked tasks S = true ->
  (exists t, t ∈ tasks /\ t_id t ∈ S) /\
  (forall t, t ∈ tasks -> t_id t ∈ S ->
             exists d, d ∈ PhaseExecutor.dependencies t /\ d ∈ S).
Proof.
  unfold blocked. rewrite andb_true_iff, existsb_exists, forallb_forall.
  intros [(t & Hin & Ht) Hall]. split.
  - exists t. split; [by apply list_elem_of_In|by apply has_true].
  - intros t' Ht' HS. apply list_elem_of_In in Ht'. specialize (Hall t' Ht').
    apply has_true in HS. rewrite HS in Hall. simpl in Hall.
    apply existsb_exists in Hall as (d & Hd & HdS).
    exists d. split; [by apply list_elem_of_In|by apply has_true].
Qed.

Section Consequences.
Context {E : Type} (tasks : list Task).
Hypothesis tasks_nodup : NoDup (ids tasks).
Variables (h0 evs : list Event) (L : Loop E).
Hypothesis HI : Inv tasks h0 evs L.

Lemma started_of_resolved_set t :
  t ∈ tasks -> t_id t ∈ executedTasks L \/ t_id t ∈ failedTasks L ->
  exists snap, Started t snap ∈ evs.
Proof.
  intros Ht [H|H].
  - by destruct (inv_executed _ _ _ _ HI t Ht H) as [? _].
  - by destruct (inv_failed _ _ _ _ HI t Ht H) as [? _].
Qed.

Lemma not_started_pending t :
  t ∈ tasks -> (forall snap, Started t snap ∉ evs) ->
  (t_id t ∉ executedTasks L) /\ (t_id t ∉ failedTasks L).
Proof.
  intros Ht Hns. split; intros H.
  - destruct (started_of_resolved_set t Ht) as [snap Hs]; [by left|]. by apply (Hns snap).
  - destruct (started_of_resolved_set t Ht) as [snap Hs]; [by right|]. by apply (Hns snap).
Qed.

Lemma failed_characterised x :
  x ∈ failedTasks L <->
  exists t e, Rejected t e ∈ evs /\ t_required t = true /\ t_id t = x.
Proof.
  split.
  - intros Hx.
    assert (Hid : x ∈ ids tasks).
    { apply (inv_ids _ _ _ _ HI). apply elem_of_app. by right. }
    apply elem_of_ids in Hid as (t & Ht & <-).
    destruct (inv_failed _ _ _ _ HI t Ht Hx) as (_ & Hreq & e & He). eauto.
  - intros (t & e & He & Hreq & <-).
    destruct (inv_rejected _ _ _ _ HI _ _ He) as (_ & H). by rewrite Hreq in H.
Qed.


Lemma blocked_never_started (S : list string) :
  blocked tasks S = true -> forall t snap, Started t snap ∈ evs -> t_id t ∉ S.
Proof.
  intros Hb. apply blocked_spec in Hb as [_ Hdeps].
  assert (Hmem : forall ev, ev ∈ evs -> ev ∈ evs) by auto.
  pose proof (inv_order _ _ _ _ HI) as Hord.
  revert Hmem Hord. generalize evs at 1 3 4 as l.
  induction l as [|ev earlier IH]; intros Hmem Hord t snap Hin HS.
  - by apply elem_of_nil in Hin.
  - simpl in Hord. destruct Hord as [Hok Hord].
    assert (Hmem' : forall ev', ev' ∈ earlier -> ev' ∈ evs).
    { intros ev' H. apply Hmem. by right. }
    apply elem_of_cons in Hin as [<-|Hin]; [|by apply (IH Hmem' Hord t snap)].
    assert (Ht : t ∈ tasks).
    { by destruct (inv_started _ _ _ _ HI t snap (Hmem _ ltac:(by left))). }
    destruct (Hdeps t Ht HS) as (d & Hd & HdS).
    simpl in Hok. destruct (Hok d Hd) as [_ (t' & snap' & Hin' & <-)].
    by apply (IH Hmem' Hord t' snap').
Qed.

Variable context : PhaseContext.
Hypothesis tasks_eq : p_tasks (pc_phase context) = tasks.
Variable thrown : option Err.
Hypothesis Hexit : loop_exit context L thrown.

Lemma unstarted_blocks t :
  t ∈ tasks -> (forall snap, Started t snap ∉ evs) ->
  thrown = Some (scheduling_error context
                   (ids (PhaseExecutor.pendingTasks tasks (executedTasks L) (failedTasks L)))
                   (failedTasks L)).
Proof.
  intros Ht Hns. unfold loop_exit in Hexit. rewrite tasks_eq in Hexit.
  destruct thrown as [err|].
  - destruct Hexit as (_ & _ & ->). done.
  - exfalso. destruct (started_of_resolved_set t Ht (Hexit t Ht)) as [snap Hs].
    by apply (Hns snap).
Qed.


Lemma no_required_rejection_succeeds (rank : string -> nat) :
  acyclic rank tasks = true ->
  (forall t e, Rejected t e ∈ evs -> t_required t = false) ->
  after_loop context L thrown = None /\
  PhaseExecutor.validatePhaseCompletion (pc_phase context) (l_taskStates L) = true.
Proof.
  intros Hacyc Hopt.
  assert (Hnofail : failedTasks L = []).
  { destruct (failedTasks L) as [|x l] eqn:Hf; [done|]. exfalso.
    assert (Hx : x ∈ failedTasks L) by (rewrite Hf; by left).
    apply failed_characterised in Hx as (t & e & He & Hreq & _).
    rewrite (Hopt _ _ He) in Hreq. done. }
  assert (Hall : forall t, t ∈ tasks -> t_id t ∈ executedTasks L).
  { unfold loop_exit in Hexit. rewrite tasks_eq in Hexit.
    destruct thrown as [err|].
    - destruct Hexit as (Hfr & _ & _).
      assert (Hrank : forall n t, t ∈ tasks -> (rank (t_id t) < n)%nat ->
                                  t_id t ∈ executedTasks L).
      { induction n as [|n IHn]; intros t Ht Hlt; [lia|].
        assert (Hdeps : forall d, d ∈ PhaseExecutor.dependencies t -> d ∈ executedTasks L).
        { intros d Hd. destruct (acyclic_spec _ _ Hacyc t Ht d Hd) as [Hr Hid].
          apply elem_of_ids in Hid as (t' & Ht' & <-). apply IHn; [done|lia]. }
        destruct (decide (t_id t ∈ executedTasks L)) as [|Hne]; [done|]. exfalso.
        assert (Hin : t ∈ PhaseExecutor.tasksToExecute tasks (executedTasks L) (failedTasks L)).
        { apply elem_of_tasksToExecute. split; [done|]. apply ready_true.
          rewrite Hnofail. split; [done|]. split; [apply not_elem_of_nil|done]. }
        rewrite Hfr in Hin. by apply elem_of_nil in Hin. }
      intros t Ht. by apply (Hrank (S (rank (t_id t)))); [|lia].
    - intros t Ht. destruct (Hexit t Ht) as [|H]; [done|].
      rewrite Hnofail in H. by apply elem_of_nil in H. }
  assert (Hvalid : PhaseExecutor.validatePhaseCompletion (pc_phase context) (l_taskStates L) = true).
  { unfold PhaseExecutor.validatePhaseCompletion. rewrite tasks_eq.
    apply forallb_forall. intros t Ht. apply list_elem_of_In in Ht.
    apply list_elem_of_filter in Ht as [Hreq Ht]. apply Is_true_true in Hreq.
    destruct (inv_executed _ _ _ _ HI t Ht (Hall t Ht)) as [_ [[r Hr]|(e & He & Hne)]].
    - destruct (inv_resolved _ _ _ _ HI _ _ Hr) as (_ & _ & ti & -> & Hst & _).
      by apply bool_decide_eq_true.
    - congruence. }
  split; [|done].
  unfold after_loop. unfold loop_exit in Hexit. rewrite tasks_eq in Hexit.
  destruct thrown as [err|].
  - exfalso. destruct Hexit as (_ & Hpend & _). apply Hpend.
    destruct (PhaseExecutor.pendingTasks tasks (executedTasks L) (failedTasks L))
      as [|t l] eqn:Hp; [done|]. exfalso.
    assert (Hin : t ∈ PhaseExecutor.pendingTasks tasks (executedTasks L) (failedTasks L))
      by (rewrite Hp; by left).
    apply elem_of_pendingTasks in Hin as (Ht & Hne & _). by apply Hne, Hall.
  - rewrite Hnofail. simpl. by rewrite Hvalid.
Qed.

End Consequences.

(** ** PhaseExecutor: the claims *)

Section PhaseExecutorClaims.
Context {E : Type} (te : ITaskExecutor E) (context : PhaseContext) (env : Env (PX E)).
Local Abbreviation tasks := (p_tasks (pc_phase context)).
Hypothesis tasks_nodup : NoDup (ids tasks).

Lemma executePhase_facts :
  exists L thrown evs,
    runs te context env (l_taskStates L) (l_env L) (after_loop context L thrown) evs /\
    Inv tasks (history (ext env)) evs L /\
    loop_exit context L thrown.
Proof.
  destruct (executePhase_run te context tasks_nodup env)
    as (L & thrown & evs & Hrun & HI & Hexit).
  exists L, thrown, evs. split; [|done]. split; [done|]. apply (inv_hist _ _ _ _ HI).
Qed.

(** C2.  During [PhaseExecutor.executePhase] (task ids of the phase being
    pairwise distinct) a task is handed to [TaskExecutor.executeTask] and
    marked running only when every declared dependency is in state
    [completed] or [skipped] and has itself been started earlier in the
    same execution; so in a chain A -> B -> C, A starts before B and B
    before C. *)
Theorem C2_dependencies_terminal_before_start : starts_after_dependencies te context env.
Proof.
  destruct executePhase_facts as (L & thrown & evs & Hrun & HI & _).
  exists (l_taskStates L), (l_env L), (after_loop context L thrown), evs.
  split; [done|].
  intros later task snapshot earlier Hsplit.
  apply (ordered_split evs later earlier); [apply (inv_order _ _ _ _ HI)|done].
Qed.


(** C4 (amended).  Whenever the frontier is empty while unresolved tasks
    remain, the loop of [executePhase] stops with the scheduling
    [PhaseExecutionError] that names the unresolved task ids and the
    failed task ids; [executePhase] ends that way as soon as some task is
    never started.  For a phase (task ids pairwise distinct) with a set
    of tasks each of which waits for a task of the set, in particular
    the tasks on a dependency cycle, no task of that set is ever started
    and the scheduling error lists them all as unresolved; when every
    task of the phase is in the set, the error is raised before any task
    runs. *)
Theorem C4_deadlock_reported : deadlock_reported te context env.
Proof.
  split.
  - intros L fuel Hnd Hids Hfr Hpend.
    cbn [PhaseExecutor.schedule]. rewrite Hfr. simpl.
    destruct (PhaseExecutor.pendingTasks tasks (executedTasks L) (failedTasks L))
      as [|t l] eqn:Hp; [done|]. simpl.
    assert (Hin : t ∈ PhaseExecutor.pendingTasks tasks (executedTasks L) (failedTasks L))
      by (rewrite Hp; by left).
    apply elem_of_pendingTasks in Hin as (Ht & Hne & Hnf).
    assert (Hlt : (List.length (executedTasks L) + List.length (failedTasks L)
                   < List.length tasks)%nat).
    { assert (Hsub : t_id t :: (executedTasks L ++ failedTasks L) ⊆+ ids tasks).
      { apply NoDup_submseteq.
        - apply NoDup_cons. split; [|done]. rewrite elem_of_app. tauto.
        - intros x Hx. apply elem_of_cons in Hx as [->|Hx]; [|by apply Hids].
          apply elem_of_ids. eauto. }
      apply submseteq_length in Hsub. simpl in Hsub.
      rewrite length_app in Hsub. unfold ids in Hsub. rewrite length_fmap in Hsub. lia. }
    apply Nat.ltb_lt in Hlt. rewrite Hlt. done.
  - destruct executePhase_facts as (L & thrown & evs & Hrun & HI & Hexit).
    exists (l_taskStates L), (l_env L), (after_loop context L thrown), evs.
    split; [done|]. split.
    + intros (t & Ht & Hns).
      rewrite (unstarted_blocks tasks _ _ _ HI context eq_refl thrown Hexit t Ht Hns).
      simpl. eexists _, _. split; [done|]. split.
      * intros x. rewrite elem_of_ids. split.
        -- intros (t' & Hin & <-). apply elem_of_pendingTasks in Hin as (Ht' & Hne & Hnf).
           exists t'. split; [done|]. split; [done|]. intros snap Hs.
           destruct (inv_started _ _ _ _ HI _ _ Hs) as [_ Hin].
           apply elem_of_app in Hin as [|]; done.
        -- intros (t' & Ht' & <- & Hns'). exists t'. split; [|done].
           apply elem_of_pendingTasks. split; [done|].
           by apply (not_started_pending tasks _ _ _ HI).
      * apply (failed_characterised tasks _ _ _ HI).
    + intros S Hb.
      pose proof (blocked_never_started tasks _ _ _ HI S Hb) as Hnever.
      destruct (blocked_spec _ _ Hb) as [(t0 & Ht0 & HS0) _].
      assert (Hns0 : forall snap, Started t0 snap ∉ evs).
      { intros snap Hs. by apply (Hnever _ _ Hs). }
      split; [done|]. split.
      * rewrite (unstarted_blocks tasks _ _ _ HI context eq_refl thrown Hexit t0 Ht0 Hns0).
        simpl. eexists _, _. split; [done|].
        intros t Ht HS. apply elem_of_ids. exists t. split; [|done].
        apply elem_of_pendingTasks. split; [done|].
        apply (not_started_pending tasks _ _ _ HI); [done|].
        intros snap Hs. by apply (Hnever _ _ Hs).
      * intros Hall. destruct evs as [|ev evs']; [done|]. exfalso.
        assert (Hsome : exists t snap, Started t snap ∈ ev :: evs').
        { destruct ev as [t snap|t r|t e].
          - exists t, snap. by left.
          - destruct (inv_resolved _ _ _ _ HI t r) as (Ht & Hin & _); [by left|].
            destruct (inv_executed _ _ _ _ HI t Ht Hin) as [[snap Hs] _]. eauto.
          - destruct (inv_rejected _ _ _ _ HI t e) as (Ht & Hin); [by left|].
            destruct (t_required t).
            + destruct (inv_failed _ _ _ _ HI t Ht Hin) as [[snap Hs] _]. eauto.
            + destruct Hin as [Hin _].
              destruct (inv_executed _ _ _ _ HI t Ht Hin) as [[snap Hs] _]. eauto. }
        destruct Hsome as (t & snap & Hs).
        apply (Hnever _ _ Hs), Hall.
        by destruct (inv_started _ _ _ _ HI _ _ Hs).
Qed.


End PhaseExecutorClaims.

Lemma C2_witness :
  starts_after_dependencies theTaskExecutor
    (Fixtures.test_context Fixtures.test_phase) (Fixtures.env0 tt).
Proof. apply C2_dependencies_terminal_before_start. compute_done. Defined.


Lemma C4_witness :
  deadlock_reported theTaskExecutor
    (Fixtures.test_context PEFixtures.cyclic_phase) (Fixtures.env0 tt).
Proof. apply C4_deadlock_reported. compute_done. Defined.


(** The dependency chain of the unit test runs in the order task1, task2,
    task3 (the history is newest first). *)
Example chain_runs_in_dependency_order :
  exists ts' env',
    PhaseExecutor.executePhase theTaskExecutor
      (Fixtures.test_context Fixtures.test_phase) (Fixtures.env0 tt)
    = Some (ts', env', None) /\
    map (fun ev => match ev with
                   | Started t _ => ("started", t_id t)
                   | Resolved t _ => ("resolved", t_id t)
                   | Rejected t _ => ("rejected", t_id t)
                   end) (history (ext env'))
    = [ ("resolved", "task3"); ("started", "task3");
        ("resolved", "task2"); ("started", "task2");
        ("resolved", "task1"); ("started", "task1") ]%string.
Proof. eexists _, _. split; vm_compute; reflexivity. Qed.

(** The optional task of the unit test rejects: it ends skipped, task3,
    which depends on it, still runs, and the phase succeeds. *)
Example optional_failure_is_skipped :
  exists ts' env' task2 task3,
    PhaseExecutor.executePhase (PEFixtures.rejecting "task2")
      (Fixtures.test_context Fixtures.test_phase) (Fixtures.env0 tt)
    = Some (ts', env', None) /\
    ts' !! "task2"%string = Some task2 /\ ti_state task2 = task_skipped /\
    ts' !! "task3"%string = Some task3 /\ ti_state task3 = task_completed.
Proof. eexists _, _, _, _. split; [vm_compute; reflexivity|]. repeat split. Qed.

(** The required task of the unit test rejects: the phase fails and the
    error carries its id. *)
Example required_failure_fails_the_phase :
  exists ts' env',
    PhaseExecutor.executePhase (PEFixtures.rejecting "task1")
      (Fixtures.test_context Fixtures.test_phase) (Fixtures.env0 tt)
    = Some (ts', env',
            Some (scheduling_error (Fixtures.test_context Fixtures.test_phase)
                                   ["task2"; "task3"]%string ["task1"]%string)).
Proof. eexists _, _. vm_compute. reflexivity. Qed.

(** The circular phase of the unit test: the scheduling error comes
    before any task has run. *)
Example circular_phase_runs_nothing :
  exists ts' env',
    PhaseExecutor.executePhase theTaskExecutor
      (Fixtures.test_context PEFixtures.cyclic_phase) (Fixtures.env0 tt)
    = Some (ts', env',
            Some (scheduling_error (Fixtures.test_context PEFixtures.cyclic_phase)
                                   ["task1"; "task2"]%string [])) /\
    history (ext env') = [].
Proof. eexists _, _. split; vm_compute; reflexivity. Qed.

(** A rejected approval: the task executor resolves with status
    [rejected], [validateTaskResult] would refuse that result, and still
    the task instance is completed and the phase succeeds. *)
Example rejected_approval_still_completes :
  exists ts' env' ti,
    PhaseExecutor.executePhase theTaskExecutor PEFixtures.approval_context (Fixtures.env0 tt)
    = Some (ts', env', None) /\
    ts' !! "sign-off"%string = Some ti /\
    ti_state ti = task_completed /\
    get (ti_result ti) "status" = JStr "rejected" /\
    TaskExecutor.validateTaskResult
      (mkTaskContext (Some PEFixtures.approval_context)
                     (Fixtures.task "sign-off" "approval" true None) ti
                     PEFixtures.rejecting_metadata)
    = JBool false /\
    PhaseExecutor.validatePhaseCompletion PEFixtures.approval_phase ts' = true.
Proof. eexists _, _, _. split; [vm_compute; reflexivity|]. repeat split. Qed.

(** ** The scheduling error is not raised before every task: a cycle next
    to an independent task *)

(** Counterexample to C4 as stated: the phase contains the cycle a <-> b,
    the scheduling error is raised, and yet task x ran to completion
    before it. *)
Lemma C4_counterexample :
  blocked (p_tasks PEFixtures.partly_cyclic_phase) ["a"; "b"]%string = true /\
  exists ts' env',
    PhaseExecutor.executePhase theTaskExecutor
      (Fixtures.test_context PEFixtures.partly_cyclic_phase) (Fixtures.env0 tt)
    = Some (ts', env',
            Some (scheduling_error (Fixtures.test_context PEFixtures.partly_cyclic_phase)
                                   ["a"; "b"]%string [])) /\
    (exists snapshot,
        Started (Fixtures.task "x" "automated" true None) snapshot ∈ history (ext env')) /\
    (exists ti, ts' !! "x"%string = Some ti /\ ti_state ti = task_completed).
Proof.
  split; [reflexivity|].
  eexists _, _. split; [vm_compute; reflexivity|]. split.
  - eexists. simpl. right. left.
  - eexists. split; [vm_compute; reflexivity|reflexivity].
Qed.

(** ** rollbackPhase *)

(** C9.  [rollbackPhase] sets the phase instance to [rolled_back]; every
    task instance in state [completed] goes back to [pending] with result
    and error cleared; every other task instance is unchanged; no retry
    counter, of the phase or of a task, changes. *)
Theorem C9_rollbackPhase (context : PhaseContext) :
  let before := pc_phaseInstance context in
  let after := PhaseExecutor.rollbackPhase context in
  pi_state after = phase_rolled_back /\
  pi_retryCount after = pi_retryCount before /\
  pi_phaseId after = pi_phaseId before /\
  forall id : string,
    match pi_taskStates before !! id with
    | None => pi_taskStates after !! id = None
    | Some ti =>
        exists ti', pi_taskStates after !! id = Some ti' /\
                    ti_retryCount ti' = ti_retryCount ti /\
                    if decide (ti_state ti = task_completed)
                    then ti' = mkTaskInstance (ti_taskId ti) task_pending
                                 (ti_startedAt ti) (ti_completedAt ti)
                                 JUndefined None (ti_retryCount ti)
                    else ti' = ti
    end.
Proof.
  simpl. repeat split; auto.
  intros id. unfold PhaseExecutor.rollbackPhase. simpl. rewrite lookup_fmap.
  destruct (pi_taskStates (pc_phaseInstance context) !! id) as [ti|]; simpl; [|done].
  eexists. split; [done|]. unfold PhaseExecutor.rollback_task.
  destruct (decide (ti_state ti = task_completed)); done.
Qed.

(** ** validateTaskResult *)

(** Counterexample to C8 as stated: an automated task whose result has
    status [completed] is rejected by the code and accepted by the
    specified check. *)
Lemma C8_counterexample :
  let context :=
    mkTaskContext None (Fixtures.task "task1" "automated" true None)
      (mkTaskInstance "task1" task_completed None None
                      (JObj [("status", JStr "completed")]%string) None 0)
      JUndefined in
  TaskExecutor.validateTaskResult context = JBool false /\
  spec_validateTaskResult (t_type (tc_task context))
                          (ti_result (tc_taskInstance context)) = true.
Proof. split; reflexivity. Qed.

(** C8 (amended).  [validateTaskResult] returns [false] when the task
    instance has no result.  Otherwise, for every task type but [manual],
    it returns [true] exactly when the result passes the check of the task
    type: [automated] requires status [success]; [review] requires
    [approved] or [passed]; [approval] requires [approved]; any other type
    requires [success] or [completed].  For a [manual] task it returns
    [false] when the status is not [success]. *)
Theorem C8_validateTaskResult (context : TaskContext) :
  let type := t_type (tc_task context) in
  let result := ti_result (tc_taskInstance context) in
  (truthy result = false -> TaskExecutor.validateTaskResult context = JBool false) /\
  (type <> "manual"%string ->
   TaskExecutor.validateTaskResult context
   = JBool (amended_validateTaskResult type result)) /\
  (type = "manual"%string ->
   is_str (get result "status") "success" = false ->
   TaskExecutor.validateTaskResult context = JBool false).
Proof.
  cbv zeta. unfold TaskExecutor.validateTaskResult, amended_validateTaskResult.
  split; [by intros ->|]. split.
  - intros Hmanual.
    destruct (negb (truthy _)); [done|].
    destruct (String.eqb (t_type (tc_task context)) "automated"); [done|].
    destruct (String.eqb_spec (t_type (tc_task context)) "manual") as [Hm|_]; [done|].
    destruct (String.eqb (t_type (tc_task context)) "review"); [done|].
    by destruct (String.eqb (t_type (tc_task context)) "approval").
  - intros -> Hstatus. destruct (negb (truthy _)); [done|].
    simpl. rewrite Hstatus. done.
Qed.

Lemma C8_witness :
  TaskExecutor.validateTaskResult
    (mkTaskContext None (Fixtures.task "task1" "approval" true None)
       (mkTaskInstance "task1" task_completed None None
                       (JObj [("status", JStr "rejected")]%string) None 0)
       JUndefined)
  = JBool false.
Proof.
  exact (proj1 (proj2 (C8_validateTaskResult
           (mkTaskContext None (Fixtures.task "task1" "approval" true None)
              (mkTaskInstance "task1" task_completed None None
                              (JObj [("status", JStr "rejected")]%string) None 0)
              JUndefined)))
           ltac:(discriminate)).
Defined.

(** In the [manual] arm with status [success] the returned value is the
    [completedBy] field itself, not the boolean the unit tests expect
    ([toBe(true)]). *)
Lemma validateTaskResult_manual_returns_completedBy :
  TaskExecutor.validateTaskResult
    (mkTaskContext None (Fixtures.task "task1" "manual" true None)
       (mkTaskInstance "task1" task_completed None None
          (JObj [("status", JStr "success"); ("completedBy", JStr "user1")]%string) None 0)
       JUndefined)
  = JStr "user1".
Proof. reflexivity. Qed.

(** ** StateMachine: relations kept by every operation *)

Section Preserves.
Context {X : Type}.
Variable R : SM X -> SM X -> Prop.
Hypothesis R_refl : forall s, R s s.
Hypothesis R_trans : forall a b c, R a b -> R b c -> R a c.
Hypothesis R_log :
  forall s e, R s (mkSM (instances s) (e :: log s) (uuids s) (env s)).
Hypothesis R_env :
  forall s env', R s (mkSM (instances s) (log s) (uuids s) env').
Hypothesis R_alter :
  forall s iid f, frame_safe f ->
                  R s (mkSM (alter f iid (instances s)) (log s) (uuids s) (env s)).

Lemma preserves_ret {A} (a : A) : preserves R (StateMachine.ret a).
Proof. intros s r s' H. unfold StateMachine.ret in H. by simplify_eq. Qed.

Lemma preserves_throw {A} (e : Err) : preserves R (StateMachine.throw (A:=A) e).
Proof. intros s r s' H. unfold StateMachine.throw in H. by simplify_eq. Qed.

Lemma preserves_out_of_fuel {A} : preserves R (StateMachine.out_of_fuel (A:=A)).
Proof. intros s r s' H. unfold StateMachine.out_of_fuel in H. by simplify_eq. Qed.

Lemma preserves_gets {A} (f : SM X -> A) : preserves R (StateMachine.gets f).
Proof. intros s r s' H. unfold StateMachine.gets in H. by simplify_eq. Qed.

Lemma preserves_required {A} (o : option A) (e : Err) :
  preserves R (StateMachine.required o e).
Proof. destruct o; [apply preserves_ret|apply preserves_throw]. Qed.

Lemma preserves_bind {A B} (m : StateMachine.M A) (f : A -> StateMachine.M B) :
  preserves R m -> (forall a, preserves R (f a)) -> preserves R (StateMachine.bind m f).
Proof.
  intros Hm Hf s r s' H. unfold StateMachine.bind in H.
  destruct (m s) as [[a|e|] s1] eqn:Hms.
  - eapply R_trans; [by eapply Hm|by eapply Hf].
  - simplify_eq. by eapply Hm.
  - simplify_eq. by eapply Hm.
Qed.

Lemma preserves_try_catch {A} (m : StateMachine.M A) (h : Err -> StateMachine.M A) :
  preserves R m -> (forall e, preserves R (h e)) ->
  preserves R (StateMachine.try_catch m h).
Proof.
  intros Hm Hh s r s' H. unfold StateMachine.try_catch in H.
  destruct (m s) as [[a|e|] s1] eqn:Hms.
  - simplify_eq. by eapply Hm.
  - eapply R_trans; [by eapply Hm|by eapply Hh].
  - simplify_eq. by eapply Hm.
Qed.

Lemma preserves_log_info msg fields : preserves R (StateMachine.log_info (X:=X) msg fields).
Proof.
  intros s r s' H. unfold StateMachine.log_info, StateMachine.modify in H.
  simplify_eq. apply R_log.
Qed.

Lemma preserves_log_error msg fields e :
  preserves R (StateMachine.log_error (X:=X) msg fields e).
Proof.
  intros s r s' H. unfold StateMachine.log_error, StateMachine.modify in H.
  simplify_eq. apply R_log.
Qed.

Lemma preserves_now : preserves R (StateMachine.now (X:=X)).
Proof.
  intros s r s' H. unfold StateMachine.now, new_Date in H. simplify_eq. apply R_env.
Qed.

Lemma preserves_update_instance iid f :
  frame_safe f -> preserves R (StateMachine.update_instance (X:=X) iid f).
Proof.
  intros Hf s r s' H.
  unfold StateMachine.update_instance, StateMachine.modify, StateMachine.set_instances in H.
  simplify_eq. by apply R_alter.
Qed.

Lemma frame_safe_phase pid (g : PhaseInstance -> PhaseInstance) :
  frame_safe (fun inst => wi_set_phaseStates (alter g pid (wi_phaseStates inst)) inst).
Proof.
  intros i. simpl. split; [done|]. split; [done|].
  apply dom_alter_L.
Qed.

Lemma preserves_update_phase iid pid g :
  preserves R (StateMachine.update_phase (X:=X) iid pid g).
Proof. apply preserves_update_instance, frame_safe_phase. Qed.

Variable randomUUID : nat -> string.
Variable phaseManager : IPhaseManager.
Variable transitionValidator : ITransitionValidator X.
Variable phaseExecutor : IPhaseExecutor X.
Variable persistence : option (IWorkflowPersistence X).
Variable config : IStateMachineConfig.

Lemma preserves_updateInstance iid :
  preserves R (StateMachine.updateInstance persistence config iid).
Proof.
  intros s r s' H. unfold StateMachine.updateInstance, StateMachine.await_store in H.
  destruct (enablePersistence config); [|by simplify_eq].
  destruct persistence; [|by simplify_eq].
  destruct (instances s !! iid); [|by simplify_eq].
  destruct (updateWorkflowInstance _ _ _ _) as [env' [e|]]; simplify_eq; apply R_env.
Qed.

Lemma preserves_completeWorkflow iid :
  preserves R (StateMachine.completeWorkflow persistence config iid).
Proof.
  unfold StateMachine.completeWorkflow.
  apply preserves_bind; [apply preserves_log_info|intros _].
  apply preserves_bind; [apply preserves_gets|intros [i|]]; [|apply preserves_ret].
  apply preserves_bind; [apply preserves_now|intros d].
  apply preserves_bind; [|intros _; apply preserves_updateInstance].
  apply preserves_update_instance. intros i'. done.
Qed.

Lemma preserves_failWorkflow iid e :
  preserves R (StateMachine.failWorkflow persistence config iid e).
Proof.
  unfold StateMachine.failWorkflow.
  apply preserves_bind; [apply preserves_log_error|intros _].
  apply preserves_bind; [apply preserves_gets|intros [i|]]; [|apply preserves_ret].
  apply preserves_bind; [apply preserves_now|intros d].
  apply preserves_bind; [|intros _; apply preserves_updateInstance].
  apply preserves_update_instance. intros i'. done.
Qed.

Lemma preserves_run_phaseExecutor iid pid phase i0 p0 :
  preserves R (StateMachine.run_phaseExecutor phaseExecutor iid pid phase i0 p0).
Proof.
  intros s r s' H. unfold StateMachine.run_phaseExecutor in H.
  destruct (pe_executePhase _ _ _) as [[ts env'] res].
  assert (Hstep : R s (mkSM (alter (fun inst => wi_set_phaseStates
                               (alter (pi_set_taskStates ts) pid (wi_phaseStates inst)) inst)
                               iid (instances s)) (log s) (uuids s) env')).
  { eapply R_trans; [apply (R_env s env')|].
    apply (R_alter (mkSM (instances s) (log s) (uuids s) env') iid), frame_safe_phase. }
  destruct res; by simplify_eq.
Qed.

Lemma preserves_transition_steps exec iid target context :
  (forall a b, preserves R (exec a b)) ->
  preserves R (StateMachine.transition_steps phaseManager transitionValidator
                 persistence config exec iid target context).
Proof.
  intros Hexec. unfold StateMachine.transition_steps.
  apply preserves_bind; [apply preserves_gets|intros o].
  apply preserves_bind; [apply preserves_required|intros instance].
  destruct (wi_currentPhaseId instance) as [cur|]; [|apply preserves_throw].
  destruct (negb _); [apply preserves_throw|].
  apply preserves_bind; [apply preserves_required|intros workflow].
  destruct (getPhase _ _ cur); [|apply preserves_throw].
  destruct (getPhase _ _ target); [|apply preserves_throw].
  apply preserves_bind; [apply preserves_required|intros transition].
  apply preserves_bind.
  { intros s r s' H. unfold StateMachine.call_canTransition in H.
    destruct (canTransition _ _ _) as [b env']. simplify_eq. apply R_env. }
  intros ok. destruct (negb ok); [apply preserves_throw|].
  apply preserves_bind.
  { destruct (wi_phaseStates instance !! cur); [|apply preserves_ret].
    apply preserves_bind; [apply preserves_now|intros d]. apply preserves_update_phase. }
  intros _. apply preserves_bind.
  { apply preserves_update_instance. intros i. done. }
  intros _. apply preserves_bind; [apply preserves_updateInstance|intros _]. apply Hexec.
Qed.

Lemma preserves_transitionToPhase_with exec iid target context :
  (forall a b, preserves R (exec a b)) ->
  preserves R (StateMachine.transitionToPhase_with phaseManager transitionValidator
                 persistence config exec iid target context).
Proof.
  intros Hexec. unfold StateMachine.transitionToPhase_with.
  apply preserves_bind; [apply preserves_log_info|intros _].
  by apply preserves_transition_steps.
Qed.

Lemma preserves_on_phase_success exec iid pid phase instance :
  (forall a b, preserves R (exec a b)) ->
  preserves R (StateMachine.on_phase_success phaseManager transitionValidator persistence
                 config exec iid pid phase instance).
Proof.
  intros Hexec. unfold StateMachine.on_phase_success.
  apply preserves_bind; [apply preserves_now|intros d'].
  apply preserves_bind; [apply preserves_update_phase|intros _].
  apply preserves_bind; [apply preserves_updateInstance|intros _].
  destruct (p_nextPhases phase) as [|next rest]; [apply preserves_completeWorkflow|].
  destruct (StateMachine.nonempty next); [|apply preserves_ret].
  apply preserves_bind; [apply preserves_gets|intros metadata].
  by apply preserves_transitionToPhase_with.
Qed.

Lemma preserves_on_phase_failure exec iid pid instance phaseInstance error :
  (forall a b, preserves R (exec a b)) ->
  preserves R (StateMachine.on_phase_failure persistence config exec iid pid instance
                 phaseInstance error).
Proof.
  intros Hexec. unfold StateMachine.on_phase_failure.
  apply preserves_bind; [apply preserves_log_error|intros _].
  apply preserves_bind; [apply preserves_now|intros d'].
  apply preserves_bind; [apply preserves_update_phase|intros _].
  apply preserves_bind; [apply preserves_gets|intros retryCount].
  destruct (_ && _).
  - apply preserves_bind; [apply preserves_update_phase|intros _].
    apply preserves_bind; [apply preserves_log_info|intros _]. apply Hexec.
  - apply preserves_bind; [apply preserves_updateInstance|intros _].
    apply preserves_failWorkflow.
Qed.

Lemma preserves_executePhase fuel :
  forall iid pid,
    preserves R (StateMachine.executePhase phaseManager transitionValidator phaseExecutor
                   persistence config fuel iid pid).
Proof.
  induction fuel as [|fuel IH]; intros iid pid; [apply preserves_out_of_fuel|].
  cbn [StateMachine.executePhase].
  apply preserves_bind; [apply preserves_log_info|intros _].
  apply preserves_bind; [apply preserves_gets|intros o].
  apply preserves_bind; [apply preserves_required|intros instance].
  apply preserves_bind; [apply preserves_required|intros phase].
  apply preserves_bind; [apply preserves_required|intros phaseInstance].
  apply preserves_bind; [apply preserves_now|intros d].
  apply preserves_bind; [apply preserves_update_phase|intros _].
  apply preserves_bind; [apply preserves_updateInstance|intros _].
  apply preserves_try_catch.
  - apply preserves_bind; [apply preserves_run_phaseExecutor|intros _].
    by apply preserves_on_phase_success.
  - intros error. by apply preserves_on_phase_failure.
Qed.

End Preserves.

(** The two relations kept by every operation of the machine. *)



Lemma instances_kept_refl {X} (s : SM X) : instances_kept s s.
Proof. intros iid i H. eauto. Qed.

Lemma instances_kept_trans {X} (a b c : SM X) :
  instances_kept a b -> instances_kept b c -> instances_kept a c.
Proof.
  intros H1 H2 iid i Hi.
  destruct (H1 _ _ Hi) as (i1 & Hi1 & Hw1 & Hd1).
  destruct (H2 _ _ Hi1) as (i2 & Hi2 & Hw2 & Hd2).
  exists i2. split; [done|]. split; congruence.
Qed.

Lemma instances_kept_alter {X} (s : SM X) iid f :
  frame_safe f ->
  instances_kept s (mkSM (alter f iid (instances s)) (log s) (uuids s) (env s)).
Proof.
  intros Hf k i Hi. simpl. destruct (decide (iid = k)) as [<-|Hne].
  - rewrite lookup_alter_eq, Hi. simpl. exists (f i).
    destruct (Hf i) as (_ & ? & ?). done.
  - rewrite lookup_alter_ne by done. eauto.
Qed.

Section MachineFacts.
Context {X : Type}.
Variable randomUUID : nat -> string.
Variable phaseManager : IPhaseManager.
Variable transitionValidator : ITransitionValidator X.
Variable phaseExecutor : IPhaseExecutor X.
Variable persistence : option (IWorkflowPersistence X).
Variable config : IStateMachineConfig.

Local Abbreviation executePhase :=
  (StateMachine.executePhase phaseManager transitionValidator phaseExecutor
                             persistence config).
Local Abbreviation transitionToPhase :=
  (StateMachine.transitionToPhase phaseManager transitionValidator phaseExecutor
                                  persistence config).


Lemma executePhase_instances_kept fuel iid pid :
  preserves instances_kept (executePhase fuel iid pid).
Proof.
  apply preserves_executePhase.
  - apply instances_kept_refl.
  - apply instances_kept_trans.
  - intros s e k i Hi. simpl. eauto.
  - intros s env' k i Hi. simpl. eauto.
  - intros s k f Hf. by apply instances_kept_alter.
Qed.

End MachineFacts.

(** ** StateMachine: the claims *)

Ltac sm_unfold :=
  unfold StateMachine.bind, StateMachine.try_catch, StateMachine.log_info,
    StateMachine.log_error, StateMachine.modify, StateMachine.gets,
    StateMachine.getWorkflowInstance, StateMachine.required, StateMachine.throw,
    StateMachine.ret, StateMachine.now, StateMachine.update_phase,
    StateMachine.update_instance, StateMachine.set_instances,
    StateMachine.call_canTransition, StateMachine.call_randomUUID, new_Date.

Section StateMachineClaims.
Context {X : Type}.
Variable randomUUID : nat -> string.
Variable phaseManager : IPhaseManager.
Variable transitionValidator : ITransitionValidator X.
Variable phaseExecutor : IPhaseExecutor X.
Variable persistence : option (IWorkflowPersistence X).
Variable config : IStateMachineConfig.

Local Abbreviation executePhase :=
  (StateMachine.executePhase phaseManager transitionValidator phaseExecutor
                             persistence config).
Local Abbreviation transitionToPhase :=
  (StateMachine.transitionToPhase phaseManager transitionValidator phaseExecutor
                                  persistence config).
Local Abbreviation startWorkflow :=
  (StateMachine.startWorkflow randomUUID phaseManager transitionValidator phaseExecutor
                              persistence config).

(** C7.  When [transitionToPhase] fails because the current phase has no
    definition transition to the target, or because
    [TransitionValidator.canTransition] answers false, it throws a
    [TransitionError] and the workflow instance is what it was before
    the call: machine state, current phase and every phase instance. *)
Theorem C7_failed_transition_leaves_instance_unchanged
        (fuel : nat) (s : SM X) (instanceId targetPhaseId : string) (context : JSVal)
        (instance : WorkflowInstance) (currentPhaseId : string) (workflow : Workflow)
        (fromPhase toPhase : Phase) :
  instances s !! instanceId = Some instance ->
  wi_currentPhaseId instance = Some currentPhaseId ->
  StateMachine.nonempty currentPhaseId = true ->
  getWorkflow phaseManager (wi_workflowId instance) = Some workflow ->
  getPhase phaseManager (wi_workflowId instance) currentPhaseId = Some fromPhase ->
  getPhase phaseManager (wi_workflowId instance) targetPhaseId = Some toPhase ->
  failed_transition_frame phaseManager transitionValidator phaseExecutor persistence
    config fuel s instanceId targetPhaseId context instance currentPhaseId
    fromPhase toPhase.
Proof.
  intros Hinst Hcur Hne Hwf Hfrom Hto. unfold failed_transition_frame.
  split.
  - intros Hfound.
    unfold StateMachine.transitionToPhase, StateMachine.transitionToPhase_with,
      StateMachine.transition_steps.
    sm_unfold. simpl. rewrite Hinst. simpl. rewrite Hcur, Hne. simpl.
    rewrite Hwf. simpl. rewrite Hfrom, Hto, Hfound. simpl. done.
  - intros transition Hfound Hcan.
    unfold StateMachine.transitionToPhase, StateMachine.transitionToPhase_with,
      StateMachine.transition_steps.
    sm_unfold. simpl. rewrite Hinst. simpl. rewrite Hcur, Hne. simpl.
    rewrite Hwf. simpl. rewrite Hfrom, Hto, Hfound. simpl.
    destruct (canTransition _ _ _) as [b env'] eqn:Hc. simpl in Hcan. subst b. simpl. done.
Qed.

End StateMachineClaims.

Lemma C7_witness :
  failed_transition_frame
    (SMFixtures.provider SMFixtures.mockWorkflow) (SMFixtures.validator false)
    SMFixtures.succeeding None (SMFixtures.config true (Some 3))
    10 SMFixtures.started "instance-0" "phase2" JUndefined SMFixtures.at_phase1 "phase1"
    (SMFixtures.phase "phase1" ["phase2"%string]) (SMFixtures.phase "phase2" []).
Proof.
  apply (C7_failed_transition_leaves_instance_unchanged _ _ _ _ _ _ _ _ _ _ _ _
           SMFixtures.mockWorkflow); reflexivity.
Defined.

(** ** StateMachine: stepping through an operation *)

Section WP.
Context {X : Type}.
Implicit Types s : SM X.

Lemma wp_bind {A B} (m : StateMachine.M A) (f : A -> StateMachine.M B) Q s :
  wp m (fun r s1 => match r with
                    | Returned a => wp (f a) Q s1
                    | Threw e => Q (Threw e) s1
                    | OutOfFuel => Q OutOfFuel s1
                    end) s ->
  wp (StateMachine.bind m f) Q s.
Proof. unfold wp, StateMachine.bind. by destruct (m s) as [[a|e|] s1]. Qed.

Lemma wp_try_catch {A} (m : StateMachine.M A) (h : Err -> StateMachine.M A) Q s :
  wp m (fun r s1 => match r with
                    | Returned a => Q (Returned a) s1
                    | Threw e => wp (h e) Q s1
                    | OutOfFuel => Q OutOfFuel s1
                    end) s ->
  wp (StateMachine.try_catch m h) Q s.
Proof. unfold wp, StateMachine.try_catch. by destruct (m s) as [[a|e|] s1]. Qed.

Lemma wp_consequence {A} (m : StateMachine.M A) (P Q : Outcome A -> SM X -> Prop) s :
  wp m P s -> (forall r s', P r s' -> Q r s') -> wp m Q s.
Proof. unfold wp. auto. Qed.

Lemma wp_ret {A} (a : A) Q s : Q (Returned a) s -> wp (StateMachine.ret a) Q s.
Proof. done. Qed.

Lemma wp_throw {A} (e : Err) (Q : Outcome A -> SM X -> Prop) s :
  Q (Threw e) s -> wp (StateMachine.throw e) Q s.
Proof. done. Qed.

Lemma wp_gets {A} (f : SM X -> A) Q s : Q (Returned (f s)) s -> wp (StateMachine.gets f) Q s.
Proof. done. Qed.

Lemma wp_modify (f : SM X -> SM X) Q s :
  Q (Returned tt) (f s) -> wp (StateMachine.modify f) Q s.
Proof. done. Qed.

Lemma wp_log_info msg fields Q s :
  Q (Returned tt) (mkSM (instances s) (mkLog "info" msg fields None :: log s)
                        (uuids s) (env s)) ->
  wp (StateMachine.log_info msg fields) Q s.
Proof. done. Qed.

Lemma wp_log_error msg fields e Q s :
  Q (Returned tt) (mkSM (instances s) (mkLog "error" msg fields (Some e) :: log s)
                        (uuids s) (env s)) ->
  wp (StateMachine.log_error msg fields e) Q s.
Proof. done. Qed.

Lemma wp_now Q s :
  Q (Returned (clock (env s)))
    (mkSM (instances s) (log s) (uuids s) (mkEnv (S (clock (env s))) (ext (env s)))) ->
  wp StateMachine.now Q s.
Proof. done. Qed.

Lemma wp_update_instance iid f Q s :
  Q (Returned tt) (mkSM (alter f iid (instances s)) (log s) (uuids s) (env s)) ->
  wp (StateMachine.update_instance iid f) Q s.
Proof. done. Qed.

Lemma wp_update_phase iid pid g Q s :
  Q (Returned tt)
    (mkSM (alter (fun inst => wi_set_phaseStates (alter g pid (wi_phaseStates inst)) inst)
                 iid (instances s))
          (log s) (uuids s) (env s)) ->
  wp (StateMachine.update_phase iid pid g) Q s.
Proof. done. Qed.

Variable persistence : option (IWorkflowPersistence X).
Variable config : IStateMachineConfig.

Lemma store_rejects_not_resolves e :
  store_rejects_with persistence config e -> ~ store_resolves persistence config.
Proof.
  intros (Hen & p & Hp & Hrej) Hres. destruct (Hres Hen p Hp) as [Hsave Hup].
  destruct Hrej as [(i & env0 & H)|(id & i & env0 & H)].
  - by rewrite Hsave in H.
  - by rewrite Hup in H.
Qed.

(** A call of the store resolves, or it rejects and its error is
    thrown. *)
Lemma wp_updateInstance iid Q s :
  (forall env', Q (Returned tt) (mkSM (instances s) (log s) (uuids s) env')) ->
  (forall env' e, store_rejects_with persistence config e ->
                  Q (Threw e) (mkSM (instances s) (log s) (uuids s) env')) ->
  wp (StateMachine.updateInstance persistence config iid) Q s.
Proof.
  intros Hok Hko. unfold wp, StateMachine.updateInstance, StateMachine.await_store.
  destruct (enablePersistence config) eqn:Hen; [|destruct s; apply Hok].
  destruct persistence as [p|] eqn:Hp; [|destruct s; apply Hok].
  destruct (instances s !! iid) as [inst|]; [|destruct s; apply Hok].
  destruct (updateWorkflowInstance p (wi_id inst) inst (env s)) as [env' [e|]] eqn:Hcall;
    simpl; [|apply Hok].
  apply Hko. split; [done|]. exists p. split; [done|]. right.
  exists (wi_id inst), inst, (env s). by rewrite Hcall.
Qed.

Lemma wp_updateInstance_resolves iid Q s :
  store_resolves persistence config ->
  (forall env', Q (Returned tt) (mkSM (instances s) (log s) (uuids s) env')) ->
  wp (StateMachine.updateInstance persistence config iid) Q s.
Proof.
  intros Hres Hok. apply wp_updateInstance; [done|].
  intros env' e Hrej. by destruct (store_rejects_not_resolves e Hrej).
Qed.

Lemma wp_save_if_enabled instance Q s :
  (forall env', Q (Returned tt) (mkSM (instances s) (log s) (uuids s) env')) ->
  (forall env' e, store_rejects_with persistence config e ->
                  Q (Threw e) (mkSM (instances s) (log s) (uuids s) env')) ->
  wp (StateMachine.save_if_enabled persistence config instance) Q s.
Proof.
  intros Hok Hko. unfold wp, StateMachine.save_if_enabled, StateMachine.await_store,
    StateMachine.ret.
  destruct (enablePersistence config) eqn:Hen; [|destruct s; apply Hok].
  destruct persistence as [p|] eqn:Hp; [|destruct s; apply Hok].
  destruct (saveWorkflowInstance p instance (env s)) as [env' [e|]] eqn:Hcall;
    simpl; [|apply Hok].
  apply Hko. split; [done|]. exists p. split; [done|]. left.
  exists instance, (env s). by rewrite Hcall.
Qed.

Lemma wp_save_if_enabled_resolves instance Q s :
  store_resolves persistence config ->
  (forall env', Q (Returned tt) (mkSM (instances s) (log s) (uuids s) env')) ->
  wp (StateMachine.save_if_enabled persistence config instance) Q s.
Proof.
  intros Hres Hok. apply wp_save_if_enabled; [done|].
  intros env' e Hrej. by destruct (store_rejects_not_resolves e Hrej).
Qed.

Lemma wp_call_randomUUID (randomUUID : nat -> string) Q s :
  Q (Returned (randomUUID (uuids s)))
    (mkSM (instances s) (log s) (S (uuids s)) (env s)) ->
  wp (StateMachine.call_randomUUID randomUUID) Q s.
Proof. done. Qed.

Variable phaseExecutor : IPhaseExecutor X.

Lemma wp_run_phaseExecutor iid pid phase i0 p0 Q s :
  (forall ts env' r,
      (exists context env0, (pe_executePhase phaseExecutor context env0).2 = r) ->
      Q (match r with None => Returned tt | Some e => Threw e end)
        (mkSM (alter (fun inst =>
                        wi_set_phaseStates
                          (alter (pi_set_taskStates ts) pid (wi_phaseStates inst)) inst)
                     iid (instances s))
              (log s) (uuids s) env')) ->
  wp (StateMachine.run_phaseExecutor phaseExecutor iid pid phase i0 p0) Q s.
Proof.
  intros HQ. unfold wp, StateMachine.run_phaseExecutor.
  destruct (pe_executePhase _ _ _) as [[ts env'] r] eqn:Hrun.
  assert (Hr : exists context env0, (pe_executePhase phaseExecutor context env0).2 = r).
  { eexists _, _. by rewrite Hrun. }
  specialize (HQ ts env' r Hr). by destruct r.
Qed.

Variable transitionValidator : ITransitionValidator X.

Lemma wp_call_canTransition tc (Q : Outcome bool -> SM X -> Prop) s :
  (forall b env', Q (Returned b) (mkSM (instances s) (log s) (uuids s) env')) ->
  wp (StateMachine.call_canTransition transitionValidator tc) Q s.
Proof.
  intros HQ. unfold wp, StateMachine.call_canTransition.
  destruct (canTransition _ _ _) as [b env']. apply HQ.
Qed.

Lemma wp_call_canTransition_exact tc (Q : Outcome bool -> SM X -> Prop) s :
  Q (Returned (canTransition transitionValidator tc (env s)).1)
    (mkSM (instances s) (log s) (uuids s) (canTransition transitionValidator tc (env s)).2) ->
  wp (StateMachine.call_canTransition transitionValidator tc) Q s.
Proof.
  intros HQ. unfold wp, StateMachine.call_canTransition.
  by destruct (canTransition _ _ _) as [b env'].
Qed.

End WP.

Ltac wp_simpl :=
  cbv beta iota; cbn [instances log uuids env clock ext fst snd default].

Ltac wp_step :=
  lazymatch goal with
  | |- wp (StateMachine.bind _ _) _ _ => apply wp_bind
  | |- wp (StateMachine.try_catch _ _) _ _ => apply wp_try_catch
  | |- wp (StateMachine.log_info _ _) _ _ => apply wp_log_info
  | |- wp (StateMachine.log_error _ _ _) _ _ => apply wp_log_error
  | |- wp StateMachine.now _ _ => apply wp_now
  | |- wp (StateMachine.update_phase _ _ _) _ _ => apply wp_update_phase
  | |- wp (StateMachine.update_instance _ _) _ _ => apply wp_update_instance
  | |- wp (StateMachine.gets _) _ _ => apply wp_gets
  | |- wp (StateMachine.ret _) _ _ => apply wp_ret
  | |- wp (StateMachine.throw _) _ _ => apply wp_throw
  | |- wp (StateMachine.modify _) _ _ => apply wp_modify
  | |- wp (StateMachine.required (Some _) _) _ _ => apply wp_ret
  | |- wp (StateMachine.required None _) _ _ => apply wp_throw
  | |- wp (StateMachine.updateInstance _ _ _) _ _ =>
      first [ apply wp_updateInstance_resolves; [eassumption|intros ?]
            | apply wp_updateInstance; [intros ?|intros ? ? ?] ]
  | |- wp (StateMachine.save_if_enabled _ _ _) _ _ =>
      first [ apply wp_save_if_enabled_resolves; [eassumption|intros ?]
            | apply wp_save_if_enabled; [intros ?|intros ? ? ?] ]
  | |- wp (StateMachine.call_randomUUID _) _ _ => apply wp_call_randomUUID
  end;
  wp_simpl.

Ltac wp_steps := repeat wp_step.

(** ** StateMachine: a phase that fails on every attempt *)

Section Retries.
Context {X : Type}.
Variable phaseManager : IPhaseManager.
Variable transitionValidator : ITransitionValidator X.
Variable phaseExecutor : IPhaseExecutor X.
Variable persistence : option (IWorkflowPersistence X).
Variable config : IStateMachineConfig.

Local Abbreviation executePhase :=
  (StateMachine.executePhase phaseManager transitionValidator phaseExecutor
                             persistence config).

Variable error : Err.
Hypothesis always_fails :
  forall context env, (pe_executePhase phaseExecutor context env).2 = Some error.
Hypothesis store_accepts : store_resolves persistence config.

Lemma failing_phase (fuel : nat) :
  forall (s : SM X) iid pid inst phase pinst,
    instances s !! iid = Some inst ->
    getPhase phaseManager (wi_workflowId inst) pid = Some phase ->
    wi_phaseStates inst !! pid = Some pinst ->
    retries_left config pinst < fuel ->
    wp (executePhase fuel iid pid)
       (fun r s' =>
          r = Returned tt /\
          executions (log s') = executions (log s) + S (retries_left config pinst) /\
          exists inst' pinst',
            instances s' !! iid = Some inst' /\
            wi_state inst' = failed /\ wi_error inst' = Some error /\
            wi_workflowId inst' = wi_workflowId inst /\
            wi_phaseStates inst' !! pid = Some pinst' /\
            pi_state pinst' = phase_failed /\ pi_error pinst' = Some error /\
            pi_retryCount pinst' = pi_retryCount pinst + retries_left config pinst) s.
Proof.
  induction fuel as [|fuel IH]; intros s iid pid inst phase pinst Hinst Hphase Hpinst Hfuel;
    [lia|].
  cbn [StateMachine.executePhase].
  wp_steps. unfold StateMachine.getWorkflowInstance. wp_simpl. rewrite Hinst.
  wp_steps. rewrite Hphase. wp_steps. rewrite Hpinst. wp_steps.
  apply wp_run_phaseExecutor. intros ts env2 r (context & env0 & <-). wp_simpl.
  rewrite always_fails. unfold StateMachine.on_phase_failure. wp_steps.
  rewrite !lookup_alter_eq, Hinst. simpl. rewrite !lookup_alter_eq, Hpinst. simpl.
  destruct (enableRetries config && (pi_retryCount pinst <? StateMachine.maxRetries_or_3 config))
    eqn:Hretry.
  - apply andb_true_iff in Hretry as [Hen Hlt]. apply Nat.ltb_lt in Hlt.
    assert (Hleft : retries_left config pinst
                    = S (retries_left config (pi_incr_retryCount
                           (pi_set_completedAt (clock env2)
                              (pi_set_error error (pi_set_state phase_failed
                                 (pi_set_taskStates ts
                                    (pi_set_startedAt (clock (env s))
                                       (pi_set_state phase_active pinst))))))))).
    { unfold retries_left. rewrite Hen. simpl. lia. }
    wp_steps.
    eapply wp_consequence.
    + eapply (IH _ iid pid).
      * simpl. rewrite !lookup_alter_eq, Hinst. simpl. reflexivity.
      * simpl. exact Hphase.
      * simpl. rewrite !lookup_alter_eq, Hpinst. simpl. reflexivity.
      * lia.
    + simpl. intros r s' (Hr & Hex & inst' & pinst' & H1 & H2 & H3 & H4 & H5 & H6 & H7 & H8).
      split; [done|]. split.
      * rewrite Hex, Hleft. unfold executions. simpl. lia.
      * exists inst', pinst'. repeat (split; [done|]).
        rewrite H8, Hleft. simpl. lia.
  - assert (Hleft : retries_left config pinst = 0).
    { unfold retries_left. apply andb_false_iff in Hretry as [->|Hlt]; [done|].
      apply Nat.ltb_ge in Hlt. destruct (enableRetries config); lia. }
    wp_steps. unfold StateMachine.failWorkflow.
    wp_steps. unfold StateMachine.getWorkflowInstance. wp_simpl.
    rewrite !lookup_alter_eq, Hinst. simpl. wp_steps.
    split; [done|]. split.
    + rewrite Hleft. unfold executions. simpl. lia.
    + rewrite !lookup_alter_eq, Hinst. simpl. eexists _, _.
      split; [reflexivity|]. simpl. rewrite !lookup_alter_eq, Hpinst. simpl.
      repeat (split; [done|]). rewrite Hleft. simpl. lia.
Qed.

End Retries.

(** ** StateMachine: retries and automatic transitions *)

Lemma wp_of_preserves {X A} (R : SM X -> SM X -> Prop) (m : StateMachine.M A)
      (Q : Outcome A -> SM X -> Prop) (s : SM X) :
  preserves R m -> (forall r s', R s s' -> Q r s') -> wp m Q s.
Proof.
  intros Hm HQ. unfold wp. apply HQ. apply (Hm s (m s).1 (m s).2). by destruct (m s).
Qed.

(** C5 at the failing input: with retries enabled and [maxRetries] set to
    0, a phase that fails on every attempt is executed four times: the
    retry counter ends at 3, not at 0, before the workflow is marked
    failed with the error. *)
Theorem C5_maxRetries_zero_retries_three_times :
  let run :=
    StateMachine.startWorkflow SMFixtures.uuid
      (SMFixtures.provider SMFixtures.singleWorkflow) (SMFixtures.validator true)
      (SMFixtures.rejecting (Error "Persistent failure")) None
      (SMFixtures.config true (Some 0)) 10 "single" JUndefined SMFixtures.fresh in
  run.1 = Returned "instance-0"%string /\
  ext (env run.2) = 4 /\
  executions (log run.2) = 4 /\
  exists instance phaseInstance,
    instances run.2 !! "instance-0"%string = Some instance /\
    wi_state instance = failed /\
    wi_error instance = Some (Error "Persistent failure") /\
    wi_phaseStates instance !! "only"%string = Some phaseInstance /\
    pi_state phaseInstance = phase_failed /\
    pi_retryCount phaseInstance = 3.
Proof.
  vm_compute. repeat split. eexists _, _. repeat split.
Qed.

Section StateMachineRules.
Context {X : Type}.
Variable phaseManager : IPhaseManager.
Variable transitionValidator : ITransitionValidator X.
Variable phaseExecutor : IPhaseExecutor X.
Variable persistence : option (IWorkflowPersistence X).
Variable config : IStateMachineConfig.

Local Abbreviation executePhase :=
  (StateMachine.executePhase phaseManager transitionValidator phaseExecutor
                             persistence config).

(** For every configured limit: a phase that fails on every attempt,
    and has not been retried before, is entered once more for each
    retry the configuration allows (the limit, or none when retries are
    disabled); its counter ends at that number, and the workflow fails
    with the error.  The limit is [maxRetries], except that 0 counts
    as 3.  (The store accepts every write.) *)
Lemma failing_phase_is_retried_up_to_the_limit
      (error : Err) (fuel : nat) (s : SM X) iid pid inst phase pinst :
  (forall context env, (pe_executePhase phaseExecutor context env).2 = Some error) ->
  store_resolves persistence config ->
  instances s !! iid = Some inst ->
  getPhase phaseManager (wi_workflowId inst) pid = Some phase ->
  wi_phaseStates inst !! pid = Some pinst ->
  pi_retryCount pinst = 0 ->
  StateMachine.maxRetries_or_3 config < fuel ->
  let run := executePhase fuel iid pid s in
  let retries := if enableRetries config then StateMachine.maxRetries_or_3 config else 0 in
  run.1 = Returned tt /\
  executions (log run.2) = executions (log s) + 1 + retries /\
  exists inst' pinst',
    instances run.2 !! iid = Some inst' /\
    wi_state inst' = failed /\ wi_error inst' = Some error /\
    wi_phaseStates inst' !! pid = Some pinst' /\
    pi_state pinst' = phase_failed /\ pi_retryCount pinst' = retries.
Proof.
  intros Hfail Hstore Hinst Hphase Hpinst Hzero Hfuel.
  assert (Hleft : retries_left config pinst
                  = if enableRetries config then StateMachine.maxRetries_or_3 config else 0).
  { unfold retries_left. rewrite Hzero. destruct (enableRetries config); lia. }
  pose proof (failing_phase phaseManager transitionValidator phaseExecutor persistence
                config error Hfail Hstore fuel s iid pid inst phase pinst Hinst Hphase Hpinst)
    as Hwp.
  unfold wp in Hwp. rewrite Hleft in Hwp.
  destruct Hwp as (Hr & Hex & inst' & pinst' & H1 & H2 & H3 & _ & H5 & H6 & _ & H8).
  { destruct (enableRetries config); lia. }
  simpl. split; [done|]. split; [lia|].
  exists inst', pinst'. repeat (split; [done|]). lia.
Qed.



End StateMachineRules.

Lemma mockPersistence_resolves (config : IStateMachineConfig) :
  store_resolves (Some SMFixtures.mockPersistence) config.
Proof. intros _ p [= <-]. done. Qed.

Lemma no_store_resolves {X : Type} (config : IStateMachineConfig) :
  store_resolves (X:=X) None config.
Proof. intros _ p [=]. Qed.



(** ** StateMachine: startWorkflow *)

Lemma initial_phaseStates_lookup (phases : list Phase) (pid : string) :
  StateMachine.initial_phaseStates phases !! pid
  = if bool_decide (pid ∈ p_id <$> phases) then Some (pending_phase pid) else None.
Proof.
  unfold StateMachine.initial_phaseStates.
  assert (Hgen : forall m : gmap string PhaseInstance,
             foldl (fun m phase => <[p_id phase := pending_phase (p_id phase)]> m) m phases
               !! pid
             = if bool_decide (pid ∈ p_id <$> phases) then Some (pending_phase pid)
               else m !! pid).
  { induction phases as [|p rest IH]; intros m.
    - simpl. destruct (bool_decide (pid ∈ [])) eqn:Hb; [|done].
      apply bool_decide_eq_true in Hb. by apply elem_of_nil in Hb.
    - cbn [foldl]. rewrite IH. rewrite fmap_cons.
      destruct (bool_decide (pid ∈ p_id <$> rest)) eqn:Hrest.
      + apply bool_decide_eq_true in Hrest.
        rewrite bool_decide_eq_true_2; [done|]. by right.
      + apply bool_decide_eq_false in Hrest.
        destruct (decide (p_id p = pid)) as [<-|Hne].
        * rewrite lookup_insert_eq. rewrite bool_decide_eq_true_2; [done|]. by left.
        * rewrite lookup_insert_ne by done.
          rewrite bool_decide_eq_false_2; [done|].
          intros Hin. apply elem_of_cons in Hin as [|]; [congruence|done]. }
  rewrite Hgen. by rewrite lookup_empty.
Qed.

Section StartWorkflow.
Context {X : Type}.
Variable randomUUID : nat -> string.
Variable phaseManager : IPhaseManager.
Variable transitionValidator : ITransitionValidator X.
Variable phaseExecutor : IPhaseExecutor X.
Variable persistence : option (IWorkflowPersistence X).
Variable config : IStateMachineConfig.

Local Abbreviation executePhase :=
  (StateMachine.executePhase phaseManager transitionValidator phaseExecutor
                             persistence config).
Local Abbreviation startWorkflow :=
  (StateMachine.startWorkflow randomUUID phaseManager transitionValidator phaseExecutor
                              persistence config).

(** What the store answers when it accepts every write. *)
Lemma store_save_resolves instance (env : Env X) :
  store_resolves persistence config ->
  (store_save persistence config instance env).2 = None.
Proof.
  intros Hres. unfold store_save.
  destruct (enablePersistence config) eqn:Hen; [|done].
  destruct persistence as [p|] eqn:Hp; [|done].
  by destruct (Hres Hen p eq_refl) as [-> _].
Qed.

Lemma store_update_resolves instance (env : Env X) :
  store_resolves persistence config ->
  (store_update persistence config instance env).2 = None.
Proof.
  intros Hres. unfold store_update.
  destruct (enablePersistence config) eqn:Hen; [|done].
  destruct persistence as [p|] eqn:Hp; [|done].
  by destruct (Hres Hen p eq_refl) as [_ ->].
Qed.

(** A phase without next phases: the execution returns, and leaves the
    phase and the workflow both completed or both failed. *)
Lemma terminal_phase (fuel : nat) :
  store_resolves persistence config ->
  forall (s : SM X) iid pid inst phase pinst,
    instances s !! iid = Some inst ->
    getPhase phaseManager (wi_workflowId inst) pid = Some phase ->
    wi_phaseStates inst !! pid = Some pinst ->
    p_nextPhases phase = [] ->
    retries_left config pinst < fuel ->
    wp (executePhase fuel iid pid)
       (fun r s' =>
          r = Returned tt /\
          exists inst' pinst',
            instances s' !! iid = Some inst' /\
            wi_phaseStates inst' !! pid = Some pinst' /\
            ((pi_state pinst' = phase_completed /\ wi_state inst' = completed) \/
             (pi_state pinst' = phase_failed /\ wi_state inst' = failed))) s.
Proof.
  intros Hstore. induction fuel as [|fuel IH];
    intros s iid pid inst phase pinst Hinst Hphase Hpinst Hnext Hfuel; [lia|].
  cbn [StateMachine.executePhase].
  wp_steps. unfold StateMachine.getWorkflowInstance. wp_simpl. rewrite Hinst.
  wp_steps. rewrite Hphase. wp_steps. rewrite Hpinst. wp_steps.
  apply wp_run_phaseExecutor. intros ts env2 [e|] _; wp_simpl.
  - unfold StateMachine.on_phase_failure. wp_steps.
    rewrite !lookup_alter_eq, Hinst. simpl. rewrite !lookup_alter_eq, Hpinst. simpl.
    destruct (enableRetries config && (pi_retryCount pinst <? StateMachine.maxRetries_or_3 config))
      eqn:Hretry.
    + apply andb_true_iff in Hretry as [Hen Hlt]. apply Nat.ltb_lt in Hlt.
      wp_steps. eapply wp_consequence.
      * eapply (IH _ iid pid).
        -- simpl. rewrite !lookup_alter_eq, Hinst. simpl. reflexivity.
        -- simpl. exact Hphase.
        -- simpl. rewrite !lookup_alter_eq, Hpinst. simpl. reflexivity.
        -- exact Hnext.
        -- unfold retries_left in *. rewrite Hen in *. simpl. lia.
      * simpl. intros r s' H. exact H.
    + wp_steps. unfold StateMachine.failWorkflow.
      wp_steps. unfold StateMachine.getWorkflowInstance. wp_simpl.
      rewrite !lookup_alter_eq, Hinst. simpl. wp_steps.
      split; [done|]. rewrite !lookup_alter_eq, Hinst. simpl. eexists _, _.
      split; [reflexivity|]. simpl. rewrite !lookup_alter_eq, Hpinst. simpl.
      split; [reflexivity|]. right. done.
  - unfold StateMachine.on_phase_success. wp_steps.
    rewrite Hnext. unfold StateMachine.completeWorkflow. wp_steps.
    unfold StateMachine.getWorkflowInstance. wp_simpl.
    rewrite !lookup_alter_eq, Hinst. simpl. wp_steps.
    split; [done|]. rewrite !lookup_alter_eq, Hinst. simpl. eexists _, _.
    split; [reflexivity|]. simpl. rewrite !lookup_alter_eq, Hpinst. simpl.
    split; [reflexivity|]. left. done.
Qed.

Lemma startWorkflow_run fuel workflowId initialData (s : SM X) workflow :
  getWorkflow phaseManager workflowId = Some workflow ->
  let instanceId := randomUUID (uuids s) in
  let created :=
    mkWorkflowInstance instanceId workflowId (w_name workflow) running
      (Some (w_initialPhase workflow))
      (StateMachine.initial_phaseStates (w_phases workflow))
      (clock (env s)) None None initialData in
  let saved :=
    store_save persistence config created (mkEnv (S (clock (env s))) (ext (env s))) in
  let s0 :=
    mkSM (<[instanceId := created]> (instances s))
         (starting_entry workflowId :: log s) (S (uuids s)) saved.1 in
  startWorkflow fuel workflowId initialData s
  = match saved.2 with
    | Some e => (Threw e, s0)
    | None =>
        (match (executePhase fuel instanceId (w_initialPhase workflow) s0).1 with
         | Returned _ => Returned instanceId
         | Threw e => Threw e
         | OutOfFuel => OutOfFuel
         end, (executePhase fuel instanceId (w_initialPhase workflow) s0).2)
    end.
Proof.
  intros Hwf. cbv zeta.
  unfold StateMachine.startWorkflow, store_save, StateMachine.save_if_enabled,
    StateMachine.await_store, starting_entry.
  sm_unfold. simpl. rewrite Hwf. simpl.
  destruct (enablePersistence config); [destruct persistence as [p|]|]; simpl.
  - destruct (saveWorkflowInstance p _ _) as [env' [e|]]; simpl; [done|].
    by destruct (StateMachine.executePhase _ _ _ _ _ _ _ _ _) as [[[]|e|] s1].
  - by destruct (StateMachine.executePhase _ _ _ _ _ _ _ _ _) as [[[]|e|] s1].
  - by destruct (StateMachine.executePhase _ _ _ _ _ _ _ _ _) as [[[]|e|] s1].
Qed.

(** C1 (amended).  [startWorkflow] fails with WORKFLOW_NOT_FOUND when the
    provider has no workflow of that id.  Otherwise it creates an
    instance with exactly one phase instance per phase of the
    definition, each pending with retry counter 0, in machine state
    running and standing in the initial phase, and asks the store to
    save it when persistence is enabled.  When the store rejects, the
    call fails with the error of the store and the phase is not
    executed.  Otherwise the initial phase is executed before the call
    returns: what it returns is that same instance as the execution left
    it, still with one phase instance per phase.  It does not return
    when the initial phase cannot be resolved (it fails with
    PHASE_NOT_FOUND or PHASE_INSTANCE_NOT_FOUND); it does return when
    the initial phase has no next phases and the store accepts every
    write, and then that phase and the workflow are already completed
    or failed. *)
Theorem C1_startWorkflow (fuel : nat) (workflowId : string) (initialData : JSVal)
        (s : SM X) :
  startWorkflow_behaviour randomUUID phaseManager transitionValidator phaseExecutor
                          persistence config fuel workflowId initialData s.
Proof.
  unfold startWorkflow_behaviour.
  destruct (getWorkflow phaseManager workflowId) as [workflow|] eqn:Hwf.
  - pose proof (startWorkflow_run fuel workflowId initialData s workflow Hwf) as Hrun.
    cbv zeta in Hrun |- *.
    set (instanceId := randomUUID (uuids s)) in *.
    set (created := mkWorkflowInstance instanceId workflowId _ _ _ _ _ _ _ _) in *.
    set (saved := store_save persistence config created _) in *.
    set (s0 := mkSM (<[instanceId := created]> (instances s)) _ _ _) in *.
    assert (Hcreated : instances s0 !! instanceId = Some created).
    { subst s0. cbn [instances]. apply lookup_insert_eq. }
    split; [|split; [|split; [|split; [|split; [|split]]]]].
    + intros pid. apply initial_phaseStates_lookup.
    + intros e He. by rewrite Hrun, He.
    + intros Hsaved. by rewrite Hrun, Hsaved.
    + intros returned Hret. rewrite Hrun in Hret |- *.
      destruct (saved.2) as [e|]; [done|]. simpl in Hret |- *.
      destruct (executePhase fuel instanceId (w_initialPhase workflow) s0)
        as [r s1] eqn:Hexec. simpl in Hret |- *.
      destruct r as [[]|e|]; simplify_eq. split; [done|].
      destruct (executePhase_instances_kept phaseManager transitionValidator phaseExecutor
                  persistence config _ _ _ _ _ _ Hexec _ _ Hcreated)
        as (i' & Hi' & Hw & Hdom).
      exists i'. split; [done|]. split; [done|].
      intros pid. rewrite <- !elem_of_dom, Hdom, elem_of_dom. simpl.
      rewrite initial_phaseStates_lookup.
      destruct (bool_decide (pid ∈ p_id <$> w_phases workflow)) eqn:Hb.
      * apply bool_decide_eq_true in Hb. split; eauto.
      * apply bool_decide_eq_false in Hb. split; [intros [? ?]; done|done].
    + intros Hfuel Hsaved Hnone. rewrite Hrun, Hsaved. simpl.
      destruct fuel as [|fuel']; [lia|].
      assert (Hwp : wp (executePhase (S fuel') instanceId (w_initialPhase workflow))
                       (fun r _ => r = Threw (StateMachineError "Phase not found"
                                                                "PHASE_NOT_FOUND")) s0).
      { cbn [StateMachine.executePhase]. wp_steps.
        unfold StateMachine.getWorkflowInstance. wp_simpl. rewrite Hcreated.
        wp_steps. simpl. rewrite Hnone. wp_steps. done. }
      unfold wp in Hwp. by rewrite Hwp.
    + intros Hfuel Hsaved [phase Hphase] Hnotin. rewrite Hrun, Hsaved. simpl.
      destruct fuel as [|fuel']; [lia|].
      assert (Hwp : wp (executePhase (S fuel') instanceId (w_initialPhase workflow))
                       (fun r _ => r = Threw (StateMachineError "Phase instance not found"
                                                                "PHASE_INSTANCE_NOT_FOUND")) s0).
      { cbn [StateMachine.executePhase]. wp_steps.
        unfold StateMachine.getWorkflowInstance. wp_simpl. rewrite Hcreated.
        wp_steps. simpl. rewrite Hphase. wp_steps.
        rewrite initial_phaseStates_lookup. rewrite bool_decide_eq_false_2 by done.
        wp_steps. done. }
      unfold wp in Hwp. by rewrite Hwp.
    + intros phase Hstore Hphase Hin Hnext Hfuel. rewrite Hrun.
      subst saved. rewrite store_save_resolves by done. simpl.
      pose proof (terminal_phase fuel Hstore s0 instanceId (w_initialPhase workflow) created
                    phase (pending_phase (w_initialPhase workflow)) Hcreated Hphase) as Hwp.
      unfold wp in Hwp. destruct Hwp as (Hr & inst' & pinst' & H1 & H2 & H3).
      * simpl. rewrite initial_phaseStates_lookup. by rewrite bool_decide_eq_true_2.
      * done.
      * unfold retries_left. simpl. destruct (enableRetries config); lia.
      * rewrite Hr. split; [done|]. eauto.
  - assert (Hwp : wp (startWorkflow fuel workflowId initialData)
                     (fun r s' => r = Threw (StateMachineError "Workflow not found"
                                                               "WORKFLOW_NOT_FOUND") /\
                                  instances s' = instances s) s).
    { unfold StateMachine.startWorkflow. wp_steps. rewrite Hwf. wp_steps. done. }
    exact Hwp.
Qed.

End StartWorkflow.

(** Counterexample to C1 as stated: the provider knows the workflow, yet
    [startWorkflow] does not return an instance: its initial phase names
    no phase, and the call fails with PHASE_NOT_FOUND. *)
Lemma C1_counterexample :
  let provider := SMFixtures.provider SMFixtures.danglingWorkflow in
  let run :=
    StateMachine.startWorkflow SMFixtures.uuid provider (SMFixtures.validator true)
      SMFixtures.succeeding None (SMFixtures.config true (Some 3)) 10
      "dangling" JUndefined SMFixtures.fresh in
  getWorkflow provider "dangling" = Some SMFixtures.danglingWorkflow /\
  run.1 = Threw (StateMachineError "Phase not found" "PHASE_NOT_FOUND").
Proof. split; reflexivity. Qed.

(** With a store that rejects, [startWorkflow] fails with the error of the
    store: the instance is in the map, its initial phase still pending. *)
Example startWorkflow_store_rejects :
  let run :=
    StateMachine.startWorkflow SMFixtures.uuid
      (SMFixtures.provider SMFixtures.mockWorkflow) (SMFixtures.validator true)
      SMFixtures.succeeding (Some (SMFixtures.rejectingPersistence (Error "store down")))
      (SMFixtures.persisting true (Some 3)) 10 "test-workflow" JUndefined SMFixtures.fresh in
  run.1 = Threw (Error "store down") /\
  exists instance,
    instances run.2 !! "instance-0"%string = Some instance /\
    wi_state instance = running /\
    wi_phaseStates instance !! "phase1"%string = Some (pending_phase "phase1").
Proof. split; [reflexivity|]. eexists. split; [vm_compute; reflexivity|]. done. Qed.

(** * Further properties *)

(** ** TaskExecutor: what [executeTask] produces and [validateTaskResult] accepts *)

Lemma str_or_nonempty (s : option string) (dflt : string) :
  dflt <> ""%string -> str_or s dflt <> ""%string.
Proof.
  intros Hd. unfold str_or. destruct s as [x|]; [|done].
  destruct (String.eqb x "") eqn:Hx; [done|]. by apply String.eqb_neq in Hx.
Qed.

Lemma truthy_str_or (s : option string) (dflt : string) :
  dflt <> ""%string -> truthy (JStr (str_or s dflt)) = true.
Proof.
  intros Hd. simpl. apply negb_true_iff, String.eqb_neq. by apply str_or_nonempty.
Qed.

(** X1.  With metadata of the declared types, the result that
    [executeTask] resolves with passes [validateTaskResult] for the same
    task, unless the task is an approval that the metadata refuses: then
    the status is [rejected] and the validation answers false.  A task of
    an unknown type is executed as a manual task and validated by the
    default check. *)
Theorem executeTask_result_validates (context : TaskContext) (now : nat) :
  typed_metadata (tc_metadata context) = true ->
  let result := TaskExecutor.executeTask context now in
  truthy (TaskExecutor.validateTaskResult (with_result context result))
  = negb (approval_refused context) /\
  is_str (get result "status") "rejected" = approval_refused context.
Proof.
  intros _. cbv zeta.
  unfold TaskExecutor.validateTaskResult, TaskExecutor.executeTask, approval_refused,
    with_result. simpl.
  destruct (String.eqb_spec (t_type (tc_task context)) "automated") as [Ha|Ha].
  { by rewrite Ha. }
  destruct (String.eqb_spec (t_type (tc_task context)) "manual") as [Hm|Hm].
  { rewrite Hm. unfold TaskExecutor.executeManualTask.
    destruct (includes _ _); simpl; (split; [|done]);
      apply negb_true_iff, String.eqb_neq; by apply str_or_nonempty. }
  destruct (String.eqb_spec (t_type (tc_task context)) "review") as [Hr|Hr].
  { rewrite Hr. unfold TaskExecutor.executeReviewTask. by destruct (includes _ _). }
  destruct (String.eqb_spec (t_type (tc_task context)) "approval") as [Hp|Hp].
  { unfold TaskExecutor.executeApprovalTask.
    destruct (TaskExecutor.is_true _); simpl; [done|].
    destruct (includes _ _); simpl; [done|].
    by destruct (TaskExecutor.not_false _). }
  simpl. unfold TaskExecutor.executeManualTask.
  by destruct (includes _ _).
Qed.

Lemma executeTask_result_validates_witness :
  truthy (TaskExecutor.validateTaskResult
            (with_result
               (mkTaskContext None (Fixtures.task "sign-off" "approval" true None)
                  (mkTaskInstance "sign-off" task_running (Some 1) None JUndefined None 0)
                  PEFixtures.rejecting_metadata)
               (TaskExecutor.executeTask
                  (mkTaskContext None (Fixtures.task "sign-off" "approval" true None)
                     (mkTaskInstance "sign-off" task_running (Some 1) None JUndefined None 0)
                     PEFixtures.rejecting_metadata) 2)))
  = false.
Proof.
  exact (proj1 (executeTask_result_validates
                  (mkTaskContext None (Fixtures.task "sign-off" "approval" true None)
                     (mkTaskInstance "sign-off" task_running (Some 1) None JUndefined None 0)
                     PEFixtures.rejecting_metadata) 2 eq_refl)).
Defined.

(** ** PhaseExecutor: the loop ends, and how [executePhase] ends *)

Lemma schedule_more_fuel {E : Type} (te : ITaskExecutor E) (context : PhaseContext)
      (fuel : nat) :
  forall (L : Loop E) r k,
    PhaseExecutor.schedule te fuel context L = Some r ->
    PhaseExecutor.schedule te (fuel + k) context L = Some r.
Proof.
  induction fuel as [|fuel IH]; intros L r k Hrun; [done|].
  cbn [PhaseExecutor.schedule Nat.add] in *.
  destruct (_ <? _)%nat; [|done].
  destruct (List.length _ =? 0)%nat; [done|]. by apply IH.
Qed.

(** X2.  The [while] loop of [executePhase] ends after at most one round
    per task, whatever the task executor does: a budget of one iteration
    more than there are tasks always yields a result, and any larger
    budget yields the same one.  So [executePhase] always settles. *)
Theorem executePhase_loop_ends {E : Type} (te : ITaskExecutor E) (context : PhaseContext)
        (env : Env (PX E)) (fuel : nat) :
  (List.length (p_tasks (pc_phase context)) < fuel)%nat ->
  is_Some (PhaseExecutor.schedule te fuel context (initial_loop context env)) /\
  PhaseExecutor.schedule te fuel context (initial_loop context env)
  = PhaseExecutor.schedule te (S (List.length (p_tasks (pc_phase context)))) context
      (initial_loop context env) /\
  is_Some (PhaseExecutor.executePhase te context env).
Proof.
  intros Hfuel.
  destruct (schedule_total te context (S (List.length (p_tasks (pc_phase context))))
              (initial_loop context env)) as [r Hr].
  { apply Nat.lt_succ_r. unfold PhaseExecutor.pendingTasks. apply length_filter. }
  assert (Hmore : PhaseExecutor.schedule te fuel context (initial_loop context env) = Some r).
  { replace fuel with (S (List.length (p_tasks (pc_phase context)))
                       + (fuel - S (List.length (p_tasks (pc_phase context)))))%nat by lia.
    by apply schedule_more_fuel. }
  split; [by rewrite Hmore|]. split; [by rewrite Hmore, Hr|].
  apply executePhase_returns.
Qed.

Lemma executePhase_loop_ends_witness :
  is_Some (PhaseExecutor.schedule theTaskExecutor 10
             (Fixtures.test_context PEFixtures.cyclic_phase)
             (initial_loop (Fixtures.test_context PEFixtures.cyclic_phase)
                           (Fixtures.env0 tt))).
Proof.
  refine (proj1 (executePhase_loop_ends theTaskExecutor
                   (Fixtures.test_context PEFixtures.cyclic_phase)
                   (Fixtures.env0 tt) 10 _)).
  simpl. lia.
Defined.

Section PhaseOutcomes.
Context {E : Type} (te : ITaskExecutor E) (context : PhaseContext) (env : Env (PX E)).
Local Abbreviation tasks := (p_tasks (pc_phase context)).
Hypothesis tasks_nodup : NoDup (ids tasks).


End PhaseOutcomes.


(** ** PhaseExecutor: what [executePhase] leaves alone *)

Lemma evolves_refl S ts : evolves S ts ts.
Proof. intros k. destruct (ts !! k); [|done]. by split. Qed.

Lemma evolves_trans S ts1 ts2 ts3 :
  evolves S ts1 ts2 -> evolves S ts2 ts3 -> evolves S ts1 ts3.
Proof.
  intros H12 H23 k. specialize (H12 k). specialize (H23 k).
  destruct (ts1 !! k) as [a|], (ts2 !! k) as [b|], (ts3 !! k) as [c|]; try done.
  destruct H12 as [[H1 H2] Ha], H23 as [[H3 H4] Hb]. split.
  - split; congruence.
  - intros Hk. rewrite (Hb Hk). by apply Ha.
Qed.

Lemma evolves_mono S S' ts ts' :
  (forall k, k ∈ S -> k ∈ S') -> evolves S ts ts' -> evolves S' ts ts'.
Proof.
  intros Hsub H k. specialize (H k).
  destruct (ts !! k) as [a|], (ts' !! k) as [b|]; try done.
  destruct H as [Hid Hout]. split; [done|]. intros Hk. apply Hout. intros HS. by apply Hk, Hsub.
Qed.

Lemma evolves_alter (f : TaskInstance -> TaskInstance) id ts :
  (forall a, same_identity a (f a)) -> evolves [id] ts (alter f id ts).
Proof.
  intros Hf k. destruct (decide (id = k)) as [<-|Hne].
  - rewrite lookup_alter_eq. destruct (ts !! id) as [a|]; simpl; [|done].
    split; [apply Hf|]. intros Hk. exfalso. apply Hk. by left.
  - rewrite lookup_alter_ne by done. destruct (ts !! k); [|done]. by split.
Qed.

Section Frame.
Context {E : Type} (te : ITaskExecutor E) (context : PhaseContext).

Lemma start_task_evolves t ts (env : Env (PX E)) ts' env' l :
  PhaseExecutor.start_task te context t (ts, env) = ((ts', env'), l) ->
  evolves [t_id t] ts ts'.
Proof.
  unfold PhaseExecutor.start_task. destruct (ts !! t_id t) as [ti|] eqn:Hti.
  - simpl. destruct (te_executeTask te _ _ _) as [o e']. intros Hrun. simplify_eq.
    intros k. destruct (decide (t_id t = k)) as [<-|Hne].
    + rewrite lookup_insert_eq, Hti. split; [done|]. intros Hk. exfalso. apply Hk. by left.
    + rewrite lookup_insert_ne by done. destruct (ts !! k); [|done]. by split.
  - intros Hrun. simplify_eq. apply evolves_refl.
Qed.

Lemma settle_task_evolves t l ts (env : Env (PX E)) ts' env' r :
  PhaseExecutor.settle_task t l (ts, env) = ((ts', env'), r) ->
  evolves [t_id t] ts ts'.
Proof.
  unfold PhaseExecutor.settle_task.
  destruct l as [[result|error]|e]; simpl; intros Hrun; simplify_eq.
  - by apply evolves_alter.
  - by apply evolves_alter.
  - apply evolves_refl.
Qed.

Lemma classify_evolves t r (L : Loop E) :
  evolves [t_id t] (l_taskStates L) (l_taskStates (PhaseExecutor.classify t r L)).
Proof.
  unfold PhaseExecutor.classify. destruct r; [apply evolves_refl|].
  destruct (t_required t); [apply evolves_refl|]. simpl. by apply evolves_alter.
Qed.

Lemma start_all_evolves (fr : list Task) :
  forall ts (env : Env (PX E)) ts' env' ls,
    PhaseExecutor.start_all te context fr (ts, env) = ((ts', env'), ls) ->
    evolves (ids fr) ts ts'.
Proof.
  induction fr as [|t rest IH]; intros ts env ts' env' ls Hrun.
  - simpl in Hrun. simplify_eq. apply evolves_refl.
  - cbn [PhaseExecutor.start_all] in Hrun.
    destruct (PhaseExecutor.start_task te context t (ts, env)) as [[tsa enva] l] eqn:Hst.
    destruct (PhaseExecutor.start_all te context rest (tsa, enva)) as [[tsb envb] ls'] eqn:Hr.
    simplify_eq. eapply evolves_trans.
    + eapply evolves_mono; [|by eapply start_task_evolves].
      intros k Hk. apply list_elem_of_singleton in Hk as ->. by left.
    + eapply evolves_mono; [|by eapply IH]. intros k Hk. by right.
Qed.

Lemma settle_all_evolves (fr : list Task) :
  forall ls ts (env : Env (PX E)) ts' env' rs,
    PhaseExecutor.settle_all fr ls (ts, env) = ((ts', env'), rs) ->
    evolves (ids fr) ts ts'.
Proof.
  induction fr as [|t rest IH]; intros ls ts env ts' env' rs Hrun.
  - simpl in Hrun. simplify_eq. apply evolves_refl.
  - destruct ls as [|l ls]; [simpl in Hrun; simplify_eq; apply evolves_refl|].
    cbn [PhaseExecutor.settle_all] in Hrun.
    destruct (PhaseExecutor.settle_task t l (ts, env)) as [[tsa enva] r] eqn:Hst.
    destruct (PhaseExecutor.settle_all rest ls (tsa, enva)) as [[tsb envb] rs'] eqn:Hr.
    simplify_eq. eapply evolves_trans.
    + eapply evolves_mono; [|by eapply settle_task_evolves].
      intros k Hk. apply list_elem_of_singleton in Hk as ->. by left.
    + eapply evolves_mono; [|by eapply IH]. intros k Hk. by right.
Qed.

Lemma classify_all_evolves (fr : list Task) :
  forall rs (L : Loop E),
    evolves (ids fr) (l_taskStates L) (l_taskStates (PhaseExecutor.classify_all fr rs L)).
Proof.
  induction fr as [|t rest IH]; intros rs L; [apply evolves_refl|].
  destruct rs as [|r rs]; [apply evolves_refl|].
  cbn [PhaseExecutor.classify_all]. eapply evolves_trans.
  - eapply evolves_mono; [|apply (classify_evolves t r L)].
    intros k Hk. apply list_elem_of_singleton in Hk as ->. by left.
  - eapply evolves_mono; [|apply IH]. intros k Hk. by right.
Qed.

Lemma round_evolves (fr : list Task) (L : Loop E) :
  evolves (ids fr) (l_taskStates L) (l_taskStates (PhaseExecutor.round te context fr L)).
Proof.
  destruct (round_unfold te context fr L)
    as (ts1 & env1 & ls & ts2 & env2 & H1 & H2 & Hlen & ->).
  eapply evolves_trans; [by eapply start_all_evolves|].
  eapply evolves_trans; [by eapply settle_all_evolves|].
  apply (classify_all_evolves fr (map settled_of ls)
           (mkLoop ts2 env2 (executedTasks L) (failedTasks L))).
Qed.

Lemma schedule_evolves (fuel : nat) :
  forall (L L' : Loop E) thrown,
    PhaseExecutor.schedule te fuel context L = Some (L', thrown) ->
    evolves (ids (p_tasks (pc_phase context))) (l_taskStates L) (l_taskStates L').
Proof.
  induction fuel as [|fuel IH]; intros L L' thrown Hrun; [done|].
  cbn [PhaseExecutor.schedule] in Hrun.
  destruct (_ <? _)%nat; [|simplify_eq; apply evolves_refl].
  destruct (List.length _ =? 0)%nat.
  - destruct (0 <? _)%nat; simplify_eq; apply evolves_refl.
  - eapply evolves_trans; [|by eapply IH].
    eapply evolves_mono; [|apply round_evolves].
    intros k Hk. apply elem_of_ids in Hk as (t & Ht & <-).
    apply elem_of_tasksToExecute in Ht as [Ht _]. apply elem_of_ids. eauto.
Qed.

End Frame.

Lemma init_taskStates_lookup (tasks : list Task) :
  forall (ts : gmap string TaskInstance) k,
    PhaseExecutor.init_taskStates tasks ts !! k
    = match ts !! k with
      | Some a => Some a
      | None => if bool_decide (k ∈ ids tasks) then Some (fresh_task k) else None
      end.
Proof.
  unfold PhaseExecutor.init_taskStates.
  induction tasks as [|t rest IH]; intros ts k; cbn [foldl].
  - destruct (ts !! k); [done|]. rewrite bool_decide_eq_false_2; [done|]. apply not_elem_of_nil.
  - rewrite IH. unfold PhaseExecutor.init_task.
    assert (Hcons :
               (k <> t_id t) ->
               (if bool_decide (k ∈ ids rest) then Some (fresh_task k) else None)
               = if bool_decide (k ∈ ids (t :: rest)) then Some (fresh_task k) else None).
    { intros Hne. unfold ids. rewrite fmap_cons.
      destruct (bool_decide (k ∈ t_id <$> rest)) eqn:Hin.
      - apply bool_decide_eq_true in Hin. rewrite bool_decide_eq_true_2; [done|]. by right.
      - apply bool_decide_eq_false in Hin. rewrite bool_decide_eq_false_2; [done|].
        intros H. apply elem_of_cons in H as [|]; done. }
    destruct (ts !! t_id t) as [ti|] eqn:Hti.
    + destruct (ts !! k) as [a|] eqn:Hk; [done|].
      apply Hcons. congruence.
    + destruct (decide (k = t_id t)) as [->|Hne].
      * rewrite lookup_insert_eq, Hti. unfold ids. rewrite fmap_cons.
        rewrite bool_decide_eq_true_2; [done|]. by left.
      * rewrite lookup_insert_ne by done.
        destruct (ts !! k) as [a|] eqn:Hk; [done|]. by apply Hcons.
Qed.

(** X4.  Whatever the task executor does, and whatever ids the tasks
    have, [executePhase] removes no task instance, creates one (with retry
    counter 0) for every task of the phase that had none and no other,
    leaves the instances of ids that are not tasks of the phase exactly as
    they were, and never changes the [taskId] or the retry counter of an
    instance: a task is never retried on its own. *)
Theorem executePhase_task_states_frame {E : Type} (te : ITaskExecutor E)
        (context : PhaseContext) (env : Env (PX E)) :
  task_states_frame te context env.
Proof.
  unfold task_states_frame.
  destruct (schedule_total te context (S (List.length (p_tasks (pc_phase context))))
              (initial_loop context env)) as [[L thrown] Hrun].
  { apply Nat.lt_succ_r. unfold PhaseExecutor.pendingTasks. apply length_filter. }
  pose proof (schedule_evolves te context _ _ _ _ Hrun) as Hev.
  assert (Hres : exists r, PhaseExecutor.executePhase te context env
                           = Some (l_taskStates L, l_env L, r)).
  { unfold PhaseExecutor.executePhase. unfold initial_loop in Hrun. rewrite Hrun.
    destruct thrown; [eauto|]. destruct (0 <? _)%nat; [eauto|].
    destruct (PhaseExecutor.validatePhaseCompletion _ _); eauto. }
  destruct Hres as [r Hres]. exists (l_taskStates L), (l_env L), r. split; [done|].
  intros k. specialize (Hev k). simpl in Hev. rewrite init_taskStates_lookup in Hev.
  destruct (pi_taskStates (pc_phaseInstance context) !! k) as [a|].
  - destruct (l_taskStates L !! k) as [b|]; [|done]. exists b. tauto.
  - destruct (bool_decide (k ∈ ids (p_tasks (pc_phase context)))).
    + destruct (l_taskStates L !! k) as [b|]; [|done]. exists b. tauto.
    + by destruct (l_taskStates L !! k).
Qed.

(** ** PhaseExecutor: the state tasks are left in, and how often they run *)

Lemma started_ids_app l1 l2 : started_ids (l1 ++ l2) = started_ids l1 ++ started_ids l2.
Proof. apply omap_app. Qed.

Lemma settled_ids_app l1 l2 : settled_ids (l1 ++ l2) = settled_ids l1 ++ settled_ids l2.
Proof. apply omap_app. Qed.

Lemma elem_of_started_ids evs x :
  x ∈ started_ids evs <-> exists t snap, Started t snap ∈ evs /\ t_id t = x.
Proof.
  unfold started_ids. rewrite list_elem_of_omap. split.
  - intros (ev & Hev & Hid). destruct ev as [t snap| |]; simplify_eq/=. eauto.
  - intros (t & snap & Hev & <-). exists (Started t snap). done.
Qed.

Lemma elem_of_settled_ids evs x :
  x ∈ settled_ids evs <->
  exists t, t_id t = x /\ ((exists r, Resolved t r ∈ evs) \/ (exists e, Rejected t e ∈ evs)).
Proof.
  unfold settled_ids. rewrite list_elem_of_omap. split.
  - intros (ev & Hev & Hid). destruct ev as [|t r|t e]; simplify_eq/=; eauto.
  - intros (t & <- & [[r Hr]|[e He]]).
    + exists (Resolved t r). done.
    + exists (Rejected t e). done.
Qed.

Section PassEvents.
Context {E : Type} (te : ITaskExecutor E) (context : PhaseContext).

Lemma start_all_events (fr : list Task) :
  forall ts (env : Env (PX E)) ts1 env1 ls,
    PhaseExecutor.start_all te context fr (ts, env) = ((ts1, env1), ls) ->
    exists evs1,
      history (ext env1) = evs1 ++ history (ext env) /\
      settled_ids evs1 = [] /\
      (forall x, x ∈ started_ids evs1 -> x ∈ ids fr) /\
      (NoDup (ids fr) -> NoDup (started_ids evs1)).
Proof.
  induction fr as [|t rest IH]; intros ts env ts1 env1 ls Hrun.
  - simpl in Hrun. simplify_eq. exists []. split; [done|]. split; [done|]. split.
    + intros x Hx. by apply elem_of_nil in Hx.
    + intros _. apply NoDup_nil_2.
  - cbn [PhaseExecutor.start_all] in Hrun.
    destruct (PhaseExecutor.start_task te context t (ts, env)) as [[tsa enva] l] eqn:Hst.
    destruct (PhaseExecutor.start_all te context rest (tsa, enva)) as [[tsb envb] ls'] eqn:Hr.
    simplify_eq.
    destruct (IH _ _ _ _ _ Hr) as (evs & Hh & Hset & Hin & Hnd).
    assert (Hstep : exists evs0, history (ext enva) = evs0 ++ history (ext env) /\
                                 settled_ids evs0 = [] /\
                                 (forall x, x ∈ started_ids evs0 -> x = t_id t) /\
                                 NoDup (started_ids evs0)).
    { unfold PhaseExecutor.start_task in Hst. destruct (ts !! t_id t) as [ti|].
      - simpl in Hst. destruct (te_executeTask te _ _ _) as [o e']. simplify_eq.
        exists [Started t ts]. simpl. split; [done|]. split; [done|]. split.
        + intros x Hx. by apply list_elem_of_singleton in Hx.
        + apply NoDup_singleton.
      - simplify_eq. exists []. split; [done|]. split; [done|]. split.
        + intros x Hx. by apply elem_of_nil in Hx.
        + apply NoDup_nil_2. }
    destruct Hstep as (evs0 & Hh0 & Hset0 & Hin0 & Hnd0).
    exists (evs ++ evs0). split; [by rewrite Hh, Hh0, app_assoc|].
    split; [by rewrite settled_ids_app, Hset, Hset0|]. split.
    + intros x. rewrite started_ids_app, elem_of_app. unfold ids. rewrite fmap_cons.
      intros [Hx|Hx]; [right; by apply Hin|apply elem_of_cons; left; by apply Hin0].
    + unfold ids. rewrite fmap_cons. intros Hnodup. apply NoDup_cons in Hnodup as [Hnot Hnodup].
      rewrite started_ids_app. apply NoDup_app. split; [by apply Hnd|]. split; [|done].
      intros x Hx Hx0. apply Hin in Hx. apply Hin0 in Hx0. subst x. done.
Qed.

Lemma settle_all_events (fr : list Task) :
  forall ls ts (env : Env (PX E)) ts' env' rs,
    PhaseExecutor.settle_all fr ls (ts, env) = ((ts', env'), rs) ->
    exists evs2,
      history (ext env') = evs2 ++ history (ext env) /\
      started_ids evs2 = [] /\
      (forall x, x ∈ settled_ids evs2 -> x ∈ ids fr) /\
      (NoDup (ids fr) -> NoDup (settled_ids evs2)) /\
      (NoDup (ids fr) ->
       forall t e, Rejected t e ∈ evs2 -> is_Some (ts !! t_id t) ->
                   exists ti, ts' !! t_id t = Some ti /\ ti_error ti = Some e /\
                              ti_state ti = task_failed).
Proof.
  induction fr as [|t rest IH]; intros ls ts env ts' env' rs Hrun.
  - simpl in Hrun. simplify_eq. exists []. split; [done|]. split; [done|].
    split; [|split].
    + intros x Hx. by apply elem_of_nil in Hx.
    + intros _. apply NoDup_nil_2.
    + intros _ t e H. by apply elem_of_nil in H.
  - destruct ls as [|l ls].
    { simpl in Hrun. simplify_eq. exists []. split; [done|]. split; [done|].
      split; [|split].
      + intros x Hx. by apply elem_of_nil in Hx.
      + intros _. apply NoDup_nil_2.
      + intros _ t' e H. by apply elem_of_nil in H. }
    cbn [PhaseExecutor.settle_all] in Hrun.
    destruct (PhaseExecutor.settle_task t l (ts, env)) as [[tsa enva] r] eqn:Hst.
    destruct (PhaseExecutor.settle_all rest ls (tsa, enva)) as [[tsb envb] rs'] eqn:Hr.
    simplify_eq.
    destruct (IH _ _ _ _ _ _ Hr) as (evs & Hh & Hsta & Hin & Hnd & Hmark).
    pose proof (settle_all_evolves rest ls _ _ _ _ _ Hr) as Hev.
    destruct (settle_task_spec _ _ _ _ _ _ _ Hst) as (_ & _ & Hsome0 & _ & Hh0 & _).
    assert (Hid0 : forall x, x ∈ settled_ids (option_list (settle_event t l)) -> x = t_id t).
    { intros x Hx. destruct l as [[?|?]|?]; simpl in Hx.
      - by apply list_elem_of_singleton in Hx.
      - by apply list_elem_of_singleton in Hx.
      - by apply elem_of_nil in Hx. }
    exists (evs ++ option_list (settle_event t l)).
    split; [by rewrite Hh, Hh0, app_assoc|]. split.
    { rewrite started_ids_app, Hsta. by destruct l as [[?|?]|?]. }
    split; [|split].
    + intros x. rewrite settled_ids_app, elem_of_app. unfold ids. rewrite fmap_cons.
      intros [Hx|Hx]; [right; by apply Hin|apply elem_of_cons; left; by apply Hid0].
    + unfold ids. rewrite fmap_cons. intros Hnodup. apply NoDup_cons in Hnodup as [Hnot Hnodup].
      rewrite settled_ids_app. apply NoDup_app. split; [by apply Hnd|]. split.
      * intros x Hx Hx0. apply Hin in Hx. apply Hid0 in Hx0. subst x. done.
      * destruct l as [[?|?]|?]; simpl;
          [apply NoDup_singleton|apply NoDup_singleton|apply NoDup_nil_2].
    + unfold ids. rewrite fmap_cons. intros Hnodup t' e Hev' Hinst.
      apply NoDup_cons in Hnodup as [Hnot Hnodup].
      apply elem_of_app in Hev' as [Hev'|Hev'].
      * apply (Hmark Hnodup _ _ Hev'). by apply Hsome0.
      * destruct l as [[result|error]|e0]; simpl in Hev';
          [apply list_elem_of_singleton in Hev'; done
          |apply list_elem_of_singleton in Hev'; simplify_eq
          |by apply elem_of_nil in Hev'].
        unfold PhaseExecutor.settle_task in Hst. simpl in Hst. simplify_eq.
        destruct Hinst as [ti Hti].
        specialize (Hev (t_id t)). rewrite lookup_alter_eq, Hti in Hev. simpl in Hev.
        destruct (ts' !! t_id t) as [b|]; [|done].
        destruct Hev as [_ Hsame]. rewrite (Hsame Hnot). eexists. split; [done|]. done.
Qed.

End PassEvents.

Lemma evolves_outside S ts ts' k : evolves S ts ts' -> k ∉ S -> ts' !! k = ts !! k.
Proof.
  intros H Hk. specialize (H k). destruct (ts !! k) as [a|], (ts' !! k) as [b|]; try done.
  destruct H as [_ H]. by rewrite (H Hk).
Qed.

Lemma no_settlement_in evs t :
  settled_ids evs = [] ->
  (forall r, Resolved t r ∉ evs) /\ (forall e, Rejected t e ∉ evs).
Proof.
  intros Hnil. split.
  - intros r Hr. assert (H : t_id t ∈ settled_ids evs).
    { apply elem_of_settled_ids. exists t. split; [done|]. left. eauto. }
    rewrite Hnil in H. by apply elem_of_nil in H.
  - intros e He. assert (H : t_id t ∈ settled_ids evs).
    { apply elem_of_settled_ids. exists t. split; [done|]. right. eauto. }
    rewrite Hnil in H. by apply elem_of_nil in H.
Qed.

Section SecondInvariant.
Context {E : Type} (te : ITaskExecutor E) (context : PhaseContext).
Variable tasks : list Task.
Hypothesis tasks_nodup : NoDup (ids tasks).
Variable ts0 : gmap string TaskInstance.

Lemma round_inv2 h0 evs (L : Loop E) new :
  Inv tasks h0 evs L -> Inv2 ts0 evs L ->
  Inv tasks h0 (new ++ evs)
      (PhaseExecutor.round te context
         (PhaseExecutor.tasksToExecute tasks (executedTasks L) (failedTasks L)) L) ->
  Inv2 ts0 (new ++ evs)
       (PhaseExecutor.round te context
          (PhaseExecutor.tasksToExecute tasks (executedTasks L) (failedTasks L)) L).
Proof.
  intros HI HJ HI'.
  set (fr := PhaseExecutor.tasksToExecute tasks (executedTasks L) (failedTasks L)) in *.
  pose proof (round_evolves te context fr L) as Hev.
  destruct (round_sets te context fr L) as (Hmono_e & Hmono_f & Hres).
  destruct (round_unfold te context fr L)
    as (ts1 & env1 & ls & ts2 & env2 & H1 & H2 & Hlen & Hround).
  destruct (start_all_spec te context fr _ _ _ _ _ H1)
    as (_ & _ & Hsome1 & _).
  destruct (start_all_events te context fr _ _ _ _ _ H1)
    as (evs1 & Hh1 & Hset1 & Hin1 & Hnd1).
  destruct (settle_all_spec fr _ _ _ _ _ _ Hlen H2)
    as (_ & _ & _ & _ & (evs2' & Hh2' & Hevs2) & _).
  destruct (settle_all_events fr _ _ _ _ _ _ H2)
    as (evs2 & Hh2 & Hsta2 & Hin2 & Hnd2 & Hmark2).
  assert (evs2' = evs2) as ->.
  { rewrite Hh2 in Hh2'. by apply app_inv_tail in Hh2'. }
  destruct (classify_all_spec fr ls (mkLoop ts2 env2 (executedTasks L) (failedTasks L)) Hlen)
    as (He3 & _ & _ & _ & _ & _ & _ & Hat3).
  simpl in He3, Hat3. rewrite <- Hround in He3, Hat3.
  set (L' := PhaseExecutor.round te context fr L) in *.
  assert (Hnew : new = evs2 ++ evs1).
  { pose proof (inv_hist _ _ _ _ HI') as Hh. rewrite He3, Hh2, Hh1 in Hh.
    rewrite (inv_hist _ _ _ _ HI) in Hh.
    rewrite <- !app_assoc in Hh. rewrite !app_assoc in Hh.
    apply app_inv_tail in Hh. apply app_inv_tail in Hh. done. }
  subst new.
  assert (Hfr : forall t, t ∈ fr ->
            t ∈ tasks /\ (t_id t ∉ executedTasks L) /\ (t_id t ∉ failedTasks L)).
  { intros t Ht. apply elem_of_tasksToExecute in Ht as [Ht Hr].
    apply ready_true in Hr. tauto. }
  assert (Hndfr : NoDup (ids fr)) by by apply NoDup_ids_tasksToExecute.
  assert (Hold : forall k, k ∈ executedTasks L ++ failedTasks L -> k ∉ ids fr).
  { intros k Hk Hin. apply elem_of_ids in Hin as (t & Ht & <-).
    destruct (Hfr t Ht) as (_ & Hne & Hnf).
    apply elem_of_app in Hk as [|]; done. }
  constructor.
  - (* untouched *)
    intros k Hk.
    assert (Hk1 : k ∉ ids fr).
    { intros Hin. apply elem_of_ids in Hin as (t & Ht & <-). apply Hk.
      apply elem_of_app. by apply Hres. }
    assert (Hk0 : k ∉ executedTasks L ++ failedTasks L).
    { intros Hin. apply Hk. apply elem_of_app.
      apply elem_of_app in Hin as [Hin|Hin]; [left; by apply Hmono_e|right; by apply Hmono_f]. }
    rewrite (evolves_outside _ _ _ _ Hev Hk1). by apply (inv_untouched _ _ _ HJ).
  - (* rejected tasks *)
    intros t e Hrej. rewrite <- app_assoc in Hrej.
    apply elem_of_app in Hrej as [Hrej|Hrej]; [|apply elem_of_app in Hrej as [Hrej|Hrej]].
    + assert (Hzip : (t, InFlight (inr e)) ∈ zip fr ls).
      { apply Hevs2 in Hrej as (t' & l & Hzip & Hse).
        destruct l as [[?|?]|?]; simpl in Hse; simplify_eq. done. }
      assert (Ht : t ∈ fr) by by apply elem_of_zip_l in Hzip.
      destruct (Hmark2 Hndfr t e Hrej) as (ti & Hti & Herr & Hst).
      { apply Hsome1. apply (inv_inst _ _ _ _ HI). by apply Hfr. }
      rewrite (Hat3 Hndfr _ _ Hzip), Hti. simpl.
      destruct (t_required t); simpl; eexists; (split; [reflexivity|]); done.
    + exfalso. by apply (proj2 (no_settlement_in evs1 t Hset1) e).
    + destruct (inv_rejected_mark _ _ _ HJ _ _ Hrej) as (ti & Hti & Hm).
      exists ti. split; [|done]. rewrite (evolves_outside _ _ _ _ Hev); [done|].
      apply Hold. destruct (inv_rejected _ _ _ _ HI _ _ Hrej) as (_ & Hin).
      apply elem_of_app. destruct (t_required t); [by right|left; tauto].
  - (* started once *)
    rewrite !started_ids_app, Hsta2. simpl. apply NoDup_app.
    split; [by apply Hnd1|]. split; [|apply (inv_started_once _ _ _ HJ)].
    intros x Hx1 Hx. apply Hin1 in Hx1.
    apply elem_of_started_ids in Hx as (t & snap & Hs & <-).
    destruct (inv_started _ _ _ _ HI _ _ Hs) as [_ Hin]. by apply (Hold _ Hin).
  - (* settled once *)
    rewrite !settled_ids_app, Hset1, app_nil_r. apply NoDup_app.
    split; [by apply Hnd2|]. split; [|apply (inv_settled_once _ _ _ HJ)].
    intros x Hx2 Hx. apply Hin2 in Hx2.
    apply elem_of_settled_ids in Hx as (t & <- & [[r Hr]|[e He]]).
    + destruct (inv_resolved _ _ _ _ HI _ _ Hr) as (_ & Hin & _).
      apply (Hold (t_id t)); [|done]. apply elem_of_app. by left.
    + destruct (inv_rejected _ _ _ _ HI _ _ He) as (_ & Hin).
      apply (Hold (t_id t)); [|done]. apply elem_of_app.
      destruct (t_required t); [by right|left; tauto].
Qed.

End SecondInvariant.

Section SecondSchedule.
Context {E : Type} (te : ITaskExecutor E) (context : PhaseContext).
Local Abbreviation tasks := (p_tasks (pc_phase context)).
Hypothesis tasks_nodup : NoDup (ids tasks).
Variable ts0 : gmap string TaskInstance.

Lemma schedule_inv2 (fuel : nat) h0 :
  forall (L : Loop E) evs L' thrown new,
    Inv tasks h0 evs L -> Inv2 ts0 evs L ->
    PhaseExecutor.schedule te fuel context L = Some (L', thrown) ->
    Inv tasks h0 (new ++ evs) L' -> Inv2 ts0 (new ++ evs) L'.
Proof.
  induction fuel as [|fuel IH]; intros L evs L' thrown new HI HJ Hrun HI'; [done|].
  assert (Hstay : L' = L -> Inv2 ts0 (new ++ evs) L').
  { intros ->. pose proof (inv_hist _ _ _ _ HI') as Hh.
    rewrite (inv_hist _ _ _ _ HI) in Hh. apply app_inv_tail in Hh.
    assert (Hnil : new ++ evs = [] ++ evs) by done.
    apply app_inv_tail in Hnil. by subst new. }
  cbn [PhaseExecutor.schedule] in Hrun.
  destruct (_ <? _)%nat; [|simplify_eq; by apply Hstay].
  destruct (List.length _ =? 0)%nat.
  { destruct (0 <? _)%nat; simplify_eq; by apply Hstay. }
  destruct (round_inv te context tasks tasks_nodup h0 evs L HI) as [new1 HI1].
  pose proof (round_inv2 te context tasks tasks_nodup ts0 h0 evs L new1 HI HJ HI1) as HJ1.
  destruct (schedule_inv te context tasks_nodup fuel h0 _ _ _ _ HI1 Hrun)
    as (new2 & HI2 & _).
  assert (new = new2 ++ new1) as ->.
  { pose proof (inv_hist _ _ _ _ HI') as Hh. rewrite (inv_hist _ _ _ _ HI2) in Hh.
    rewrite !app_assoc in Hh. apply app_inv_tail in Hh. by apply app_inv_tail in Hh. }
  rewrite <- app_assoc. apply (IH _ _ _ _ _ HI1 HJ1 Hrun HI2).
Qed.

End SecondSchedule.

Section FinalStates.
Context {E : Type} (te : ITaskExecutor E) (context : PhaseContext) (env : Env (PX E)).
Local Abbreviation tasks := (p_tasks (pc_phase context)).
Hypothesis tasks_nodup : NoDup (ids tasks).

Lemma executePhase_facts2 :
  exists L thrown evs,
    runs te context env (l_taskStates L) (l_env L) (after_loop context L thrown) evs /\
    Inv tasks (history (ext env)) evs L /\
    Inv2 (l_taskStates (initial_loop context env)) evs L /\
    loop_exit context L thrown.
Proof.
  destruct (schedule_total te context (S (List.length tasks)) (initial_loop context env))
    as [[L thrown] Hrun].
  { apply Nat.lt_succ_r. unfold PhaseExecutor.pendingTasks. apply length_filter. }
  assert (HI0 : Inv tasks (history (ext env)) [] (initial_loop context env)).
  { constructor; simpl; try done.
    - intros x Hx. by apply elem_of_nil in Hx.
    - apply NoDup_nil_2.
    - intros t Ht. by apply init_taskStates_inst.
    - intros t r H. by apply elem_of_nil in H.
    - intros t e H. by apply elem_of_nil in H.
    - intros t s H. by apply elem_of_nil in H.
    - intros t _ H. by apply elem_of_nil in H.
    - intros t _ H. by apply elem_of_nil in H. }
  assert (HJ0 : Inv2 (l_taskStates (initial_loop context env)) []
                     (initial_loop context env)).
  { constructor; simpl; try done.
    - intros t e H. by apply elem_of_nil in H.
    - apply NoDup_nil_2.
    - apply NoDup_nil_2. }
  destruct (schedule_inv te context tasks_nodup _ _ _ _ _ _ HI0 Hrun) as (new & HI & Hexit).
  pose proof (schedule_inv2 te context tasks_nodup _ _ _ _ _ _ _ new HI0 HJ0 Hrun HI) as HJ.
  rewrite app_nil_r in HI, HJ.
  exists L, thrown, new. split; [|done]. split; [|apply (inv_hist _ _ _ _ HI)].
  unfold PhaseExecutor.executePhase. unfold initial_loop in Hrun. rewrite Hrun.
  unfold after_loop. destruct thrown; [done|].
  destruct (0 <? _)%nat; [done|]. by destruct (PhaseExecutor.validatePhaseCompletion _ _).
Qed.


(** X6.  During one [executePhase] (task ids pairwise distinct) no task
    is handed to the task executor twice and none settles twice; only
    tasks of the phase are started, and the tasks that settled are
    exactly the tasks that were started. *)
Theorem executePhase_runs_each_task_once : executed_once te context env.
Proof.
  destruct executePhase_facts2 as (L & thrown & evs & Hrun & HI & HJ & Hexit).
  exists (l_taskStates L), (l_env L), (after_loop context L thrown), evs.
  split; [done|]. split; [apply (inv_started_once _ _ _ HJ)|].
  split; [apply (inv_settled_once _ _ _ HJ)|]. split.
  - intros x Hx. apply elem_of_started_ids in Hx as (t & snap & Hs & <-).
    destruct (inv_started _ _ _ _ HI _ _ Hs) as [Ht _]. apply elem_of_ids. eauto.
  - intros x. rewrite elem_of_settled_ids, elem_of_started_ids. split.
    + intros (t & <- & [[r Hr]|[e He]]).
      * destruct (inv_resolved _ _ _ _ HI _ _ Hr) as (Ht & Hin & _).
        destruct (inv_executed _ _ _ _ HI t Ht Hin) as [[snap Hs] _]. eauto.
      * destruct (inv_rejected _ _ _ _ HI _ _ He) as (Ht & Hin).
        destruct (t_required t).
        -- destruct (inv_failed _ _ _ _ HI t Ht Hin) as [[snap Hs] _]. eauto.
        -- destruct Hin as [Hin _].
           destruct (inv_executed _ _ _ _ HI t Ht Hin) as [[snap Hs] _]. eauto.
    + intros (t & snap & Hs & <-). exists t. split; [done|].
      destruct (inv_started _ _ _ _ HI _ _ Hs) as [Ht Hin].
      apply elem_of_app in Hin as [Hin|Hin].
      * destruct (inv_executed _ _ _ _ HI t Ht Hin) as [_ [[r Hr]|(e & He & _)]]; eauto.
      * destruct (inv_failed _ _ _ _ HI t Ht Hin) as (_ & _ & e & He). eauto.
Qed.

End FinalStates.


Lemma executePhase_runs_each_task_once_witness :
  executed_once theTaskExecutor
                (Fixtures.test_context PEFixtures.partly_cyclic_phase) (Fixtures.env0 tt).
Proof. apply executePhase_runs_each_task_once. compute_done. Defined.

(** ** PhaseExecutor with the shipped TaskExecutor *)

Section Origin.
Context {E : Type} (te : ITaskExecutor E) (context : PhaseContext).

Lemma start_all_origin (fr : list Task) :
  forall ts (env : Env (PX E)) ts1 env1 ls,
    PhaseExecutor.start_all te context fr (ts, env) = ((ts1, env1), ls) ->
    Forall2 (launched_by te context) fr ls.
Proof.
  induction fr as [|t rest IH]; intros ts env ts1 env1 ls Hrun.
  - simpl in Hrun. simplify_eq. constructor.
  - cbn [PhaseExecutor.start_all] in Hrun.
    destruct (PhaseExecutor.start_task te context t (ts, env)) as [[tsa enva] l] eqn:Hst.
    destruct (PhaseExecutor.start_all te context rest (tsa, enva)) as [[tsb envb] ls'] eqn:Hr.
    simplify_eq. constructor; [|by eapply IH].
    unfold PhaseExecutor.start_task in Hst. destruct (ts !! t_id t) as [ti|].
    + simpl in Hst. destruct (te_executeTask te _ _ _) as [o e'] eqn:Ho. simplify_eq.
      simpl. eexists _, _, _. split; [|split; [|by rewrite Ho]]; done.
    + by simplify_eq.
Qed.

Lemma settle_all_origin (fr : list Task) :
  forall ls ts (env : Env (PX E)) ts' env' rs,
    Forall2 (launched_by te context) fr ls ->
    PhaseExecutor.settle_all fr ls (ts, env) = ((ts', env'), rs) ->
    exists evs2, history (ext env') = evs2 ++ history (ext env) /\
                 Forall (from_executor te context) evs2.
Proof.
  induction fr as [|t rest IH]; intros ls ts env ts' env' rs Hfrom Hrun.
  - simpl in Hrun. simplify_eq. by exists [].
  - destruct ls as [|l ls]; [by apply Forall2_cons_nil_inv in Hfrom|].
    apply Forall2_cons in Hfrom as [Hl Hfrom].
    cbn [PhaseExecutor.settle_all] in Hrun.
    destruct (PhaseExecutor.settle_task t l (ts, env)) as [[tsa enva] r] eqn:Hst.
    destruct (PhaseExecutor.settle_all rest ls (tsa, enva)) as [[tsb envb] rs'] eqn:Hr.
    simplify_eq.
    destruct (IH _ _ _ _ _ _ Hfrom Hr) as (evs & Hh & Hall).
    destruct (settle_task_spec _ _ _ _ _ _ _ Hst) as (_ & _ & _ & _ & Hh0 & _).
    exists (evs ++ option_list (settle_event t l)). split; [by rewrite Hh, Hh0, app_assoc|].
    apply Forall_app. split; [done|].
    destruct l as [[result|error]|e]; simpl; [| |constructor];
      (constructor; [exact Hl|constructor]).
Qed.

Lemma round_origin (fr : list Task) (L : Loop E) :
  exists new,
    history (ext (l_env (PhaseExecutor.round te context fr L)))
    = new ++ history (ext (l_env L)) /\
    Forall (from_executor te context) new.
Proof.
  destruct (round_unfold te context fr L)
    as (ts1 & env1 & ls & ts2 & env2 & H1 & H2 & Hlen & ->).
  destruct (start_all_spec te context fr _ _ _ _ _ H1)
    as (_ & _ & _ & evs1 & Hh1 & Hevs1 & _).
  pose proof (start_all_origin fr _ _ _ _ _ H1) as Hfrom.
  destruct (settle_all_origin fr _ _ _ _ _ _ Hfrom H2) as (evs2 & Hh2 & Hall2).
  destruct (classify_all_spec fr ls (mkLoop ts2 env2 (executedTasks L) (failedTasks L)) Hlen)
    as (He3 & _).
  simpl in He3. rewrite He3.
  exists (evs2 ++ evs1). split; [by rewrite Hh2, Hh1, app_assoc|].
  apply Forall_app. split; [done|]. apply Forall_forall. intros ev Hev.
  destruct (Hevs1 ev Hev) as (t & snap & -> & _). done.
Qed.

Lemma schedule_origin (fuel : nat) :
  forall (L L' : Loop E) thrown,
    PhaseExecutor.schedule te fuel context L = Some (L', thrown) ->
    exists new, history (ext (l_env L')) = new ++ history (ext (l_env L)) /\
                Forall (from_executor te context) new.
Proof.
  induction fuel as [|fuel IH]; intros L L' thrown Hrun; [done|].
  cbn [PhaseExecutor.schedule] in Hrun.
  destruct (_ <? _)%nat; [|simplify_eq; by exists []].
  destruct (List.length _ =? 0)%nat.
  { destruct (0 <? _)%nat; simplify_eq; by exists []. }
  destruct (IH _ _ _ Hrun) as (new2 & Hh2 & Hall2).
  destruct (round_origin
              (PhaseExecutor.tasksToExecute (p_tasks (pc_phase context))
                 (executedTasks L) (failedTasks L)) L) as (new1 & Hh1 & Hall1).
  exists (new2 ++ new1). split; [by rewrite Hh2, Hh1, app_assoc|].
  apply Forall_app. done.
Qed.

(** Every settlement that [executePhase] records is what the task
    executor answered for that task, called with the metadata of the
    phase context. *)
Lemma executePhase_origin (env : Env (PX E)) ts' env' r evs :
  runs te context env ts' env' r evs -> Forall (from_executor te context) evs.
Proof.
  intros [Hrun Hhist]. unfold PhaseExecutor.executePhase in Hrun.
  destruct (PhaseExecutor.schedule te _ context _) as [[L thrown]|] eqn:Hs; [|done].
  destruct (schedule_origin _ _ _ _ Hs) as (new & Hh & Hall). simpl in Hh.
  assert (Henv : l_env L = env').
  { destruct thrown; [by simplify_eq|]. destruct (0 <? _)%nat; [by simplify_eq|].
    destruct (PhaseExecutor.validatePhaseCompletion _ _); by simplify_eq. }
  rewrite Henv, Hhist in Hh. apply app_inv_tail in Hh. by subst.
Qed.

End Origin.

(** X7.  With the shipped [TaskExecutor], which answers every task and
    rejects none, [executePhase] succeeds for every phase whose task ids
    are pairwise distinct and whose dependencies are acyclic and name
    tasks of the phase (metadata of the declared types): every task ends
    completed, holding the result that [executeTask] produces for it with
    the metadata of the phase context.  A refused approval included: its
    result has status [rejected] and the phase still succeeds. *)
Theorem shipped_executor_completes_every_phase
        (context : PhaseContext) (env : Env (PX unit)) (rank : string -> nat) :
  NoDup (ids (p_tasks (pc_phase context))) ->
  acyclic rank (p_tasks (pc_phase context)) = true ->
  typed_metadata (pc_metadata context) = true ->
  shipped_phase_succeeds context env.
Proof.
  intros Hnd Hacyc _.
  destruct (executePhase_facts theTaskExecutor context env Hnd)
    as (L & thrown & evs & Hrun & HI & Hexit).
  pose proof (executePhase_origin theTaskExecutor context env _ _ _ _ Hrun) as Horigin.
  rewrite Forall_forall in Horigin.
  assert (Hnone : forall t e, Rejected t e ∈ evs -> t_required t = false).
  { intros t e He. destruct (Horigin _ He) as (tc & now & st & _ & _ & Hcall). done. }
  destruct (no_required_rejection_succeeds _ _ _ _ HI context eq_refl thrown Hexit
              rank Hacyc Hnone) as [Hok _].
  destruct Hrun as [Hrun Hhist]. rewrite Hok in Hrun.
  exists (l_taskStates L), (l_env L). split; [done|].
  intros t Ht.
  assert (Hin : t_id t ∈ executedTasks L).
  { unfold after_loop in Hok. destruct thrown as [err|]; [done|].
    destruct (0 <? List.length (failedTasks L))%nat eqn:Hlen; [done|].
    apply Nat.ltb_ge in Hlen. destruct (Hexit t Ht) as [|Hf]; [done|].
    destruct (failedTasks L); [by apply elem_of_nil in Hf|simpl in Hlen; lia]. }
  destruct (inv_executed _ _ _ _ HI t Ht Hin) as [_ [[r Hr]|(e & He & _)]].
  - destruct (inv_resolved _ _ _ _ HI _ _ Hr) as (_ & _ & ti & Hti & Hst & Hres).
    destruct (Horigin _ Hr) as (tc & now & st & Htask & Hmeta & Hcall).
    simpl in Hcall. exists ti, tc, now. repeat (split; [done|]). congruence.
  - destruct (Horigin _ He) as (tc & now & st & _ & _ & Hcall). done.
Qed.

Lemma shipped_executor_completes_every_phase_witness :
  shipped_phase_succeeds PEFixtures.approval_context (Fixtures.env0 tt).
Proof.
  apply (shipped_executor_completes_every_phase _ _ PEFixtures.rank); compute_done.
Defined.

(** ** PhaseExecutor: rollback and validation *)

Lemma rollback_task_not_completed (ti : TaskInstance) :
  ti_state (PhaseExecutor.rollback_task ti) <> task_completed.
Proof.
  unfold PhaseExecutor.rollback_task.
  destruct (decide (ti_state ti = task_completed)); [by simpl|done].
Qed.

Lemma rollback_task_idempotent (ti : TaskInstance) :
  PhaseExecutor.rollback_task (PhaseExecutor.rollback_task ti)
  = PhaseExecutor.rollback_task ti.
Proof.
  unfold PhaseExecutor.rollback_task at 1.
  destruct (decide (ti_state (PhaseExecutor.rollback_task ti) = task_completed)) as [H|H];
    [|done].
  by apply rollback_task_not_completed in H.
Qed.

(** X8.  After [rollbackPhase] no task instance of the phase is completed,
    so [validatePhaseCompletion] holds of the rolled-back phase exactly
    when the phase has no required task; and rolling back a second time
    changes nothing. *)
Theorem rollbackPhase_undoes_completion (context : PhaseContext) :
  let after := PhaseExecutor.rollbackPhase context in
  (forall id ti, pi_taskStates after !! id = Some ti -> ti_state ti <> task_completed) /\
  PhaseExecutor.validatePhaseCompletion (pc_phase context) (pi_taskStates after)
  = negb (existsb t_required (p_tasks (pc_phase context))) /\
  PhaseExecutor.rollbackPhase
    (mkPhaseContext (pc_workflowInstance context) (pc_phase context) after
                    (pc_metadata context))
  = after.
Proof.
  cbv zeta. unfold PhaseExecutor.rollbackPhase. simpl.
  assert (Hnot : forall id ti,
             (PhaseExecutor.rollback_task <$> pi_taskStates (pc_phaseInstance context)) !! id
             = Some ti -> ti_state ti <> task_completed).
  { intros id ti. rewrite lookup_fmap.
    destruct (pi_taskStates (pc_phaseInstance context) !! id) as [ti0|]; simpl; [|done].
    intros [= <-]. apply rollback_task_not_completed. }
  split; [exact Hnot|]. split.
  - unfold PhaseExecutor.validatePhaseCompletion.
    induction (p_tasks (pc_phase context)) as [|t rest IH]; [done|].
    rewrite filter_cons. simpl. destruct (t_required t) eqn:Hreq.
    + rewrite decide_True by done. simpl.
      destruct (_ !! t_id t) as [ti|] eqn:Hti; [|done].
      rewrite bool_decide_eq_false_2 by (by apply (Hnot (t_id t))). done.
    + rewrite decide_False by (by intros []). simpl. exact IH.
  - unfold pi_set_taskStates, pi_set_state. simpl. f_equal.
    rewrite <- map_fmap_compose. apply map_fmap_ext. intros id ti _. simpl.
    apply rollback_task_idempotent.
Qed.

(** ** StateMachine: how the private [executePhase] can end *)

Lemma wp_conj {X A} (m : SM X -> Outcome A * SM X) (P Q : Outcome A -> SM X -> Prop) s :
  wp m P s -> wp m Q s -> wp m (fun r s' => P r s' /\ Q r s') s.
Proof. unfold wp. auto. Qed.

Lemma guards_pass_kept {X} (phaseManager : IPhaseManager) (s s' : SM X) iid pid :
  instances_kept s s' -> guards_pass phaseManager s iid pid ->
  guards_pass phaseManager s' iid pid.
Proof.
  intros Hkept (inst & phase & pinst & Hinst & Hphase & Hpinst).
  destruct (Hkept _ _ Hinst) as (inst' & Hinst' & Hwid & Hdom).
  assert (Hin : is_Some (wi_phaseStates inst' !! pid)).
  { apply elem_of_dom. rewrite Hdom. apply elem_of_dom. eauto. }
  destruct Hin as [pinst' Hpinst'].
  exists inst', phase, pinst'. rewrite Hwid. done.
Qed.

Lemma guard_error_None {X} (phaseManager : IPhaseManager) (s : SM X) iid pid :
  guard_error phaseManager s iid pid = None <-> guards_pass phaseManager s iid pid.
Proof.
  unfold guard_error, guards_pass. split.
  - destruct (instances s !! iid) as [inst|]; [|done].
    destruct (getPhase _ _ _) as [phase|] eqn:Hphase; [|done].
    destruct (wi_phaseStates inst !! pid) as [pinst|] eqn:Hpinst; [|done]. eauto 10.
  - intros (inst & phase & pinst & -> & -> & ->). done.
Qed.

(** [instances_kept] on the maps themselves. *)
Lemma kept_refl (m : gmap string WorkflowInstance) :
  forall iid i, m !! iid = Some i ->
    exists i', m !! iid = Some i' /\ wi_workflowId i' = wi_workflowId i /\
               dom (wi_phaseStates i') = dom (wi_phaseStates i).
Proof. intros iid i H. eauto. Qed.

Lemma kept_alter_after (m m' : gmap string WorkflowInstance) f k :
  frame_safe f ->
  (forall iid i, m !! iid = Some i ->
     exists i', m' !! iid = Some i' /\ wi_workflowId i' = wi_workflowId i /\
                dom (wi_phaseStates i') = dom (wi_phaseStates i)) ->
  forall iid i, m !! iid = Some i ->
    exists i', alter f k m' !! iid = Some i' /\ wi_workflowId i' = wi_workflowId i /\
               dom (wi_phaseStates i') = dom (wi_phaseStates i).
Proof.
  intros Hf Hm iid i Hi. destruct (Hm _ _ Hi) as (i1 & Hi1 & Hw & Hd).
  destruct (decide (k = iid)) as [<-|Hne].
  - rewrite lookup_alter_eq, Hi1. simpl. exists (f i1).
    destruct (Hf i1) as (_ & Hw' & Hd'). split; [done|]. split; congruence.
  - rewrite lookup_alter_ne by done. eauto.
Qed.

(** Solves [instances_kept s s'] and [guards_pass _ s' _ _] when the
    instances of [s'] are those of [s] under a series of field updates. *)
Ltac kept_updates :=
  unfold instances_kept; cbn [instances];
  repeat (apply kept_alter_after; [first [apply frame_safe_phase | by intros ?]|]);
  apply kept_refl.

Section PhaseEnds.
Context {X : Type}.
Variable phaseManager : IPhaseManager.
Variable transitionValidator : ITransitionValidator X.
Variable phaseExecutor : IPhaseExecutor X.
Variable persistence : option (IWorkflowPersistence X).
Variable config : IStateMachineConfig.

Local Abbreviation executePhase :=
  (StateMachine.executePhase phaseManager transitionValidator phaseExecutor
                             persistence config).

Lemma instances_kept_step (s : SM X) iid f :
  frame_safe f ->
  instances_kept s (mkSM (alter f iid (instances s)) (log s) (uuids s) (env s)).
Proof. apply instances_kept_alter. Qed.

Lemma try_body_instances_kept fuel iid pid phase inst pinst :
  preserves instances_kept
    (StateMachine.bind
       (StateMachine.run_phaseExecutor phaseExecutor iid pid phase inst pinst)
       (fun _ => StateMachine.on_phase_success phaseManager transitionValidator
                   persistence config (executePhase fuel) iid pid phase inst)).
Proof.
  assert (Hlog : forall (s : SM X) e,
             instances_kept s (mkSM (instances s) (e :: log s) (uuids s) (env s))).
  { intros s e k i Hi. simpl. eauto. }
  assert (Henv : forall (s : SM X) env',
             instances_kept s (mkSM (instances s) (log s) (uuids s) env')).
  { intros s env' k i Hi. simpl. eauto. }
  apply preserves_bind; [apply instances_kept_trans| |intros _].
  - apply preserves_run_phaseExecutor;
      [apply instances_kept_trans|exact Henv|apply instances_kept_step].
  - apply preserves_on_phase_success;
      [apply instances_kept_refl|apply instances_kept_trans|exact Hlog|exact Henv
      |apply instances_kept_step|].
    intros a b. apply executePhase_instances_kept.
Qed.

(** [failWorkflow] and [completeWorkflow] end the workflow, unless the
    store rejects. *)
Lemma failWorkflow_returns iid e (s : SM X) :
  wp (StateMachine.failWorkflow persistence config iid e)
     (fun r s' => match r with
                  | Returned _ => is_Some (instances s !! iid) -> terminal_workflow s' iid
                  | Threw e => store_rejects_with persistence config e
                  | OutOfFuel => False
                  end) s.
Proof.
  unfold StateMachine.failWorkflow. wp_steps.
  unfold StateMachine.getWorkflowInstance. wp_simpl.
  destruct (instances s !! iid) as [inst|] eqn:Hinst; wp_steps.
  - intros _. unfold terminal_workflow. simpl.
    rewrite lookup_alter_eq, Hinst. simpl. eexists. split; [reflexivity|]. by right.
  - done.
  - by intros [? ?].
Qed.

Lemma completeWorkflow_returns iid (s : SM X) :
  wp (StateMachine.completeWorkflow persistence config iid)
     (fun r s' => match r with
                  | Returned _ => is_Some (instances s !! iid) -> terminal_workflow s' iid
                  | Threw e => store_rejects_with persistence config e
                  | OutOfFuel => False
                  end) s.
Proof.
  unfold StateMachine.completeWorkflow. wp_steps.
  unfold StateMachine.getWorkflowInstance. wp_simpl.
  destruct (instances s !! iid) as [inst|] eqn:Hinst; wp_steps.
  - intros _. unfold terminal_workflow. simpl.
    rewrite lookup_alter_eq, Hinst. simpl. eexists. split; [reflexivity|]. by left.
  - done.
  - by intros [? ?].
Qed.

(** The [catch] block started where the checks pass: it ends the
    workflow, or throws what the store rejected with. *)
Lemma on_phase_failure_ends_well fuel iid pid inst pinst error (s : SM X) :
  (forall s0, wp (executePhase fuel iid pid)
                 (ends_well phaseManager persistence config iid pid s0) s0) ->
  guards_pass phaseManager s iid pid ->
  wp (StateMachine.on_phase_failure persistence config (executePhase fuel) iid pid
        inst pinst error)
     (fun r s' => match r with
                  | Returned _ => usable_next_phases phaseManager -> terminal_workflow s' iid
                  | Threw e => store_rejects_with persistence config e
                  | OutOfFuel => True
                  end) s.
Proof.
  intros IH Hpass.
  assert (Hexec : forall s1, guards_pass phaseManager s1 iid pid ->
            wp (executePhase fuel iid pid)
               (fun r s' => match r with
                            | Returned _ =>
                                usable_next_phases phaseManager -> terminal_workflow s' iid
                            | Threw e => store_rejects_with persistence config e
                            | OutOfFuel => True
                            end) s1).
  { intros s1 Hp. eapply wp_consequence; [apply IH|].
    intros r s' Hend. destruct r as [[]|e|]; [exact Hend| |done].
    destruct Hend as [(Hguard & _)|[_ Hrej]]; [|exact Hrej].
    apply guard_error_None in Hp. congruence. }
  unfold StateMachine.on_phase_failure. wp_steps.
  match goal with |- context [if ?c then _ else _] => destruct c end.
  - wp_steps. apply Hexec.
    apply (guards_pass_kept phaseManager s); [kept_updates|exact Hpass].
  - wp_steps; [|done]. eapply wp_consequence; [apply failWorkflow_returns|].
    simpl. intros r s' Hend. destruct r as [[]|e|]; [|done|done].
    intros _. apply Hend.
    destruct Hpass as (i & _ & _ & Hi & _). rewrite lookup_alter_eq, Hi. simpl. eauto.
Qed.

(** A normal return of [transitionToPhase] is a normal return of the
    execution of the target phase. *)
Lemma transition_returns exec iid target context (Q : SM X -> Prop) (s : SM X) :
  (forall s1, wp (exec iid target)
                 (fun r s' => match r with Returned _ => Q s' | _ => True end) s1) ->
  wp (StateMachine.transitionToPhase_with phaseManager transitionValidator persistence
        config exec iid target context)
     (fun r s' => match r with Returned _ => Q s' | _ => True end) s.
Proof.
  intros Hexec. unfold StateMachine.transitionToPhase_with, StateMachine.transition_steps.
  wp_steps. unfold StateMachine.getWorkflowInstance. wp_simpl.
  destruct (instances s !! iid) as [inst|]; wp_steps; [|done].
  destruct (wi_currentPhaseId inst) as [cur|]; wp_steps; [|done].
  destruct (negb (StateMachine.nonempty cur)); wp_steps; [done|].
  destruct (getWorkflow phaseManager (wi_workflowId inst)); wp_steps; [|done].
  destruct (getPhase phaseManager (wi_workflowId inst) cur); wp_steps; [|done].
  destruct (getPhase phaseManager (wi_workflowId inst) target); wp_steps; [|done].
  destruct (List.find _ _); wp_steps; [|done].
  apply wp_call_canTransition. intros ok env1. wp_simpl.
  destruct (negb ok); wp_steps; [done|].
  destruct (wi_phaseStates inst !! cur); wp_steps; first [apply Hexec|done].
Qed.

(** How a run of [executePhase] ends, by induction on the recursion budget. *)
Lemma executePhase_ends_well (fuel : nat) :
  forall iid pid (s : SM X),
    wp (executePhase fuel iid pid) (ends_well phaseManager persistence config iid pid s) s.
Proof.
  induction fuel as [|fuel IH]; intros iid pid s; [done|].
  cbn [StateMachine.executePhase].
  wp_steps. unfold StateMachine.getWorkflowInstance. wp_simpl.
  destruct (instances s !! iid) as [inst|] eqn:Hinst; wp_steps;
    [|unfold ends_well, guard_error; left; by rewrite Hinst].
  destruct (getPhase phaseManager (wi_workflowId inst) pid) as [phase|] eqn:Hphase;
    wp_steps; [|unfold ends_well, guard_error; left; by rewrite Hinst, Hphase].
  destruct (wi_phaseStates inst !! pid) as [pinst|] eqn:Hpinst;
    [|wp_steps; unfold ends_well, guard_error; left; by rewrite Hinst, Hphase, Hpinst].
  assert (Hpass : guards_pass phaseManager s iid pid) by (exists inst, phase, pinst; done).
  do 7 wp_step; [|by right].
  apply wp_try_catch.
  eapply wp_consequence.
  { apply wp_conj.
    - (* what a normal return of the [try] block means *)
      apply (wp_bind _ _ (fun r s' => match r with
                                      | Returned _ =>
                                          usable_next_phases phaseManager ->
                                          terminal_workflow s' iid
                                      | _ => True
                                      end)).
      apply wp_run_phaseExecutor. intros ts env2 [e|] _; wp_simpl; [done|].
      unfold StateMachine.on_phase_success. wp_steps; [|done].
      destruct (p_nextPhases phase) as [|next rest] eqn:Hnext.
      + eapply wp_consequence; [apply completeWorkflow_returns|].
        simpl. intros r s' Hend. destruct r as [[]|e|]; [|done|done].
        intros _. apply Hend. rewrite !lookup_alter_eq, Hinst. simpl. eauto.
      + destruct (StateMachine.nonempty next) eqn:Hne.
        * wp_steps. apply transition_returns. intros s1.
          eapply wp_consequence; [apply IH|]. intros r s' Hend. by destruct r.
        * wp_steps. intros Husable.
          rewrite (Husable _ _ _ _ _ Hphase Hnext) in Hne. done.
    - (* the instance is still there when the [catch] block starts *)
      apply (wp_of_preserves instances_kept); [apply try_body_instances_kept|].
      intros r s' Hkept. exact Hkept. }
  simpl. intros r s1 [Hbody Hkept]. destruct r as [[]|e|]; [exact Hbody| |done].
  eapply wp_consequence.
  { apply on_phase_failure_ends_well; [exact (IH iid pid)|].
    apply (guards_pass_kept phaseManager s); [|exact Hpass].
    eapply instances_kept_trans; [|exact Hkept]. kept_updates. }
  intros r s' Hend. destruct r as [[]|e'|]; [done| |done].
  by right.
Qed.

(** X9.  When the private [executePhase] returns, the workflow has
    ended: its instance is completed or failed.  Whatever goes wrong
    while the phase runs (a rejected phase execution, a refused or
    impossible automatic transition) ends in the state of the workflow,
    not in an exception.  (Provided no phase lists the empty string as
    its first next phase.) *)
Theorem executePhase_returns_when_workflow_ended
        (fuel : nat) (iid pid : string) (s : SM X) :
  usable_next_phases phaseManager ->
  (executePhase fuel iid pid s).1 = Returned tt ->
  terminal_workflow (executePhase fuel iid pid s).2 iid.
Proof.
  intros Husable Hret. pose proof (executePhase_ends_well fuel iid pid s) as H.
  unfold wp in H. rewrite Hret in H. by apply H.
Qed.

(** X10.  The private [executePhase] throws only in two ways.  It
    throws from its opening checks (unknown instance, unknown phase, no
    phase instance), and then it has changed nothing but the log.  Or,
    the checks having passed, it throws an error with which the store
    rejected a write.  So with a store that accepts every write, or
    with persistence off, it never throws once the three checks
    pass. *)
Theorem executePhase_throws_only_at_its_checks
        (fuel : nat) (iid pid : string) (s : SM X) (e : Err) :
  (executePhase fuel iid pid s).1 = Threw e ->
  (guard_error phaseManager s iid pid = Some e /\
   ~ guards_pass phaseManager s iid pid /\
   instances (executePhase fuel iid pid s).2 = instances s /\
   env (executePhase fuel iid pid s).2 = env s /\
   log (executePhase fuel iid pid s).2 = executing_entry iid pid :: log s) \/
  (guards_pass phaseManager s iid pid /\
   store_rejects_with persistence config e /\
   ~ store_resolves persistence config).
Proof.
  intros Hthrow. pose proof (executePhase_ends_well fuel iid pid s) as H.
  unfold wp in H. rewrite Hthrow in H.
  destruct H as [(Hguard & Hinst & Henv & _)|[Hpass Hrej]].
  - left. split; [done|]. split.
    { intros Hpass. apply guard_error_None in Hpass. congruence. }
    split; [done|]. split; [done|].
    destruct fuel as [|fuel]; [done|]. revert Hthrow Hguard.
    cbn [StateMachine.executePhase].
    unfold StateMachine.bind, StateMachine.log_info, StateMachine.modify,
      StateMachine.gets, StateMachine.getWorkflowInstance, guard_error. simpl.
    destruct (instances s !! iid) as [inst|]; simpl; [|done].
    destruct (getPhase phaseManager (wi_workflowId inst) pid); simpl; [|done].
    destruct (wi_phaseStates inst !! pid); simpl; [|done]. done.
  - right. split; [done|]. split; [done|].
    by apply (store_rejects_not_resolves persistence config e).
Qed.

End PhaseEnds.

(** ** StateMachine: the public operations *)

Lemma usable_next_phases_mock :
  usable_next_phases (SMFixtures.provider SMFixtures.mockWorkflow).
Proof.
  intros wid pid phase next rest Hget Hnext. cbn -[String.eqb] in Hget.
  destruct (String.eqb "phase1" pid); [by simplify_eq/=|].
  destruct (String.eqb "phase2" pid); by simplify_eq/=.
Qed.

Lemma executePhase_returns_when_workflow_ended_witness :
  terminal_workflow
    (StateMachine.executePhase (SMFixtures.provider SMFixtures.mockWorkflow)
       (SMFixtures.validator true) SMFixtures.succeeding
       (Some SMFixtures.mockPersistence)
       (SMFixtures.persisting true (Some 3)) 10 "instance-0" "phase1" SMFixtures.started).2
    "instance-0".
Proof.
  apply executePhase_returns_when_workflow_ended;
    [apply usable_next_phases_mock|vm_compute; reflexivity].
Defined.

Lemma executePhase_throws_only_at_its_checks_witness :
  let store := Some (SMFixtures.rejectingPersistence (Error "store down")) in
  let config := SMFixtures.persisting true (Some 3) in
  let provider := SMFixtures.provider SMFixtures.mockWorkflow in
  let run :=
    StateMachine.executePhase provider (SMFixtures.validator true) SMFixtures.succeeding
      store config 10 "instance-0" "phase1" SMFixtures.started in
  (guard_error provider SMFixtures.started "instance-0" "phase1"
   = Some (Error "store down") /\
   ~ guards_pass provider SMFixtures.started "instance-0" "phase1" /\
   instances run.2 = instances SMFixtures.started /\
   env run.2 = env SMFixtures.started /\
   log run.2 = executing_entry "instance-0" "phase1" :: log SMFixtures.started) \/
  (guards_pass provider SMFixtures.started "instance-0" "phase1" /\
   store_rejects_with store config (Error "store down") /\
   ~ store_resolves store config).
Proof.
  apply (executePhase_throws_only_at_its_checks
           (SMFixtures.provider SMFixtures.mockWorkflow)
           (SMFixtures.validator true) SMFixtures.succeeding
           (Some (SMFixtures.rejectingPersistence (Error "store down")))
           (SMFixtures.persisting true (Some 3)) 10 "instance-0" "phase1"
           SMFixtures.started (Error "store down")).
  vm_compute. reflexivity.
Defined.

Section PublicCalls.
Context {X : Type}.
Variable randomUUID : nat -> string.
Variable phaseManager : IPhaseManager.
Variable transitionValidator : ITransitionValidator X.
Variable phaseExecutor : IPhaseExecutor X.
Variable persistence : option (IWorkflowPersistence X).
Variable config : IStateMachineConfig.

Local Abbreviation executePhase :=
  (StateMachine.executePhase phaseManager transitionValidator phaseExecutor
                             persistence config).
Local Abbreviation transitionToPhase :=
  (StateMachine.transitionToPhase phaseManager transitionValidator phaseExecutor
                                  persistence config).
Local Abbreviation startWorkflow :=
  (StateMachine.startWorkflow randomUUID phaseManager transitionValidator phaseExecutor
                              persistence config).
Local Abbreviation pauseWorkflow := (StateMachine.pauseWorkflow persistence config).
Local Abbreviation resumeWorkflow :=
  (StateMachine.resumeWorkflow phaseManager transitionValidator phaseExecutor
                               persistence config).
Local Abbreviation cancelWorkflow := (StateMachine.cancelWorkflow persistence config).

Lemma executePhase_terminal fuel iid pid (s : SM X) :
  usable_next_phases phaseManager ->
  wp (executePhase fuel iid pid)
     (fun r s' => match r with Returned _ => terminal_workflow s' iid | _ => True end) s.
Proof.
  intros Husable. eapply wp_consequence; [apply executePhase_ends_well|].
  intros r s' Hend. destruct r as [[]|e|]; [by apply Hend|done|done].
Qed.

Lemma startWorkflow_terminal fuel wid data (s : SM X) :
  usable_next_phases phaseManager ->
  wp (startWorkflow fuel wid data)
     (fun r s' => match r with Returned id => terminal_workflow s' id | _ => True end) s.
Proof.
  intros Husable. unfold StateMachine.startWorkflow. wp_steps.
  destruct (getWorkflow phaseManager wid) as [workflow|]; wp_steps; [|done|done].
  eapply wp_consequence; [by apply executePhase_terminal|].
  intros r s' Hend. by destruct r.
Qed.

Lemma transitionToPhase_terminal fuel iid target context (s : SM X) :
  usable_next_phases phaseManager ->
  wp (transitionToPhase fuel iid target context)
     (fun r s' => match r with Returned _ => terminal_workflow s' iid | _ => True end) s.
Proof.
  intros Husable. unfold StateMachine.transitionToPhase.
  apply (transition_returns _ _ _ _ _ _ _ _ (fun s' => terminal_workflow s' iid)).
  intros s1. by apply executePhase_terminal.
Qed.

(** X11.  A call of [startWorkflow] or of [transitionToPhase] that
    returns, and a call of [resumeWorkflow] that returns for an instance
    with a current phase, returns only when the workflow has ended
    (instance completed or failed): the phases are executed, one after
    the other, inside the call.  (Provided no phase lists the empty
    string as its first next phase.) *)
Theorem awaited_calls_return_when_workflow_ended :
  usable_next_phases phaseManager ->
  (forall fuel wid data (s : SM X) id,
      (startWorkflow fuel wid data s).1 = Returned id ->
      terminal_workflow (startWorkflow fuel wid data s).2 id) /\
  (forall fuel iid target context (s : SM X),
      (transitionToPhase fuel iid target context s).1 = Returned tt ->
      terminal_workflow (transitionToPhase fuel iid target context s).2 iid) /\
  (forall fuel iid (s : SM X) inst cur,
      instances s !! iid = Some inst ->
      wi_currentPhaseId inst = Some cur -> StateMachine.nonempty cur = true ->
      (resumeWorkflow fuel iid s).1 = Returned tt ->
      terminal_workflow (resumeWorkflow fuel iid s).2 iid).
Proof.
  intros Husable. split; [|split].
  - intros fuel wid data s id Hret.
    pose proof (startWorkflow_terminal fuel wid data s Husable) as H.
    unfold wp in H. by rewrite Hret in H.
  - intros fuel iid target context s Hret.
    pose proof (transitionToPhase_terminal fuel iid target context s Husable) as H.
    unfold wp in H. by rewrite Hret in H.
  - intros fuel iid s inst cur Hinst Hcur Hne Hret.
    assert (H : wp (resumeWorkflow fuel iid)
                   (fun r s' => match r with
                                | Returned _ => terminal_workflow s' iid
                                | _ => True
                                end) s).
    { unfold StateMachine.resumeWorkflow. wp_steps.
      unfold StateMachine.getWorkflowInstance. wp_simpl. rewrite Hinst. wp_steps.
      destruct (decide (wi_state inst = paused)); wp_steps; [|done|done].
      rewrite Hcur, Hne. by apply executePhase_terminal. }
    unfold wp in H. by rewrite Hret in H.
Qed.

(** X12.  Once [startWorkflow] has returned an instance, that instance
    can be neither paused nor resumed: it has already ended, and both
    calls fail with INVALID_STATE and change no instance.  (Provided no
    phase lists the empty string as its first next phase.) *)
Theorem started_workflow_is_past_pausing fuel fuel' wid data (s : SM X) id :
  usable_next_phases phaseManager ->
  (startWorkflow fuel wid data s).1 = Returned id ->
  let s' := (startWorkflow fuel wid data s).2 in
  (pauseWorkflow id s').1 = Threw (invalid_state "Cannot pause workflow in current state") /\
  instances (pauseWorkflow id s').2 = instances s' /\
  (resumeWorkflow fuel' id s').1
  = Threw (invalid_state "Cannot resume workflow in current state") /\
  instances (resumeWorkflow fuel' id s').2 = instances s'.
Proof.
  intros Husable Hret s'.
  pose proof (startWorkflow_terminal fuel wid data s Husable) as H.
  unfold wp in H. rewrite Hret in H. fold s' in H.
  destruct H as (inst & Hinst & Hstate).
  unfold StateMachine.pauseWorkflow, StateMachine.resumeWorkflow, StateMachine.bind,
    StateMachine.log_info, StateMachine.modify, StateMachine.gets, StateMachine.required,
    StateMachine.getWorkflowInstance, StateMachine.ret, StateMachine.throw. simpl.
  rewrite Hinst. simpl.
  destruct (decide (wi_state inst = running)) as [Hr|_];
    [destruct Hstate; congruence|].
  destruct (decide (wi_state inst = paused)) as [Hp|_];
    [destruct Hstate; congruence|]. done.
Qed.

End PublicCalls.

Lemma awaited_calls_return_when_workflow_ended_witness :
  terminal_workflow
    (StateMachine.startWorkflow SMFixtures.uuid (SMFixtures.provider SMFixtures.mockWorkflow)
       (SMFixtures.validator true) SMFixtures.succeeding
       (Some SMFixtures.mockPersistence)
       (SMFixtures.persisting true (Some 3)) 10 "test-workflow" JUndefined SMFixtures.fresh).2
    "instance-0".
Proof.
  apply (proj1 (awaited_calls_return_when_workflow_ended SMFixtures.uuid
                  (SMFixtures.provider SMFixtures.mockWorkflow)
                  (SMFixtures.validator true) SMFixtures.succeeding
                  (Some SMFixtures.mockPersistence)
                  (SMFixtures.persisting true (Some 3)) usable_next_phases_mock)).
  vm_compute. reflexivity.
Defined.

Lemma started_workflow_is_past_pausing_witness :
  (StateMachine.pauseWorkflow (Some SMFixtures.mockPersistence)
     (SMFixtures.persisting true (Some 3)) "instance-0"
     (StateMachine.startWorkflow SMFixtures.uuid
        (SMFixtures.provider SMFixtures.mockWorkflow)
        (SMFixtures.validator true) SMFixtures.succeeding
        (Some SMFixtures.mockPersistence)
        (SMFixtures.persisting true (Some 3)) 10 "test-workflow" JUndefined SMFixtures.fresh).2).1
  = Threw (invalid_state "Cannot pause workflow in current state").
Proof.
  refine (proj1 (started_workflow_is_past_pausing SMFixtures.uuid
                   (SMFixtures.provider SMFixtures.mockWorkflow)
                   (SMFixtures.validator true) SMFixtures.succeeding
                   (Some SMFixtures.mockPersistence)
                   (SMFixtures.persisting true (Some 3)) 10 10 "test-workflow" JUndefined
                   SMFixtures.fresh "instance-0" usable_next_phases_mock _)).
  vm_compute. reflexivity.
Defined.

(** ** StateMachine: pause, resume, cancel *)

Ltac sm_run :=
  repeat progress
    (unfold StateMachine.bind, StateMachine.log_info, StateMachine.log_error,
       StateMachine.update_instance, StateMachine.set_instances,
       StateMachine.modify, StateMachine.gets, StateMachine.required,
       StateMachine.getWorkflowInstance, StateMachine.ret, StateMachine.throw,
       StateMachine.now, new_Date;
     cbn [fst snd instances log uuids env clock ext]).

Section PauseResumeCancel.
Context {X : Type}.
Variable phaseManager : IPhaseManager.
Variable transitionValidator : ITransitionValidator X.
Variable phaseExecutor : IPhaseExecutor X.
Variable persistence : option (IWorkflowPersistence X).
Variable config : IStateMachineConfig.

Lemma updateInstance_run iid inst (s : SM X) :
  instances s !! iid = Some inst ->
  StateMachine.updateInstance persistence config iid s
  = (settled (store_update persistence config inst (env s)).2,
     mkSM (instances s) (log s) (uuids s) (store_update persistence config inst (env s)).1).
Proof.
  intros Hinst. unfold StateMachine.updateInstance, StateMachine.await_store, store_update.
  rewrite Hinst.
  destruct (enablePersistence config); [|by destruct s].
  destruct persistence as [p|]; [|by destruct s].
  by destruct (updateWorkflowInstance p _ inst (env s)) as [env' [e|]].
Qed.

(** X13.  [pauseWorkflow] fails with INSTANCE_NOT_FOUND for an unknown
    instance and with INVALID_STATE for an instance that is not running,
    and then only the log has changed.  For a running instance it sets
    the state to [paused], touching no phase instance and no other
    workflow instance, and then asks the store to update the paused
    instance: the call returns when the store accepts (or persistence is
    off) and throws the error of the store when it rejects, the
    instance being paused in both cases. *)
Theorem pauseWorkflow_only_flips_the_state (iid : string) (s : SM X) :
  pause_behaviour persistence config iid s.
Proof.
  unfold pause_behaviour, StateMachine.pauseWorkflow. sm_run.
  destruct (instances s !! iid) as [inst|] eqn:Hinst; cbn [fst snd instances log uuids env].
  - destruct (decide (wi_state inst = running)) as [Hr|Hr];
      cbn [fst snd instances log uuids env].
    + erewrite updateInstance_run
        by (cbn [instances]; rewrite lookup_alter_eq, Hinst; reflexivity).
      cbn [fst snd instances log uuids env].
      split; [done|]. split; [done|]. split.
      * intros k Hk. by rewrite lookup_alter_ne.
      * split; [done|]. split; [|done]. by rewrite lookup_alter_eq, Hinst.
    + repeat (split; [done|]). done.
  - repeat (split; [done|]). done.
Qed.

(** X14.  [resumeWorkflow] fails with INSTANCE_NOT_FOUND for an unknown
    instance and with INVALID_STATE for one that is not paused, changing
    no instance.  For a paused instance it sets the state back to
    [running] and asks the store to update the instance.  When the store
    rejects, the call throws the error of the store, the instance is
    left running and its phase is not executed.  Otherwise the current
    phase is executed again, from its start, inside the call: what the
    call returns, throws and leaves behind is what the execution of that
    phase does.  Without a current phase it returns at once. *)
Theorem resumeWorkflow_runs_the_current_phase_again (fuel : nat) (iid : string) (s : SM X) :
  resume_behaviour phaseManager transitionValidator phaseExecutor persistence config
                   fuel iid s.
Proof.
  unfold resume_behaviour, StateMachine.resumeWorkflow. sm_run.
  destruct (instances s !! iid) as [inst|] eqn:Hinst; cbn [fst snd instances log uuids env];
    [|done].
  destruct (decide (wi_state inst = paused)) as [Hp|Hp];
    cbn [fst snd instances log uuids env]; [|done].
  erewrite updateInstance_run
    by (cbn [instances]; rewrite lookup_alter_eq, Hinst; reflexivity).
  cbn [fst snd instances log uuids env].
  assert (Halter : alter (wi_set_state running) iid (instances s)
                   = <[iid := wi_set_state running inst]> (instances s)).
  { apply map_eq. intros k. destruct (decide (iid = k)) as [<-|Hne].
    - by rewrite lookup_alter_eq, lookup_insert_eq, Hinst.
    - by rewrite lookup_alter_ne, lookup_insert_ne. }
  rewrite Halter. unfold resuming_entry.
  destruct (store_update persistence config (wi_set_state running inst) (env s)).2 as [e|];
    cbn [settled]; [done|].
  destruct (wi_currentPhaseId inst) as [cur|]; [|done].
  destruct (StateMachine.nonempty cur); [|done].
  by destruct (StateMachine.executePhase _ _ _ _ _ _ _ _ _).
Qed.

(** X15.  [cancelWorkflow] fails with INSTANCE_NOT_FOUND for an unknown
    instance.  For every other instance, whatever its state (a completed
    workflow included), it sets the state to [failed], the completion
    time to now, and the error to the reason given, or to "Workflow
    cancelled" when the reason is missing or empty; the phase instances
    and the current phase stay as they are, and no other instance is
    touched.  It then asks the store to update the instance: the call
    returns when the store accepts (or persistence is off) and throws
    the error of the store when it rejects, the instance being
    cancelled in both cases.  A cancelled instance can be neither
    paused nor resumed. *)
Theorem cancelWorkflow_fails_the_workflow_in_any_state
        (fuel : nat) (iid : string) (reason : option string) (s : SM X) :
  cancel_behaviour persistence config fuel phaseManager transitionValidator phaseExecutor
                   iid reason s.
Proof.
  unfold cancel_behaviour, StateMachine.cancelWorkflow. sm_run.
  destruct (instances s !! iid) as [inst|] eqn:Hinst; cbn [fst snd instances log uuids env];
    [|done].
  erewrite updateInstance_run
    by (cbn [instances]; rewrite lookup_alter_eq, Hinst; reflexivity).
  cbn [fst snd instances log uuids env].
  split; [intros k Hk; by rewrite lookup_alter_ne|].
  split; [done|]. split; [by rewrite lookup_alter_eq, Hinst|].
  unfold StateMachine.pauseWorkflow, StateMachine.resumeWorkflow. sm_run.
  rewrite lookup_alter_eq, Hinst. simpl. done.
Qed.

End PauseResumeCancel.

(** ** StateMachine: retries *)

Section RetryBudget.
Context {X : Type}.
Variable phaseManager : IPhaseManager.
Variable transitionValidator : ITransitionValidator X.
Variable phaseExecutor : IPhaseExecutor X.
Variable persistence : option (IWorkflowPersistence X).
Variable config : IStateMachineConfig.

Local Abbreviation executePhase :=
  (StateMachine.executePhase phaseManager transitionValidator phaseExecutor
                             persistence config).

(** X16.  The retry counter belongs to the phase instance and is never
    reset.  A phase whose execution rejects on every attempt, and whose
    instance has already used some retries, is executed once and then
    once more for each retry that is left: the limit ([maxRetries], or 3
    when that is 0 or undefined) minus the retries already used (none
    when the counter has reached the limit), or none when retries are
    disabled.  Then the workflow fails with the error of the phase
    executor, and the counter has grown by the number of retries made.
    (The store accepts every write.) *)
Theorem retries_are_counted_per_phase_instance
        (error : Err) (fuel : nat) (s : SM X) (iid pid : string)
        (inst : WorkflowInstance) (phase : Phase) (pinst : PhaseInstance) :
  (forall context env, (pe_executePhase phaseExecutor context env).2 = Some error) ->
  store_resolves persistence config ->
  instances s !! iid = Some inst ->
  getPhase phaseManager (wi_workflowId inst) pid = Some phase ->
  wi_phaseStates inst !! pid = Some pinst ->
  (retries_left config pinst < fuel)%nat ->
  exhausts_retries config iid pid pinst error s (executePhase fuel iid pid s).
Proof.
  intros Hfail Hstore Hinst Hphase Hpinst Hfuel.
  pose proof (failing_phase phaseManager transitionValidator phaseExecutor persistence
                config error Hfail Hstore fuel s iid pid inst phase pinst Hinst Hphase
                Hpinst Hfuel) as Hwp.
  unfold wp in Hwp.
  destruct Hwp as (Hr & Hex & inst' & pinst' & H1 & H2 & H3 & _ & H5 & H6 & H7 & H8).
  unfold exhausts_retries. split; [done|]. split; [lia|].
  exists inst', pinst'. done.
Qed.

Lemma refused_transition (fuel : nat) :
  store_resolves persistence config ->
  forall (s : SM X) iid pid next rest inst workflow phase nphase tr pinst,
    (forall context env, (pe_executePhase phaseExecutor context env).2 = None) ->
    (forall tc env, (canTransition transitionValidator tc env).1 = false) ->
    instances s !! iid = Some inst ->
    wi_currentPhaseId inst = Some pid ->
    StateMachine.nonempty pid = true ->
    getWorkflow phaseManager (wi_workflowId inst) = Some workflow ->
    getPhase phaseManager (wi_workflowId inst) pid = Some phase ->
    p_nextPhases phase = next :: rest ->
    StateMachine.nonempty next = true ->
    getPhase phaseManager (wi_workflowId inst) next = Some nphase ->
    List.find (fun t => String.eqb (tr_to t) next)
              (getAvailableTransitions phaseManager (wi_workflowId inst) pid) = Some tr ->
    wi_phaseStates inst !! pid = Some pinst ->
    (retries_left config pinst < fuel)%nat ->
    wp (executePhase fuel iid pid)
       (fun r s' =>
          exhausts_retries config iid pid pinst (validation_failed pid next) s (r, s') /\
          exists inst', instances s' !! iid = Some inst' /\
                        wi_currentPhaseId inst' = Some pid /\
                        forall k, k <> pid ->
                                  wi_phaseStates inst' !! k = wi_phaseStates inst !! k) s.
Proof.
  intros Hstore. induction fuel as [|fuel IH];
    intros s iid pid next rest inst workflow phase nphase tr pinst
           Hok Hrefuse Hinst Hcur Hnepid Hwf Hphase Hnext Hnenext Hto Hfind Hpinst Hfuel;
    [lia|].
  cbn [StateMachine.executePhase].
  wp_steps. unfold StateMachine.getWorkflowInstance. wp_simpl. rewrite Hinst.
  wp_steps. rewrite Hphase. wp_steps. rewrite Hpinst. wp_steps.
  apply wp_run_phaseExecutor. intros ts env2 r (context & env0 & <-). wp_simpl.
  rewrite Hok. unfold StateMachine.on_phase_success. wp_steps.
  rewrite Hnext, Hnenext. wp_steps.
  unfold StateMachine.transitionToPhase_with, StateMachine.transition_steps.
  wp_steps. unfold StateMachine.getWorkflowInstance. wp_simpl.
  rewrite !lookup_alter_eq, Hinst. simpl. wp_steps.
  unfold wi_set_phaseStates at 1 2 3; cbn [wi_currentPhaseId wi_workflowId wi_phaseStates].
  rewrite Hcur, Hnepid. simpl.
  wp_steps. rewrite Hwf. wp_steps. rewrite Hphase, Hto. wp_steps. rewrite Hfind. wp_steps.
  apply wp_call_canTransition_exact. rewrite Hrefuse. cbn [negb]. wp_simpl. wp_steps.
  unfold StateMachine.on_phase_failure. wp_steps.
  rewrite !lookup_alter_eq, Hinst. simpl. rewrite !lookup_alter_eq, Hpinst. simpl.
  destruct (enableRetries config && (pi_retryCount pinst <? StateMachine.maxRetries_or_3 config))
    eqn:Hretry.
  - apply andb_true_iff in Hretry as [Hen Hlt]. apply Nat.ltb_lt in Hlt.
    wp_steps.
    eapply wp_consequence.
    + eapply (IH _ iid pid next rest _ workflow phase nphase tr).
      * exact Hok.
      * exact Hrefuse.
      * simpl. rewrite !lookup_alter_eq, Hinst. simpl. reflexivity.
      * simpl. exact Hcur.
      * exact Hnepid.
      * simpl. exact Hwf.
      * simpl. exact Hphase.
      * exact Hnext.
      * exact Hnenext.
      * simpl. exact Hto.
      * simpl. exact Hfind.
      * simpl. rewrite !lookup_alter_eq, Hpinst. simpl. reflexivity.
      * unfold retries_left in *. rewrite Hen in *. simpl. lia.
    + simpl. intros r s' [Hex (inst' & Hi' & Hc' & Hframe)].
      unfold exhausts_retries in *. simpl in *. unfold retries_left in *.
      rewrite Hen in *. simpl in *.
      destruct Hex as (Hr & Hexn & i2 & p2 & H1 & H2 & H3 & H5 & H6 & H7 & H8).
      split.
      * split; [done|]. split; [unfold executions in *; simpl in *; lia|].
        exists i2, p2. repeat (split; [done|]). lia.
      * exists inst'. split; [done|]. split; [done|].
        intros k Hk. rewrite (Hframe k Hk). by rewrite !lookup_alter_ne.
  - assert (Hleft : retries_left config pinst = 0%nat).
    { unfold retries_left. apply andb_false_iff in Hretry as [->|Hlt]; [done|].
      apply Nat.ltb_ge in Hlt. destruct (enableRetries config); lia. }
    wp_steps. unfold StateMachine.failWorkflow.
    wp_steps. unfold StateMachine.getWorkflowInstance. wp_simpl.
    rewrite !lookup_alter_eq, Hinst. simpl. wp_steps.
    unfold exhausts_retries. simpl. rewrite Hleft. split.
    + split; [done|]. split; [unfold executions; simpl; lia|].
      rewrite !lookup_alter_eq, Hinst. simpl. eexists _, _.
      split; [reflexivity|]. simpl. rewrite !lookup_alter_eq, Hpinst. simpl.
      unfold validation_failed. repeat (split; [reflexivity|]). simpl. lia.
    + rewrite !lookup_alter_eq, Hinst. simpl. eexists. split; [reflexivity|]. simpl.
      split; [done|]. intros k Hk. by rewrite !lookup_alter_ne.
Qed.

(** X17.  A refused automatic transition counts as a failure of the
    phase that has just completed.  When the phase executor succeeds
    and the transition validator refuses the transition to the first
    next phase, the completed phase is marked failed and executed again,
    all its tasks included, for every retry that is left; then the
    workflow fails with "Transition validation failed".  The workflow
    stays in that phase and no other phase instance is touched.  (The
    store accepts every write.) *)
Theorem refused_auto_transition_fails_the_workflow
        (fuel : nat) (s : SM X) (iid pid next : string) (rest : list string)
        (inst : WorkflowInstance) (workflow : Workflow) (phase nphase : Phase)
        (tr : Transition) (pinst : PhaseInstance) :
  (forall context env, (pe_executePhase phaseExecutor context env).2 = None) ->
  (forall tc env, (canTransition transitionValidator tc env).1 = false) ->
  store_resolves persistence config ->
  instances s !! iid = Some inst ->
  wi_currentPhaseId inst = Some pid ->
  StateMachine.nonempty pid = true ->
  getWorkflow phaseManager (wi_workflowId inst) = Some workflow ->
  getPhase phaseManager (wi_workflowId inst) pid = Some phase ->
  p_nextPhases phase = next :: rest ->
  StateMachine.nonempty next = true ->
  getPhase phaseManager (wi_workflowId inst) next = Some nphase ->
  List.find (fun t => String.eqb (tr_to t) next)
            (getAvailableTransitions phaseManager (wi_workflowId inst) pid) = Some tr ->
  wi_phaseStates inst !! pid = Some pinst ->
  (retries_left config pinst < fuel)%nat ->
  exhausts_retries config iid pid pinst (validation_failed pid next) s
                   (executePhase fuel iid pid s) /\
  exists inst', instances (executePhase fuel iid pid s).2 !! iid = Some inst' /\
                wi_currentPhaseId inst' = Some pid /\
                forall k, k <> pid ->
                          wi_phaseStates inst' !! k = wi_phaseStates inst !! k.
Proof.
  intros Hok Hrefuse Hstore Hinst Hcur Hnepid Hwf Hphase Hnext Hnenext Hto Hfind Hpinst
         Hfuel.
  pose proof (refused_transition fuel Hstore s iid pid next rest inst workflow phase nphase tr
                pinst Hok Hrefuse Hinst Hcur Hnepid Hwf Hphase Hnext Hnenext Hto Hfind
                Hpinst Hfuel) as H.
  unfold wp in H. by destruct (executePhase fuel iid pid s).
Qed.

End RetryBudget.

Lemma retries_are_counted_per_phase_instance_witness :
  exhausts_retries (SMFixtures.persisting true (Some 2)) "instance-0" "only"
    (mkPhaseInstance "only" phase_pending ∅ None None None 1) (Error "Persistent failure")
    (mkSM {[ "instance-0"%string :=
               mkWorkflowInstance "instance-0" "single" "Single" running (Some "only"%string)
                 {[ "only"%string := mkPhaseInstance "only" phase_pending ∅ None None None 1 ]}
                 0 None None JUndefined ]} [] 1 (mkEnv 1 0))
    (StateMachine.executePhase (SMFixtures.provider SMFixtures.singleWorkflow)
       (SMFixtures.validator true) (SMFixtures.rejecting (Error "Persistent failure"))
       (Some SMFixtures.mockPersistence)
       (SMFixtures.persisting true (Some 2)) 10 "instance-0" "only"
       (mkSM {[ "instance-0"%string :=
                  mkWorkflowInstance "instance-0" "single" "Single" running
                    (Some "only"%string)
                    {[ "only"%string :=
                         mkPhaseInstance "only" phase_pending ∅ None None None 1 ]}
                    0 None None JUndefined ]} [] 1 (mkEnv 1 0))).
Proof.
  apply (retries_are_counted_per_phase_instance
           (SMFixtures.provider SMFixtures.singleWorkflow) (SMFixtures.validator true)
           (SMFixtures.rejecting (Error "Persistent failure"))
           (Some SMFixtures.mockPersistence)
           (SMFixtures.persisting true (Some 2)) (Error "Persistent failure") 10
           _ "instance-0" "only"
           (mkWorkflowInstance "instance-0" "single" "Single" running (Some "only"%string)
              {[ "only"%string := mkPhaseInstance "only" phase_pending ∅ None None None 1 ]}
              0 None None JUndefined)
           (SMFixtures.phase "only" []) (mkPhaseInstance "only" phase_pending ∅ None None None 1));
    [done|apply mockPersistence_resolves|done|done|done|vm_compute; lia].
Defined.

Lemma refused_auto_transition_fails_the_workflow_witness :
  exhausts_retries (SMFixtures.persisting true (Some 3)) "instance-0" "phase1"
    (mkPhaseInstance "phase1" phase_active ∅ (Some 1) None None 0)
    (validation_failed "phase1" "phase2") SMFixtures.started
    (StateMachine.executePhase (SMFixtures.provider SMFixtures.mockWorkflow)
       (SMFixtures.validator false) SMFixtures.succeeding (Some SMFixtures.mockPersistence)
       (SMFixtures.persisting true (Some 3)) 10 "instance-0" "phase1" SMFixtures.started).
Proof.
  refine (proj1 (refused_auto_transition_fails_the_workflow
                   (SMFixtures.provider SMFixtures.mockWorkflow) (SMFixtures.validator false)
                   SMFixtures.succeeding (Some SMFixtures.mockPersistence)
                   (SMFixtures.persisting true (Some 3)) 10
                   SMFixtures.started "instance-0" "phase1" "phase2" []
                   SMFixtures.at_phase1 SMFixtures.mockWorkflow
                   (SMFixtures.phase "phase1" ["phase2"%string]) (SMFixtures.phase "phase2" [])
                   (mkTransition "phase1" "phase2" [] false)
                   (mkPhaseInstance "phase1" phase_active ∅ (Some 1) None None 0)
                   _ _ (mockPersistence_resolves _) _ _ _ _ _ _ _ _ _ _ _));
    try done.
  vm_compute. lia.
Defined.

(** ** StateMachine: what every sequence of calls preserves *)

Lemma preserves_run {X A} (R : SM X -> SM X -> Prop) (m : SM X -> Outcome A * SM X) :
  preserves R m -> forall s, R s (m s).2.
Proof. intros Hm s. apply (Hm s (m s).1). by destruct (m s). Qed.

Lemma same_shape_refl {X} (s : SM X) : same_shape s s.
Proof.
  split; [done|]. split; [done|]. intros k i i' H1 H2. by simplify_eq.
Qed.

Lemma same_shape_trans {X} (a b c : SM X) :
  same_shape a b -> same_shape b c -> same_shape a c.
Proof.
  intros (Hu1 & Hd1 & Hf1) (Hu2 & Hd2 & Hf2). split; [congruence|]. split.
  - intros k. by rewrite Hd2, Hd1.
  - intros k i i'' Hi Hi''.
    assert (Hmid : is_Some (instances b !! k)) by (apply Hd1; eauto).
    destruct Hmid as [i' Hi'].
    destruct (Hf1 _ _ _ Hi Hi') as (? & ? & ?).
    destruct (Hf2 _ _ _ Hi' Hi'') as (? & ? & ?).
    split; [congruence|]. split; congruence.
Qed.

Lemma same_shape_alter {X} (s : SM X) iid f :
  frame_safe f ->
  same_shape s (mkSM (alter f iid (instances s)) (log s) (uuids s) (env s)).
Proof.
  intros Hf. split; [done|]. split.
  - intros k. simpl. destruct (decide (iid = k)) as [<-|Hne].
    + rewrite lookup_alter_eq. destruct (instances s !! iid); simpl; split; intros [? ?];
        simplify_eq; eauto.
    + by rewrite lookup_alter_ne.
  - intros k i i' Hi Hi'. simpl in Hi'. destruct (decide (iid = k)) as [<-|Hne].
    + rewrite lookup_alter_eq, Hi in Hi'. simpl in Hi'. simplify_eq. apply Hf.
    + rewrite lookup_alter_ne in Hi' by done. by simplify_eq.
Qed.

Section Shape.
Context {X : Type}.
Variable randomUUID : nat -> string.
Variable phaseManager : IPhaseManager.
Variable transitionValidator : ITransitionValidator X.
Variable phaseExecutor : IPhaseExecutor X.
Variable persistence : option (IWorkflowPersistence X).
Variable config : IStateMachineConfig.

Lemma same_shape_log (s : SM X) e :
  same_shape s (mkSM (instances s) (e :: log s) (uuids s) (env s)).
Proof. split; [done|]. split; [done|]. intros k i i' H1 H2. simpl in H2. by simplify_eq. Qed.

Lemma same_shape_env (s : SM X) env' :
  same_shape s (mkSM (instances s) (log s) (uuids s) env').
Proof. split; [done|]. split; [done|]. intros k i i' H1 H2. simpl in H2. by simplify_eq. Qed.

Lemma executePhase_same_shape fuel iid pid :
  preserves same_shape
    (StateMachine.executePhase phaseManager transitionValidator phaseExecutor
       persistence config fuel iid pid).
Proof.
  apply preserves_executePhase.
  - apply same_shape_refl.
  - apply same_shape_trans.
  - apply same_shape_log.
  - apply same_shape_env.
  - intros s k f Hf. by apply same_shape_alter.
Qed.

Ltac shape_side :=
  first
    [ apply same_shape_refl
    | apply same_shape_trans
    | apply same_shape_log
    | apply same_shape_env
    | (intros ? ? ? ?; by apply same_shape_alter)
    | by intros ? ].

Ltac shape_step :=
  lazymatch goal with
  | |- preserves _ (StateMachine.bind _ _) => apply preserves_bind
  | |- preserves _ (StateMachine.log_info _ _) => apply preserves_log_info
  | |- preserves _ (StateMachine.gets _) => apply preserves_gets
  | |- preserves _ (StateMachine.required _ _) => apply preserves_required
  | |- preserves _ (StateMachine.throw _) => apply preserves_throw
  | |- preserves _ (StateMachine.ret _) => apply preserves_ret
  | |- preserves _ StateMachine.now => apply preserves_now
  | |- preserves _ (StateMachine.updateInstance _ _ _) => apply preserves_updateInstance
  | |- preserves _ (StateMachine.update_instance _ _) => apply preserves_update_instance
  | |- preserves _ (StateMachine.executePhase _ _ _ _ _ _ _ _) =>
      apply executePhase_same_shape
  | |- preserves _ (if decide ?P then _ else _) => destruct (decide P)
  | |- preserves _ (if ?b then _ else _) => destruct b
  | |- preserves _ (match ?o with Some _ => _ | None => _ end) => destruct o
  | |- forall _, preserves _ _ => intros ?
  | |- _ => shape_side
  end.

Lemma pauseWorkflow_same_shape iid :
  preserves same_shape (StateMachine.pauseWorkflow persistence config iid).
Proof.
  unfold StateMachine.pauseWorkflow. repeat shape_step.
Qed.

Lemma cancelWorkflow_same_shape iid reason :
  preserves same_shape (StateMachine.cancelWorkflow persistence config iid reason).
Proof. unfold StateMachine.cancelWorkflow. repeat shape_step. Qed.

Lemma resumeWorkflow_same_shape fuel iid :
  preserves same_shape
    (StateMachine.resumeWorkflow phaseManager transitionValidator phaseExecutor
       persistence config fuel iid).
Proof.
  unfold StateMachine.resumeWorkflow. repeat shape_step.
Qed.

Lemma transitionToPhase_same_shape fuel iid target context :
  preserves same_shape
    (StateMachine.transitionToPhase phaseManager transitionValidator phaseExecutor
       persistence config fuel iid target context).
Proof.
  unfold StateMachine.transitionToPhase.
  apply preserves_transitionToPhase_with.
  - apply same_shape_refl.
  - apply same_shape_trans.
  - apply same_shape_log.
  - apply same_shape_env.
  - intros s k f Hf. by apply same_shape_alter.
  - intros a b. apply executePhase_same_shape.
Qed.

Lemma well_kept_same_shape (s s' : SM X) :
  same_shape s s' -> well_kept randomUUID phaseManager s ->
  well_kept randomUUID phaseManager s'.
Proof.
  intros (Hu & Hd & Hf) Hwk iid inst' Hinst'.
  assert (Hold : is_Some (instances s !! iid)) by (apply Hd; eauto).
  destruct Hold as [inst Hinst].
  destruct (Hf _ _ _ Hinst Hinst') as (Hid & Hwid & Hdom).
  destruct (Hwk _ _ Hinst) as (Hid0 & Hn & w & Hw & Hphases).
  split; [congruence|]. split; [by rewrite Hu|].
  exists w. split; [by rewrite Hwid|].
  intros pid. rewrite <- Hphases. rewrite <- !elem_of_dom. by rewrite Hdom.
Qed.

Lemma startWorkflow_well_kept fuel wid data (s : SM X) :
  well_kept randomUUID phaseManager s ->
  well_kept randomUUID phaseManager
    (StateMachine.startWorkflow randomUUID phaseManager transitionValidator
       phaseExecutor persistence config fuel wid data s).2.
Proof.
  intros Hwk.
  assert (Hlog : forall l, well_kept randomUUID phaseManager
                             (mkSM (instances s) l (uuids s) (env s))).
  { intros l iid inst Hinst. apply (Hwk iid inst Hinst). }
  destruct (getWorkflow phaseManager wid) as [workflow|] eqn:Hwf.
  - rewrite (startWorkflow_run randomUUID phaseManager transitionValidator phaseExecutor
               persistence config fuel wid data s workflow Hwf).
    match goal with
    | |- context [StateMachine.executePhase _ _ _ _ _ _ _ _ ?st] => set (s0 := st)
    end.
    assert (Hs0 : well_kept randomUUID phaseManager s0).
    { intros iid inst Hinst. subst s0. cbn [instances uuids] in *.
      destruct (decide (randomUUID (uuids s) = iid)) as [<-|Hne].
      + rewrite lookup_insert_eq in Hinst. simplify_eq. simpl.
        split; [done|]. split; [exists (uuids s); split; [lia|done]|].
        exists workflow. split; [done|]. intros pid.
        rewrite initial_phaseStates_lookup.
        destruct (bool_decide (pid ∈ p_id <$> w_phases workflow)) eqn:Hb.
        * apply bool_decide_eq_true in Hb. split; eauto.
        * apply bool_decide_eq_false in Hb. split; [by intros [? ?]|done].
      + rewrite lookup_insert_ne in Hinst by done.
        destruct (Hwk _ _ Hinst) as (Hid & (n & Hn & Heq) & Hrest).
        split; [done|]. split; [|done]. exists n. split; [lia|done]. }
    destruct (store_save _ _ _ _).2 as [e|]; [exact Hs0|]. cbn [snd].
    apply (well_kept_same_shape s0); [|exact Hs0].
    apply preserves_run, executePhase_same_shape.
  - unfold StateMachine.startWorkflow, StateMachine.bind, StateMachine.log_info,
      StateMachine.modify, StateMachine.required, StateMachine.throw. simpl.
    rewrite Hwf. simpl. apply Hlog.
Qed.

Lemma perform_well_kept fuel call (s : SM X) :
  well_kept randomUUID phaseManager s ->
  well_kept randomUUID phaseManager
    (perform randomUUID phaseManager transitionValidator phaseExecutor persistence
             config fuel call s).
Proof.
  intros Hwk. destruct call as [wid data|iid|iid|iid reason|iid target context];
    unfold perform.
  - by apply startWorkflow_well_kept.
  - apply (well_kept_same_shape s); [|done].
    apply preserves_run, pauseWorkflow_same_shape.
  - apply (well_kept_same_shape s); [|done].
    apply preserves_run, resumeWorkflow_same_shape.
  - apply (well_kept_same_shape s); [|done].
    apply preserves_run, cancelWorkflow_same_shape.
  - apply (well_kept_same_shape s); [|done].
    apply preserves_run, transitionToPhase_same_shape.
Qed.

(** X18.  Whatever calls of the public operations a fresh machine has
    served, each awaited before the next, every workflow instance it
    stores is stored under its own id, which [randomUUID] generated for
    it; its definition is known to the provider, and its phase instances
    are exactly the phases of that definition.  Only [startWorkflow]
    adds an instance; no other operation adds or removes one, or changes
    the id, the definition or the set of phase instances of one.  (The
    definitions of the provider do not change.) *)
Theorem stored_instances_are_well_kept (env0 : Env X) (calls : list (nat * Call)) :
  well_kept randomUUID phaseManager
    (drive randomUUID phaseManager transitionValidator phaseExecutor persistence config
           env0 calls) /\
  forall fuel call (s : SM X),
    match call with
    | StartWorkflow _ _ => True
    | _ => same_shape s (perform randomUUID phaseManager transitionValidator
                                 phaseExecutor persistence config fuel call s)
    end.
Proof.
  split.
  - unfold drive.
    assert (Hgen : forall s : SM X,
               well_kept randomUUID phaseManager s ->
               well_kept randomUUID phaseManager
                 (foldl (fun s fc =>
                           perform randomUUID phaseManager transitionValidator
                                   phaseExecutor persistence config fc.1 fc.2 s) s calls)).
    { induction calls as [|[fuel call] rest IH]; intros s Hwk; [done|].
      cbn [foldl]. apply IH. by apply perform_well_kept. }
    apply Hgen. intros iid inst Hinst. simpl in Hinst. by rewrite lookup_empty in Hinst.
  - intros fuel call s.
    destruct call as [wid data|iid|iid|iid reason|iid target context];
      [done| | | |]; unfold perform; apply preserves_run.
    + apply pauseWorkflow_same_shape.
    + apply resumeWorkflow_same_shape.
    + apply cancelWorkflow_same_shape.
    + apply transitionToPhase_same_shape.
Qed.

End Shape.

(** ** StateMachine: transitionToPhase *)

Section Transitions.
Context {X : Type}.
Variable phaseManager : IPhaseManager.
Variable transitionValidator : ITransitionValidator X.
Variable phaseExecutor : IPhaseExecutor X.
Variable persistence : option (IWorkflowPersistence X).
Variable config : IStateMachineConfig.

Local Abbreviation executePhase :=
  (StateMachine.executePhase phaseManager transitionValidator phaseExecutor
                             persistence config).
Local Abbreviation transitionToPhase :=
  (StateMachine.transitionToPhase phaseManager transitionValidator phaseExecutor
                                  persistence config).

(** X19.  [transitionToPhase] looks neither at the state of the
    workflow nor at the state of its phases.  Whenever the instance has
    a current phase, the definitions resolve, a transition to the target
    is available and the validator accepts it, the outgoing phase
    instance is marked completed (whatever state it was in, failed
    included), the target becomes the current phase, and the store is
    asked to update the instance: also for a paused, a cancelled or a
    completed workflow.  When the store rejects, the call throws the
    error of the store with the transition already made and the target
    phase not executed; otherwise the target phase is executed inside
    the call. *)
Theorem accepted_transition_is_committed_in_any_state
        (fuel : nat) (s : SM X) (iid target : string) (context : JSVal)
        (inst : WorkflowInstance) (cur : string) (workflow : Workflow)
        (fromPhase toPhase : Phase) (tr : Transition) :
  instances s !! iid = Some inst ->
  wi_currentPhaseId inst = Some cur ->
  StateMachine.nonempty cur = true ->
  getWorkflow phaseManager (wi_workflowId inst) = Some workflow ->
  getPhase phaseManager (wi_workflowId inst) cur = Some fromPhase ->
  getPhase phaseManager (wi_workflowId inst) target = Some toPhase ->
  List.find (fun t => String.eqb (tr_to t) target)
            (getAvailableTransitions phaseManager (wi_workflowId inst) cur) = Some tr ->
  (canTransition transitionValidator
     (mkTransitionContext inst fromPhase toPhase tr context) (env s)).1 = true ->
  exists d env1,
    let stored := store_update persistence config (committed inst cur target d) env1 in
    let s1 :=
      mkSM (<[iid := committed inst cur target d]> (instances s))
           (transitioning_entry iid target :: log s) (uuids s) stored.1 in
    transitionToPhase fuel iid target context s
    = match stored.2 with
      | Some e => (Threw e, s1)
      | None => executePhase fuel iid target s1
      end.
Proof.
  intros Hinst Hcur Hne Hwf Hfrom Hto Hfind Hcan.
  assert (Halter : forall f, alter f iid (instances s) = <[iid := f inst]> (instances s)).
  { intros f. apply map_eq. intros k. destruct (decide (iid = k)) as [<-|Hk].
    - by rewrite lookup_alter_eq, lookup_insert_eq, Hinst.
    - by rewrite lookup_alter_ne, lookup_insert_ne. }
  assert (Hplain : wi_phaseStates inst !! cur = None ->
                   wi_set_currentPhaseId target inst = committed inst cur target 0).
  { intros Hp. unfold committed. f_equal. destruct inst. unfold wi_set_phaseStates.
    simpl in *. f_equal. apply map_eq. intros k. destruct (decide (cur = k)) as [<-|Hk].
    - by rewrite lookup_alter_eq, Hp.
    - by rewrite lookup_alter_ne. }
  unfold StateMachine.transitionToPhase, StateMachine.transitionToPhase_with,
    StateMachine.transition_steps, StateMachine.call_canTransition,
    StateMachine.update_phase.
  sm_run. rewrite Hinst. sm_run. rewrite Hcur, Hne. cbn [negb]. sm_run.
  rewrite Hwf. sm_run. rewrite Hfrom, Hto. sm_run. rewrite Hfind. sm_run.
  destruct (canTransition transitionValidator _ (env s)) as [ok env1] eqn:Hc.
  simpl in Hcan. subst ok. cbn [negb]. sm_run.
  destruct (wi_phaseStates inst !! cur) as [p|] eqn:Hp; sm_run.
  - erewrite (updateInstance_run persistence config iid (committed inst cur target (clock env1)))
      by (cbn [instances]; rewrite !lookup_alter_eq, Hinst; reflexivity).
    cbn [fst snd instances log uuids env].
    exists (clock env1), (mkEnv (S (clock env1)) (ext env1)). cbv zeta.
    assert (Hmap : alter (wi_set_currentPhaseId target) iid
                     (alter (fun inst0 =>
                               wi_set_phaseStates
                                 (alter (fun p0 => pi_set_completedAt (clock env1)
                                                     (pi_set_state phase_completed p0))
                                        cur (wi_phaseStates inst0)) inst0)
                            iid (instances s))
                   = <[iid := committed inst cur target (clock env1)]> (instances s)).
    { apply map_eq. intros k. destruct (decide (iid = k)) as [<-|Hk].
      - by rewrite !lookup_alter_eq, Hinst, lookup_insert_eq.
      - by rewrite !lookup_alter_ne, lookup_insert_ne. }
    rewrite Hmap. unfold transitioning_entry.
    by destruct (store_update persistence config _ _).2.
  - erewrite (updateInstance_run persistence config iid (committed inst cur target 0))
      by (cbn [instances]; rewrite !lookup_alter_eq, Hinst; simpl; by rewrite Hplain).
    cbn [fst snd instances log uuids env].
    exists 0%nat, env1. cbv zeta. rewrite Halter, Hplain by done.
    unfold transitioning_entry.
    by destruct (store_update persistence config _ _).2.
Qed.

(** X20.  A call of [transitionToPhase] that throws has changed no
    workflow instance, with two exceptions.  When the instance has no
    phase instance for the target, PHASE_INSTANCE_NOT_FOUND is thrown
    after the transition has been made.  And an error with which the
    store rejected a write is thrown as it is, whatever has been
    changed by then.  Everything else that goes wrong once the
    transition is made, while the target phase runs, ends in the state
    of the workflow and not in an exception. *)
Theorem transitionToPhase_throws_before_it_changes_anything
        (fuel : nat) (iid target : string) (context : JSVal) (s : SM X) (e : Err) :
  (transitionToPhase fuel iid target context s).1 = Threw e ->
  instances (transitionToPhase fuel iid target context s).2 = instances s \/
  (e = phase_instance_not_found /\
   exists inst cur d,
     instances s !! iid = Some inst /\ wi_currentPhaseId inst = Some cur /\
     instances (transitionToPhase fuel iid target context s).2 !! iid
     = Some (committed inst cur target d)) \/
  (store_rejects_with persistence config e /\ ~ store_resolves persistence config).
Proof.
  assert (H : wp (transitionToPhase fuel iid target context)
                 (fun r s' => forall e, r = Threw e ->
                    instances s' = instances s \/
                    (e = phase_instance_not_found /\
                     exists inst cur d,
                       instances s !! iid = Some inst /\
                       wi_currentPhaseId inst = Some cur /\
                       instances s' !! iid = Some (committed inst cur target d)) \/
                    (store_rejects_with persistence config e /\
                     ~ store_resolves persistence config)) s).
  { assert (Hstore : forall e0, store_rejects_with persistence config e0 ->
              store_rejects_with persistence config e0 /\
              ~ store_resolves persistence config).
    { intros e0 Hrej. split; [done|]. by apply (store_rejects_not_resolves _ _ e0). }
    unfold StateMachine.transitionToPhase, StateMachine.transitionToPhase_with,
      StateMachine.transition_steps.
    wp_steps. unfold StateMachine.getWorkflowInstance. wp_simpl.
    destruct (instances s !! iid) as [inst|] eqn:Hinst; wp_steps;
      [|intros e' [= <-]; left; simpl; auto].
    destruct (wi_currentPhaseId inst) as [cur|] eqn:Hcur; wp_steps;
      [|intros e' [= <-]; left; simpl; auto].
    destruct (negb (StateMachine.nonempty cur)); wp_steps;
      [intros e' [= <-]; left; simpl; auto|].
    destruct (getWorkflow phaseManager (wi_workflowId inst)); wp_steps;
      [|intros e' [= <-]; left; simpl; auto].
    destruct (getPhase phaseManager (wi_workflowId inst) cur); wp_steps;
      [|intros e' [= <-]; left; simpl; auto].
    destruct (getPhase phaseManager (wi_workflowId inst) target) as [toPhase|] eqn:Hto;
      wp_steps; [|intros e' [= <-]; left; simpl; auto].
    destruct (List.find _ _); wp_steps; [|intros e' [= <-]; left; simpl; auto].
    apply (wp_call_canTransition transitionValidator). intros ok env1. wp_simpl.
    destruct (negb ok); wp_steps; [intros e' [= <-]; left; simpl; auto|].
    assert (Hend : forall d (s1 : SM X),
               instances s1 !! iid = Some (committed inst cur target d) ->
               wp (executePhase fuel iid target)
                  (fun r s' => forall e, r = Threw e ->
                     instances s' = instances s \/
                     (e = phase_instance_not_found /\
                      exists inst0 cur0 d0,
                        Some inst = Some inst0 /\
                        wi_currentPhaseId inst0 = Some cur0 /\
                        instances s' !! iid = Some (committed inst0 cur0 target d0)) \/
                     (store_rejects_with persistence config e /\
                      ~ store_resolves persistence config)) s1).
    { intros d s1 Hs1. eapply wp_consequence; [apply executePhase_ends_well|].
      intros r s' Hends e' ->.
      destruct Hends as [(Hguard & Hsame & _)|[_ Hrej]]; [|right; right; by apply Hstore].
      right. left. unfold guard_error in Hguard. rewrite Hs1 in Hguard. simpl in Hguard.
      rewrite Hto in Hguard.
      destruct (alter _ cur (wi_phaseStates inst) !! target); [done|].
      injection Hguard as <-. split; [done|].
      exists inst, cur, d. split; [done|]. split; [done|]. by rewrite Hsame. }
    destruct (wi_phaseStates inst !! cur) as [pcur|] eqn:Hp; wp_steps.
    - apply (Hend (clock env1)). simpl.
      by rewrite !lookup_alter_eq, Hinst.
    - intros e' [= <-]. right. right. by apply Hstore.
    - apply (Hend 0%nat). simpl. rewrite !lookup_alter_eq, Hinst. simpl.
      f_equal. unfold committed. f_equal. destruct inst. unfold wi_set_phaseStates.
      simpl in *. f_equal. apply map_eq. intros k.
      destruct (decide (cur = k)) as [<-|Hk].
      + by rewrite lookup_alter_eq, Hp.
      + by rewrite lookup_alter_ne.
    - intros e' [= <-]. right. right. by apply Hstore. }
  intros Hthrow. unfold wp in H. by apply H.
Qed.

End Transitions.

Lemma accepted_transition_is_committed_in_any_state_witness :
  exists d env1,
    StateMachine.transitionToPhase (SMFixtures.provider SMFixtures.mockWorkflow)
      (SMFixtures.validator true) SMFixtures.succeeding
      (Some (SMFixtures.rejectingPersistence (Error "store down")))
      (SMFixtures.persisting true (Some 3)) 10 "instance-0" "phase2" JUndefined
      SMFixtures.started
    = (Threw (Error "store down"),
       mkSM (<["instance-0"%string := committed SMFixtures.at_phase1 "phase1" "phase2" d]>
               (instances SMFixtures.started))
            (transitioning_entry "instance-0" "phase2" :: log SMFixtures.started)
            (uuids SMFixtures.started) env1).
Proof.
  destruct (accepted_transition_is_committed_in_any_state
              (SMFixtures.provider SMFixtures.mockWorkflow) (SMFixtures.validator true)
              SMFixtures.succeeding
              (Some (SMFixtures.rejectingPersistence (Error "store down")))
              (SMFixtures.persisting true (Some 3)) 10
              SMFixtures.started "instance-0" "phase2" JUndefined SMFixtures.at_phase1
              "phase1" SMFixtures.mockWorkflow (SMFixtures.phase "phase1" ["phase2"%string])
              (SMFixtures.phase "phase2" []) (mkTransition "phase1" "phase2" [] false)
              eq_refl eq_refl eq_refl eq_refl eq_refl eq_refl eq_refl eq_refl)
    as (d & env1 & H).
  exists d, env1. exact H.
Defined.

Lemma transitionToPhase_throws_before_it_changes_anything_witness :
  let store := Some SMFixtures.mockPersistence in
  let config := SMFixtures.persisting true (Some 3) in
  let run :=
    StateMachine.transitionToPhase (SMFixtures.provider SMFixtures.mockWorkflow)
      (SMFixtures.validator false) SMFixtures.succeeding store config 10
      "instance-0" "phase2" JUndefined SMFixtures.started in
  instances run.2 = instances SMFixtures.started \/
  (validation_failed "phase1" "phase2" = phase_instance_not_found /\
   exists inst cur d,
     instances SMFixtures.started !! "instance-0"%string = Some inst /\
     wi_currentPhaseId inst = Some cur /\
     instances run.2 !! "instance-0"%string = Some (committed inst cur "phase2" d)) \/
  (store_rejects_with store config (validation_failed "phase1" "phase2") /\
   ~ store_resolves store config).
Proof.
  apply (transitionToPhase_throws_before_it_changes_anything
           (SMFixtures.provider SMFixtures.mockWorkflow) (SMFixtures.validator false)
           SMFixtures.succeeding (Some SMFixtures.mockPersistence)
           (SMFixtures.persisting true (Some 3)) 10
           "instance-0" "phase2" JUndefined SMFixtures.started
           (validation_failed "phase1" "phase2")).
  reflexivity.
Defined.

(** ** StateMachine: a workflow that runs to its end *)

Section HappyPath.
Context {X : Type}.
Variable phaseManager : IPhaseManager.
Variable transitionValidator : ITransitionValidator X.
Variable phaseExecutor : IPhaseExecutor X.
Variable persistence : option (IWorkflowPersistence X).
Variable config : IStateMachineConfig.

Local Abbreviation executePhase :=
  (StateMachine.executePhase phaseManager transitionValidator phaseExecutor
                             persistence config).

Variable wid : string.
Variable workflow : Workflow.
Variable rank : string -> nat.
Hypothesis executor_succeeds :
  forall context env, (pe_executePhase phaseExecutor context env).2 = None.
Hypothesis validator_accepts :
  forall tc env, (canTransition transitionValidator tc env).1 = true.
Hypothesis store_accepts : store_resolves persistence config.
Hypothesis workflow_known : getWorkflow phaseManager wid = Some workflow.
Hypothesis chains : chains_end phaseManager wid rank.

Lemma chain_runs_to_its_end (fuel : nat) :
  forall (s : SM X) iid pid inst,
    instances s !! iid = Some inst ->
    wi_workflowId inst = wid ->
    wi_currentPhaseId inst = Some pid ->
    StateMachine.nonempty pid = true ->
    is_Some (getPhase phaseManager wid pid) ->
    (forall q, is_Some (getPhase phaseManager wid q) ->
               is_Some (wi_phaseStates inst !! q)) ->
    (rank pid < fuel)%nat ->
    wp (executePhase fuel iid pid)
       (fun r s' => completed_at_last_phase phaseManager iid (r, s')) s.
Proof.
  induction fuel as [|fuel IH];
    intros s iid pid inst Hinst Hwid Hcur Hne [phase Hphase] Hall Hfuel; [lia|].
  destruct (Hall pid) as [pinst Hpinst]; [eauto|].
  pose proof (chains pid phase Hphase) as Hchain.
  cbn [StateMachine.executePhase].
  wp_steps. unfold StateMachine.getWorkflowInstance. wp_simpl. rewrite Hinst.
  wp_steps. rewrite Hwid, Hphase. wp_steps. rewrite Hpinst. wp_steps.
  apply wp_run_phaseExecutor. intros ts env2 r (context & env0 & <-). wp_simpl.
  rewrite executor_succeeds. unfold StateMachine.on_phase_success. wp_steps.
  destruct (p_nextPhases phase) as [|next rest] eqn:Hnext.
  - unfold StateMachine.completeWorkflow. wp_steps.
    unfold StateMachine.getWorkflowInstance. wp_simpl.
    rewrite !lookup_alter_eq, Hinst. simpl. wp_steps.
    unfold completed_at_last_phase. simpl. split; [done|].
    rewrite !lookup_alter_eq, Hinst. simpl. eexists _, pid, phase, _.
    split; [reflexivity|]. simpl. rewrite Hwid.
    split; [done|]. split; [done|]. split; [done|]. split; [done|].
    rewrite !lookup_alter_eq, Hpinst. simpl. split; [reflexivity|done].
  - destruct Hchain as (Hnenext & Hrank & [nphase Hto] & [tr Hfind]).
    rewrite Hnenext. wp_steps.
    unfold StateMachine.transitionToPhase_with, StateMachine.transition_steps.
    wp_steps. unfold StateMachine.getWorkflowInstance. wp_simpl.
    rewrite !lookup_alter_eq, Hinst. simpl. wp_steps.
    unfold wi_set_phaseStates at 1 2 3; cbn [wi_currentPhaseId wi_workflowId wi_phaseStates].
    rewrite Hcur, Hne. simpl. rewrite Hwid.
    wp_steps. rewrite workflow_known. wp_steps. rewrite Hphase, Hto. wp_steps.
    rewrite Hfind. wp_steps.
    apply wp_call_canTransition_exact. rewrite validator_accepts. cbn [negb]. wp_simpl.
    wp_steps. rewrite !lookup_alter_eq, Hpinst. simpl. wp_steps.
    eapply wp_consequence.
    + eapply (IH _ iid next).
      * simpl. rewrite !lookup_alter_eq, Hinst. simpl. reflexivity.
      * simpl. exact Hwid.
      * simpl. reflexivity.
      * exact Hnenext.
      * eauto.
      * intros q Hq. simpl. destruct (Hall q Hq) as [pq Hpq].
        destruct (decide (pid = q)) as [<-|Hne'].
        -- rewrite !lookup_alter_eq, Hpq. simpl. eauto.
        -- rewrite !lookup_alter_ne by done. eauto.
      * lia.
    + simpl. intros r s' H. destruct H as [Hr Hrest]. simpl in Hr. subst r.
      split; [done|exact Hrest].
Qed.

(** X21.  When the phase executor succeeds for every phase and the
    validator accepts every transition, executing the current phase of a
    workflow runs the whole chain of first next phases inside the one
    call: each phase is executed and each transition taken in turn,
    until a phase without next phases has completed; then the workflow
    is completed and that last phase is its current phase.  (The store
    accepts every write, the chains of first next phases end, the
    provider offers each of their transitions, and the instance has a
    phase instance for every phase.) *)
Theorem workflow_runs_to_the_last_phase
        (fuel : nat) (s : SM X) (iid pid : string) (inst : WorkflowInstance) :
  instances s !! iid = Some inst ->
  wi_workflowId inst = wid ->
  wi_currentPhaseId inst = Some pid ->
  StateMachine.nonempty pid = true ->
  is_Some (getPhase phaseManager wid pid) ->
  (forall q, is_Some (getPhase phaseManager wid q) ->
             is_Some (wi_phaseStates inst !! q)) ->
  (rank pid < fuel)%nat ->
  completed_at_last_phase phaseManager iid (executePhase fuel iid pid s).
Proof.
  intros Hinst Hwid Hcur Hne Hphase Hall Hfuel.
  pose proof (chain_runs_to_its_end fuel s iid pid inst Hinst Hwid Hcur Hne Hphase Hall
                Hfuel) as H.
  unfold wp in H. by destruct (executePhase fuel iid pid s).
Qed.

End HappyPath.

Lemma chains_end_mock :
  chains_end (SMFixtures.provider SMFixtures.mockWorkflow) "test-workflow"
             (fun id => if String.eqb id "phase1" then 1 else 0)%nat.
Proof.
  intros pid phase Hget. cbn -[String.eqb] in Hget.
  destruct (String.eqb_spec "phase1" pid) as [<-|Hne1].
  - simplify_eq/=. split; [done|]. split; [lia|]. split; eauto.
  - destruct (String.eqb_spec "phase2" pid) as [<-|Hne2]; by simplify_eq/=.
Qed.

Lemma workflow_runs_to_the_last_phase_witness :
  completed_at_last_phase (SMFixtures.provider SMFixtures.mockWorkflow) "instance-0"
    (StateMachine.executePhase (SMFixtures.provider SMFixtures.mockWorkflow)
       (SMFixtures.validator true) SMFixtures.succeeding (Some SMFixtures.mockPersistence)
       (SMFixtures.persisting true (Some 3)) 10 "instance-0" "phase1" SMFixtures.started).
Proof.
  apply (workflow_runs_to_the_last_phase
           (SMFixtures.provider SMFixtures.mockWorkflow) (SMFixtures.validator true)
           SMFixtures.succeeding (Some SMFixtures.mockPersistence)
           (SMFixtures.persisting true (Some 3))
           "test-workflow" SMFixtures.mockWorkflow
           (fun id => if String.eqb id "phase1" then 1 else 0)%nat
           ltac:(done) ltac:(done) (mockPersistence_resolves _) eq_refl chains_end_mock
           10 SMFixtures.started "instance-0" "phase1" SMFixtures.at_phase1);
    try done.
  - intros q [ph Hq]. cbn -[String.eqb] in Hq.
    destruct (String.eqb_spec "phase1" q) as [<-|Hne1]; [by eexists|].
    destruct (String.eqb_spec "phase2" q) as [<-|Hne2]; [by eexists|done].
  - simpl. lia.
Defined.
(** ** StateMachine: rejections of the store *)

(** Steps up to the next call of the store. *)
Ltac wp_pure :=
  repeat (lazymatch goal with
          | |- wp (StateMachine.updateInstance _ _ _) _ _ => fail
          | |- wp (StateMachine.save_if_enabled _ _ _) _ _ => fail
          | |- _ => wp_step
          end).

Section StoreRejections.
Context {X : Type}.
Variable phaseManager : IPhaseManager.
Variable transitionValidator : ITransitionValidator X.
Variable phaseExecutor : IPhaseExecutor X.
Variable persistence : option (IWorkflowPersistence X).
Variable config : IStateMachineConfig.

Local Abbreviation executePhase :=
  (StateMachine.executePhase phaseManager transitionValidator phaseExecutor
                             persistence config).

Lemma wp_updateInstance_exact iid inst (Q : Outcome unit -> SM X -> Prop) (s : SM X) :
  instances s !! iid = Some inst ->
  Q (settled (store_update persistence config inst (env s)).2)
    (mkSM (instances s) (log s) (uuids s) (store_update persistence config inst (env s)).1) ->
  wp (StateMachine.updateInstance persistence config iid) Q s.
Proof.
  intros Hinst HQ. unfold wp.
  by rewrite (updateInstance_run persistence config iid inst s Hinst).
Qed.

(** X22.  The private [executePhase] does not catch a rejection of the
    store at its first write, which follows the marking of the phase as
    active: the call throws the error of the store at once, the phase
    executor is not called, the phase is left active and the workflow
    in the state it had. *)
Theorem store_rejection_escapes_executePhase
        (fuel : nat) (s : SM X) (iid pid : string) (inst : WorkflowInstance)
        (phase : Phase) (pinst : PhaseInstance) (e : Err) :
  instances s !! iid = Some inst ->
  getPhase phaseManager (wi_workflowId inst) pid = Some phase ->
  wi_phaseStates inst !! pid = Some pinst ->
  let d := clock (env s) in
  let stored :=
    store_update persistence config (activated inst pid d) (mkEnv (S d) (ext (env s))) in
  stored.2 = Some e ->
  executePhase (S fuel) iid pid s
  = (Threw e,
     mkSM (<[iid := activated inst pid d]> (instances s))
          (executing_entry iid pid :: log s) (uuids s) stored.1).
Proof.
  intros Hinst Hphase Hpinst d stored Hrej. subst d stored.
  cbn [StateMachine.executePhase].
  unfold StateMachine.update_phase. sm_run. rewrite Hinst. sm_run.
  rewrite Hphase. sm_run. rewrite Hpinst. sm_run.
  erewrite (updateInstance_run persistence config iid (activated inst pid (clock (env s))))
    by (cbn [instances]; rewrite lookup_alter_eq, Hinst; reflexivity).
  cbn [fst snd instances log uuids env]. rewrite Hrej. cbn [settled].
  unfold executing_entry. f_equal. f_equal.
  apply map_eq. intros k. destruct (decide (iid = k)) as [<-|Hk].
  - by rewrite lookup_alter_eq, Hinst, lookup_insert_eq.
  - by rewrite lookup_alter_ne, lookup_insert_ne.
Qed.

Variable error : Err.
Hypothesis executor_succeeds :
  forall context env, (pe_executePhase phaseExecutor context env).2 = None.

Lemma rejects_completed_update pid inst (env0 : Env X) :
  rejects_completed persistence config pid error ->
  (store_update persistence config inst env0).2
  = if phase_completed_in inst pid then Some error else None.
Proof.
  intros (Hen & p & Hp & Hup). unfold store_update. rewrite Hen, Hp. apply Hup.
Qed.

Lemma store_rejection_retried (fuel : nat) :
  forall (s : SM X) iid pid inst phase pinst,
    rejects_completed persistence config pid error ->
    instances s !! iid = Some inst ->
    getPhase phaseManager (wi_workflowId inst) pid = Some phase ->
    wi_phaseStates inst !! pid = Some pinst ->
    (retries_left config pinst < fuel)%nat ->
    wp (executePhase fuel iid pid)
       (fun r s' => exhausts_retries config iid pid pinst error s (r, s')) s.
Proof.
  induction fuel as [|fuel IH];
    intros s iid pid inst phase pinst Hstore Hinst Hphase Hpinst Hfuel; [lia|].
  cbn [StateMachine.executePhase].
  wp_pure. unfold StateMachine.getWorkflowInstance. wp_simpl. rewrite Hinst.
  wp_pure. rewrite Hphase. wp_pure. rewrite Hpinst. wp_pure.
  (* the write of the active phase is accepted *)
  eapply wp_updateInstance_exact;
    [cbn [instances]; rewrite lookup_alter_eq, Hinst; reflexivity|].
  rewrite (rejects_completed_update pid) by done.
  unfold phase_completed_in. cbn [wi_phaseStates wi_set_phaseStates].
  rewrite lookup_alter_eq, Hpinst. cbn.
  rewrite ?bool_decide_eq_true_2 by done. rewrite ?bool_decide_eq_false_2 by done.
  cbn [settled]. wp_simpl.
  apply wp_try_catch. apply wp_bind.
  apply wp_run_phaseExecutor. intros ts env2 r (context & env0 & <-). wp_simpl.
  rewrite executor_succeeds. unfold StateMachine.on_phase_success. wp_pure.
  (* the write of the completed phase is rejected *)
  eapply wp_updateInstance_exact;
    [cbn [instances]; rewrite !lookup_alter_eq, Hinst; reflexivity|].
  rewrite (rejects_completed_update pid) by done.
  unfold phase_completed_in. cbn [wi_phaseStates wi_set_phaseStates].
  rewrite !lookup_alter_eq, Hpinst. cbn.
  rewrite ?bool_decide_eq_true_2 by done. rewrite ?bool_decide_eq_false_2 by done.
  cbn [settled]. wp_simpl.
  (* and handled as a failure of the phase *)
  unfold StateMachine.on_phase_failure. wp_pure.
  rewrite !lookup_alter_eq, Hinst. simpl. rewrite !lookup_alter_eq, Hpinst. simpl.
  destruct (enableRetries config && (pi_retryCount pinst <? StateMachine.maxRetries_or_3 config))
    eqn:Hretry.
  - apply andb_true_iff in Hretry as [Hen Hlt]. apply Nat.ltb_lt in Hlt.
    wp_pure.
    eapply wp_consequence.
    + eapply (IH _ iid pid _ phase).
      * exact Hstore.
      * simpl. rewrite !lookup_alter_eq, Hinst. simpl. reflexivity.
      * simpl. exact Hphase.
      * simpl. rewrite !lookup_alter_eq, Hpinst. simpl. reflexivity.
      * unfold retries_left in *. rewrite Hen in *. simpl. lia.
    + simpl. intros r s' Hex.
      unfold exhausts_retries in *. simpl in *. unfold retries_left in *.
      rewrite Hen in *. simpl in *.
      destruct Hex as (Hr & Hexn & i2 & p2 & H1 & H2 & H3 & H5 & H6 & H7 & H8).
      split; [done|]. split; [unfold executions in *; simpl in *; lia|].
      exists i2, p2. repeat (split; [done|]). lia.
  - assert (Hleft : retries_left config pinst = 0%nat).
    { unfold retries_left. apply andb_false_iff in Hretry as [->|Hlt]; [done|].
      apply Nat.ltb_ge in Hlt. destruct (enableRetries config); lia. }
    wp_pure.
    (* the writes of the failed phase are accepted *)
    eapply wp_updateInstance_exact;
      [cbn [instances]; rewrite !lookup_alter_eq, Hinst; reflexivity|].
    rewrite (rejects_completed_update pid) by done.
    unfold phase_completed_in. cbn [wi_phaseStates wi_set_phaseStates].
    rewrite !lookup_alter_eq, Hpinst. cbn.
  rewrite ?bool_decide_eq_true_2 by done. rewrite ?bool_decide_eq_false_2 by done.
  cbn [settled]. wp_simpl.
    unfold StateMachine.failWorkflow.
    wp_pure. unfold StateMachine.getWorkflowInstance. wp_simpl.
    rewrite !lookup_alter_eq, Hinst. simpl. wp_pure.
    eapply wp_updateInstance_exact;
      [cbn [instances]; rewrite !lookup_alter_eq, Hinst; reflexivity|].
    rewrite (rejects_completed_update pid) by done.
    unfold phase_completed_in. cbn [wi_phaseStates wi_set_phaseStates wi_set_error
                                      wi_set_completedAt wi_set_state].
    rewrite !lookup_alter_eq, Hpinst. cbn.
  rewrite ?bool_decide_eq_true_2 by done. rewrite ?bool_decide_eq_false_2 by done.
  cbn [settled]. wp_simpl.
    unfold exhausts_retries. simpl. rewrite Hleft.
    split; [done|]. split; [unfold executions; simpl; lia|].
    rewrite !lookup_alter_eq, Hinst. simpl. eexists _, _.
    split; [reflexivity|]. simpl. rewrite !lookup_alter_eq, Hpinst. simpl.
    repeat (split; [reflexivity|]). simpl. lia.
Qed.

(** X23.  A rejection of the store inside the [try] block is not
    thrown to the caller: it is handled as a failure of the phase.
    With a store that rejects the write of the completed phase, a
    phase whose execution succeeded is marked failed with the error of
    the store and executed again, all its tasks included, for every
    retry that is left; then the workflow fails with the error of the
    store, and the call returns. *)
Theorem store_rejection_in_try_block_is_retried
        (fuel : nat) (s : SM X) (iid pid : string) (inst : WorkflowInstance)
        (phase : Phase) (pinst : PhaseInstance) :
  rejects_completed persistence config pid error ->
  instances s !! iid = Some inst ->
  getPhase phaseManager (wi_workflowId inst) pid = Some phase ->
  wi_phaseStates inst !! pid = Some pinst ->
  (retries_left config pinst < fuel)%nat ->
  exhausts_retries config iid pid pinst error s (executePhase fuel iid pid s).
Proof.
  intros Hstore Hinst Hphase Hpinst Hfuel.
  pose proof (store_rejection_retried fuel s iid pid inst phase pinst Hstore Hinst Hphase
                Hpinst Hfuel) as H.
  unfold wp in H. by destruct (executePhase fuel iid pid s).
Qed.

End StoreRejections.

Lemma store_rejection_escapes_executePhase_witness :
  StateMachine.executePhase (SMFixtures.provider SMFixtures.mockWorkflow)
    (SMFixtures.validator true) SMFixtures.succeeding
    (Some (SMFixtures.rejectingPersistence (Error "store down")))
    (SMFixtures.persisting true (Some 3)) 10 "instance-0" "phase1" SMFixtures.started
  = (Threw (Error "store down"),
     mkSM (<["instance-0"%string := activated SMFixtures.at_phase1 "phase1" 2]>
             (instances SMFixtures.started))
          (executing_entry "instance-0" "phase1" :: log SMFixtures.started)
          (uuids SMFixtures.started) (mkEnv 3 0)).
Proof.
  apply (store_rejection_escapes_executePhase
           (SMFixtures.provider SMFixtures.mockWorkflow) (SMFixtures.validator true)
           SMFixtures.succeeding
           (Some (SMFixtures.rejectingPersistence (Error "store down")))
           (SMFixtures.persisting true (Some 3)) 9 SMFixtures.started
           "instance-0" "phase1" SMFixtures.at_phase1
           (SMFixtures.phase "phase1" ["phase2"%string])
           (mkPhaseInstance "phase1" phase_active ∅ (Some 1) None None 0)
           (Error "store down")); reflexivity.
Defined.

Lemma store_rejection_in_try_block_is_retried_witness :
  exhausts_retries (SMFixtures.persisting true (Some 2)) "instance-0" "phase1"
    (mkPhaseInstance "phase1" phase_active ∅ (Some 1) None None 0) (Error "store down")
    SMFixtures.started
    (StateMachine.executePhase (SMFixtures.provider SMFixtures.mockWorkflow)
       (SMFixtures.validator true) SMFixtures.succeeding
       (Some (store_rejecting_completed "phase1" (Error "store down")))
       (SMFixtures.persisting true (Some 2)) 10 "instance-0" "phase1" SMFixtures.started).
Proof.
  apply (store_rejection_in_try_block_is_retried
           (SMFixtures.provider SMFixtures.mockWorkflow) (SMFixtures.validator true)
           SMFixtures.succeeding
           (Some (store_rejecting_completed "phase1" (Error "store down")))
           (SMFixtures.persisting true (Some 2)) (Error "store down")
           ltac:(done) 10 SMFixtures.started "instance-0" "phase1" SMFixtures.at_phase1
           (SMFixtures.phase "phase1" ["phase2"%string])
           (mkPhaseInstance "phase1" phase_active ∅ (Some 1) None None 0)).
  - split; [done|]. eexists. split; [reflexivity|]. done.
  - done.
  - done.
  - done.
  - vm_compute. lia.
Defined.
